(** * CryptoDataValidator: schema gate, flag rules and report builder

    A shallow embedding of [src/validators.py], [src/constants.py] and
    [src/report_types.py].  A pandas DataFrame is a row count together
    with a finite map from column names to columns; a column is the list
    of its cells in index order.  Column position is never read by the
    validator (columns are always addressed by name), so it is not part
    of the frame.  Python exceptions are values of [result].  The client
    of [src/api_client.py] and the tasks of
    [dags/crypto_market_data_pipeline.py] that call the validator follow
    the validator's definitions. *)

From Stdlib Require Import QArith Qabs Qround Qpower Lqa.
From stdpp Require Import base option list gmap strings pretty fin_maps.

Open Scope string_scope.

(** ** Numbers

    [pd.to_numeric(..., errors='coerce')] yields float64 values.  A value
    is modelled by the number it denotes: a rational, an infinity, or NaN.
    Comparisons are exact; every arithmetic operation gives the binary64
    value nearest to the exact result ([round64]).  The sign of a zero is
    not part of the model. *)

Inductive float :=
  | Fin (q : Q)
  | Inf (negative : bool)
  | NaN.

Definition Qlt_bool (x y : Q) : bool := negb (Qle_bool y x).

Definition notna (x : float) : bool :=
  match x with NaN => false | _ => true end.

Definition fle (x y : float) : bool :=
  match x, y with
  | NaN, _ | _, NaN => false
  | Fin a, Fin b => Qle_bool a b
  | Inf true, _ => true
  | _, Inf false => true
  | _, _ => false
  end.

Definition flt (x y : float) : bool :=
  match x, y with
  | NaN, _ | _, NaN => false
  | Fin a, Fin b => Qlt_bool a b
  | Inf true, Inf true => false
  | Inf false, Inf false => false
  | Inf true, _ => true
  | _, Inf false => true
  | _, _ => false
  end.

Definition fge (x y : float) : bool := fle y x.
Definition fgt (x y : float) : bool := flt y x.

(** Python's [round(x)] on an exact value: to the nearest integer, ties
    to the even one. *)
Definition round_half_even (x : Q) : Z :=
  let n := Qfloor x in
  match (x - inject_Z n ?= 1 # 2)%Q with
  | Lt => n
  | Gt => (n + 1)%Z
  | Eq => if Z.even n then n else (n + 1)%Z
  end.

(** *** binary64

    The floor of the binary logarithm of a positive rational. *)
Definition ilog2 (x : Q) : Z :=
  let l := (Z.log2 (Qnum x) - Z.log2 (Z.pos (Qden x)))%Z in
  if Qle_bool (2 ^ l) x then l else (l - 1)%Z.

(** The binary64 value nearest to a positive rational, ties to the even
    significand: 53 significant bits, the exponent of the last bit not
    below -1074 (subnormal numbers), and infinity from 2^1024 - 2^970 on. *)
Definition round64_pos (x : Q) : float :=
  let e := Z.max (ilog2 x - 52) (-1074) in
  let y := (inject_Z (round_half_even (x / 2 ^ e)) * 2 ^ e)%Q in
  if Qle_bool (2 ^ 1024) y then Inf false else Fin (Qred y).

Definition round64 (x : Q) : float :=
  match (x ?= 0)%Q with
  | Eq => Fin 0
  | Gt => round64_pos x
  | Lt => match round64_pos (- x) with
          | Fin y => Fin (- y)
          | _ => Inf true
          end
  end.

(** A number read as float64: a decimal literal denotes the nearest
    binary64 value. *)
Definition float64 (x : float) : float :=
  match x with
  | Fin q => round64 q
  | _ => x
  end.

Definition Qsign_neg (q : Q) : bool := Qlt_bool q 0.

(** The operations on float64 operands. *)
Definition fmul (x y : float) : float :=
  match x, y with
  | NaN, _ | _, NaN => NaN
  | Fin a, Fin b => round64 (a * b)
  | Inf s, Fin b | Fin b, Inf s =>
      if Qeq_bool b 0 then NaN else Inf (xorb s (Qsign_neg b))
  | Inf s, Inf t => Inf (xorb s t)
  end.

Definition fsub (x y : float) : float :=
  match x, y with
  | NaN, _ | _, NaN => NaN
  | Fin a, Fin b => round64 (a - b)
  | Inf s, Fin _ => Inf s
  | Fin _, Inf t => Inf (negb t)
  | Inf s, Inf t => if eqb s t then NaN else Inf s
  end.

Definition fabs (x : float) : float :=
  match x with
  | NaN => NaN
  | Fin a => Fin (Qabs a)
  | Inf _ => Inf false
  end.

Definition fdiv (x y : float) : float :=
  match x, y with
  | NaN, _ | _, NaN => NaN
  | Fin a, Fin b =>
      if Qeq_bool b 0
      then (if Qeq_bool a 0 then NaN else Inf (Qsign_neg a))
      else round64 (a / b)
  | Fin _, Inf _ => Fin 0
  | Inf s, Fin b => Inf (xorb s (Qsign_neg b))
  | Inf _, Inf _ => NaN
  end.

(** ** Cells, columns and frames *)

Inductive cell :=
  | CNum (q : Q)
  | CStr (s : string)
  | CBool (b : bool)
  | CNA.

(** [Series.isna()] / [DataFrame.isnull()] on one cell. *)
Definition cell_isna (c : cell) : bool :=
  match c with CNA => true | _ => false end.

Definition cell_notna (c : cell) : bool := negb (cell_isna c).

Record DataFrame := mkDataFrame {
  nrows : nat;
  columns : gmap string (list cell)
}.

(** A frame is table-shaped when every column has one cell per row. *)
Definition table_shaped (df : DataFrame) : Prop :=
  ∀ c col, columns df !! c = Some col → length col = nrows df.

(** [c in df.columns] *)
Definition has_column (df : DataFrame) (c : string) : bool :=
  bool_decide (is_Some (columns df !! c)).

(** [df[c] = v] for a scalar [v]: the column is created or replaced. *)
Definition set_column (df : DataFrame) (c : string) (v : cell) : DataFrame :=
  {| nrows := nrows df; columns := <[c := replicate (nrows df) v]> (columns df) |}.

(** [df.loc[mask, c] = v] *)
Definition mask_assign (mask : list bool) (v : cell) (col : list cell) : list cell :=
  zip_with (λ (m : bool) x, if m then v else x) mask col.

Definition loc_set (df : DataFrame) (mask : list bool) (c : string) (v : cell) : DataFrame :=
  {| nrows := nrows df; columns := alter (mask_assign mask v) c (columns df) |}.

(** [df.empty]: true when any axis has length 0. *)
Definition df_empty (df : DataFrame) : bool :=
  (nrows df =? 0)%nat || bool_decide (columns df = ∅).

(** ** Exceptions *)

Inductive PyError :=
  | KeyError (labels : list string)
  | TypeError
  | ZeroDivisionError
  | OverflowError.

Inductive result (A : Type) :=
  | Ok (a : A)
  | Raise (e : PyError).
Arguments Ok {A} a.
Arguments Raise {A} e.

#[global] Instance result_bind : MBind result := λ A B k r,
  match r with
  | Ok a => k a
  | Raise e => Raise e
  end.

(** ** constants.py *)

Inductive SchemaValidationStatus := VALID | EMPTY_DATA | INVALID_TYPE | MISSING_REQUIRED_FIELDS.

Definition schema_status_value (s : SchemaValidationStatus) : string :=
  match s with
  | VALID => "valid"
  | EMPTY_DATA => "empty_data"
  | INVALID_TYPE => "invalid_type"
  | MISSING_REQUIRED_FIELDS => "missing_required_fields"
  end.

Inductive ValidationStatus := PASSED | FAILED | SKIPPED.

Definition HAS_NON_NUMERIC_VALUE := "has_non_numeric_value".
Definition HAS_ABNORMAL_PRICE := "has_abnormal_price".
Definition HAS_INVALID_MARKET_CAP := "has_invalid_market_cap".
Definition HAS_MISSING_VALUES := "has_missing_values".
Definition HAS_DUPLICATE := "has_duplicate".

(** ** Class attributes of CryptoDataValidator *)

Definition REQUIRED_FIELDS : list string :=
  ["id"; "symbol"; "name"; "current_price";
   "market_cap"; "total_volume"; "circulating_supply"].

Definition NUMERIC_FIELDS : list string :=
  ["current_price"; "market_cap"; "market_cap_rank";
   "total_volume"; "high_24h"; "low_24h";
   "price_change_24h"; "price_change_percentage_24h";
   "market_cap_change_24h"; "market_cap_change_percentage_24h";
   "circulating_supply"; "total_supply"; "max_supply"].

Definition PRICE_RANGE_min : float := Fin (1 # 1000000).
Definition PRICE_RANGE_max : float := Fin (1000000 # 1).

(** ** Series operations (element-wise, index-aligned) *)

Definition series_and (a b : list bool) : list bool := zip_with andb a b.
Definition series_or (a b : list bool) : list bool := zip_with orb a b.
Definition series_any (a : list bool) : bool := existsb id a.
(** [int(series.sum())] on a boolean series *)
Definition series_sum (a : list bool) : nat := length (List.filter id a).

(** Python equality of two hashable cells, as used by the hash table
    behind [DataFrame.duplicated]: numbers compare by value, [True] and
    [False] equal 1 and 0, and missing values are keyed together. *)
Definition cell_eqb (x y : cell) : bool :=
  match x, y with
  | CNum a, CNum b => Qeq_bool a b
  | CNum a, CBool b | CBool b, CNum a => Qeq_bool a (if b then 1 else 0)
  | CBool a, CBool b => eqb a b
  | CStr s, CStr t => String.eqb s t
  | CNA, CNA => true
  | _, _ => false
  end.

(** [Series.duplicated(keep='first')]: scan in index order, remembering
    the keys already seen. *)
Fixpoint duplicated_from (seen : list cell) (col : list cell) : list bool :=
  match col with
  | [] => []
  | x :: rest => existsb (cell_eqb x) seen :: duplicated_from (x :: seen) rest
  end.

Definition duplicated (col : list cell) : list bool := duplicated_from [] col.

(** [df[labels]] for a list of labels: the selected columns in the order
    asked for; a [KeyError] naming the absent labels when there are any. *)
Definition select_columns (df : DataFrame) (labels : list string)
  : result (list (string * list cell)) :=
  match List.filter (λ c, negb (has_column df c)) labels with
  | [] => Ok ((λ c, (c, default [] (columns df !! c))) <$> labels)
  | missing => Raise (KeyError missing)
  end.

(** [.isnull().any(axis=1)] on selected columns of a frame with [n] rows *)
Definition isnull_any_axis1 (n : nat) (cols : list (string * list cell)) : list bool :=
  foldr (λ (c : string * list cell) acc, series_or (cell_isna <$> c.2) acc)
        (replicate n false) cols.

Section Validator.

(** The text-to-number conversion inside [pd.to_numeric]; a text that is
    not a number is coerced to NaN. *)
Variable parse_number : string → float.

Definition to_numeric_cell (c : cell) : float :=
  match c with
  | CNum q => Fin q
  | CStr s => parse_number s
  | CBool b => Fin (if b then 1 else 0)
  | CNA => NaN
  end.

(** [pd.to_numeric(col, errors='coerce')] *)
Definition to_numeric (col : list cell) : list float := to_numeric_cell <$> col.

(** *** validate_schema *)

Inductive PyObject :=
  | PyNone
  | PyOther (repr : string)
  | PyDataFrame (df : DataFrame).

Definition validate_schema (df : PyObject) : SchemaValidationStatus :=
  match df with
  | PyNone => EMPTY_DATA
  | PyOther _ => INVALID_TYPE
  | PyDataFrame df =>
      if df_empty df then EMPTY_DATA
      else
        let missing_fields : gset string :=
          list_to_set REQUIRED_FIELDS ∖ dom (columns df) in
        if bool_decide (missing_fields ≠ ∅) then MISSING_REQUIRED_FIELDS
        else VALID
  end.

(** *** flag_invalid_numeric_types *)

Definition numeric_field_step (df : DataFrame) (field : string) : DataFrame :=
  match columns df !! field with
  | Some col =>
      let invalid_mask :=
        series_and ((λ x, negb (notna x)) <$> to_numeric col) (cell_notna <$> col) in
      loc_set df invalid_mask HAS_NON_NUMERIC_VALUE (CBool true)
  | None => df
  end.

Definition flag_invalid_numeric_types (df : DataFrame) : DataFrame :=
  let df := set_column df HAS_NON_NUMERIC_VALUE (CBool false) in
  foldl numeric_field_step df NUMERIC_FIELDS.

(** *** flag_abnormal_prices *)

Definition flag_abnormal_prices (df : DataFrame) : DataFrame :=
  let df := set_column df HAS_ABNORMAL_PRICE (CBool false) in
  match columns df !! "current_price" with
  | Some col =>
      let numeric_prices := to_numeric col in
      let abnormal_price :=
        series_and (notna <$> numeric_prices)
          (series_or ((λ x, flt x PRICE_RANGE_min) <$> numeric_prices)
                     ((λ x, fgt x PRICE_RANGE_max) <$> numeric_prices)) in
      loc_set df abnormal_price HAS_ABNORMAL_PRICE (CBool true)
  | None => df
  end.

(** *** flag_invalid_market_cap *)

Definition TOLERANCE : float := float64 (Fin (5 # 100)).

Definition flag_invalid_market_cap (df : DataFrame) : DataFrame :=
  let df := set_column df HAS_INVALID_MARKET_CAP (CBool false) in
  match columns df !! "market_cap", columns df !! "current_price",
        columns df !! "circulating_supply" with
  | Some market_cap, Some current_price, Some circulating_supply =>
      let numeric_market_cap := float64 <$> to_numeric market_cap in
      let numeric_price := float64 <$> to_numeric current_price in
      let numeric_supply := float64 <$> to_numeric circulating_supply in
      let can_validate :=
        series_and (series_and (notna <$> numeric_market_cap) (notna <$> numeric_price))
                   (notna <$> numeric_supply) in
      if series_any can_validate then
        let calculated_market_cap := zip_with fmul numeric_price numeric_supply in
        let negative_cap :=
          series_and can_validate ((λ x, fle x (Fin 0)) <$> numeric_market_cap) in
        let valid_for_calc :=
          series_and can_validate ((λ x, fgt x (Fin 0)) <$> numeric_market_cap) in
        let relative_error :=
          zip_with fdiv
            (fabs <$> zip_with fsub numeric_market_cap calculated_market_cap)
            numeric_market_cap in
        let error_too_large :=
          series_and valid_for_calc ((λ x, fge x TOLERANCE) <$> relative_error) in
        loc_set df (series_or negative_cap error_too_large)
                HAS_INVALID_MARKET_CAP (CBool true)
      else df
  | _, _, _ => df
  end.

(** *** flag_missing_values *)

Definition flag_missing_values (df : DataFrame) : result DataFrame :=
  let df := set_column df HAS_MISSING_VALUES (CBool false) in
  required ← select_columns df REQUIRED_FIELDS;
  let has_missing := isnull_any_axis1 (nrows df) required in
  Ok (loc_set df has_missing HAS_MISSING_VALUES (CBool true)).

(** *** flag_duplicates *)

Definition flag_duplicates (df : DataFrame) : DataFrame :=
  let df := set_column df HAS_DUPLICATE (CBool false) in
  match columns df !! "id" with
  | Some ids => loc_set df (duplicated ids) HAS_DUPLICATE (CBool true)
  | None => df
  end.

End Validator.

(** ** report_types.py

    The TypedDicts become records; a key that a dict may lack
    ([total=False]) is an [option] field.  Dicts that are iterated keep
    their insertion order as association lists. *)

Record ValidationItemReport := mkItem {
  item_status : ValidationStatus;
  item_total_rows : option nat;
  item_failed_count : option nat;
  item_failed_percentage : option Q;
  item_examples : option (list (list (string * cell)));
  item_reason : option string
}.

Record ValidationSummary := mkSummary {
  summary_total : nat;
  summary_executed : nat;
  summary_passed : list string;
  summary_failed : list string;
  summary_skipped : list string
}.

Record ValidationReport := mkReport {
  report_status : ValidationStatus;
  report_stage : string;
  report_total_rows : nat;
  report_validations : list (string * ValidationItemReport);
  report_summary : ValidationSummary
}.

Record SchemaErrorSummary := mkSchemaSummary {
  schema_summary_passed : list string;
  schema_summary_failed : list string
}.

Record SchemaErrorReport := mkSchemaReport {
  schema_report_status : ValidationStatus;
  schema_report_stage : string;
  schema_report_error : string;
  schema_report_error_message : string;
  schema_report_validations : list (string * ValidationItemReport);
  schema_report_summary : SchemaErrorSummary
}.

(** ** Report builder *)

(** [round(x, 2)] *)
Definition py_round2 (x : Q) : Q := round_half_even (x * 100) # 100.

(** A flag column read as a boolean series.  Only columns of booleans are
    flag columns; any other content is reported as a [TypeError]. *)
Fixpoint as_mask (col : list cell) : result (list bool) :=
  match col with
  | [] => Ok []
  | CBool b :: rest => bs ← as_mask rest; Ok (b :: bs)
  | _ :: _ => Raise TypeError
  end.

(** [col[mask]]: the entries of the rows where the mask holds, in order *)
Fixpoint boolean_index {A} (mask : list bool) (col : list A) : list A :=
  match mask, col with
  | m :: mask, x :: col =>
      if m then x :: boolean_index mask col else boolean_index mask col
  | _, _ => []
  end.

(** [df[mask]] *)
Definition filter_rows (df : DataFrame) (mask : list bool) : DataFrame :=
  {| nrows := series_sum mask; columns := boolean_index mask <$> columns df |}.

(** [.head(n)] on selected columns *)
Definition head (n : nat) (cols : list (string * list cell)) : list (string * list cell) :=
  (λ c : string * list cell, (c.1, take n c.2)) <$> cols.

(** [DataFrame.to_dict('records')] on [n] rows of selected columns *)
Definition to_dict_records (n : nat) (cols : list (string * list cell))
  : list (list (string * cell)) :=
  (λ i, (λ c : string * list cell, (c.1, default CNA (c.2 !! i))) <$> cols) <$> seq 0 n.

Definition skipped_item : ValidationItemReport :=
  {| item_status := SKIPPED; item_total_rows := None; item_failed_count := None;
     item_failed_percentage := None; item_examples := None;
     item_reason := Some "validation_not_run" |}.

Definition passed_item (total_count : nat) : ValidationItemReport :=
  {| item_status := PASSED; item_total_rows := Some total_count;
     item_failed_count := Some 0%nat;
     item_failed_percentage := None; item_examples := None; item_reason := None |}.

Definition failed_item (total_count failed_count : nat) (pct : Q)
    (examples : option (list (list (string * cell)))) : ValidationItemReport :=
  {| item_status := FAILED; item_total_rows := Some total_count;
     item_failed_count := Some failed_count;
     item_failed_percentage := Some pct; item_examples := examples;
     item_reason := None |}.

(** [failed_count / total_count * 100]: the quotient of two integers is
    the binary64 value nearest to it, and so is its product with 100.
    Python raises on a zero divisor and on a quotient beyond the float64
    range.  A product beyond that range would be an infinity, which
    [round] hands back; the percentage of the item report being a number,
    the model raises there too.  Neither arises when [failed_count] is at
    most [total_count], as for the count of flagged rows of a batch. *)
Definition percentage (failed_count total_count : nat) : result Q :=
  if (total_count =? 0)%nat then Raise ZeroDivisionError
  else
    match fmul (fdiv (Fin (inject_Z (Z.of_nat failed_count)))
                     (Fin (inject_Z (Z.of_nat total_count))))
               (Fin 100) with
    | Fin pct => Ok pct
    | _ => Raise OverflowError
    end.

(** [example_columns] is the empty list for the default [None]: both take
    the branch that attaches no examples. *)
Definition _generate_flag_report (df : DataFrame) (flag_column validation_name : string)
    (example_columns : list string) : result ValidationItemReport :=
  match columns df !! flag_column with
  | None => Ok skipped_item
  | Some col =>
      let total_count := nrows df in
      flags ← as_mask col;
      let failed_count := series_sum flags in
      if (failed_count =? 0)%nat then Ok (passed_item total_count)
      else
        pct ← percentage failed_count total_count;
        match example_columns with
        | [] => Ok (failed_item total_count failed_count (py_round2 pct) None)
        | _ :: _ =>
            selected ← select_columns (filter_rows df flags) example_columns;
            let examples := head 5 selected in
            let examples_rows := min 5 failed_count in
            let examples_empty :=
              (examples_rows =? 0)%nat || (length examples =? 0)%nat in
            Ok (failed_item total_count failed_count (py_round2 pct)
                  (Some (if examples_empty then []
                         else to_dict_records examples_rows examples)))
        end
  end.

Definition update_summary (s : ValidationSummary) (kv : string * ValidationItemReport)
  : ValidationSummary :=
  match item_status kv.2 with
  | PASSED =>
      {| summary_total := summary_total s;
         summary_executed := summary_executed s + 1;
         summary_passed := summary_passed s ++ [kv.1];
         summary_failed := summary_failed s;
         summary_skipped := summary_skipped s |}
  | FAILED =>
      {| summary_total := summary_total s;
         summary_executed := summary_executed s + 1;
         summary_passed := summary_passed s;
         summary_failed := summary_failed s ++ [kv.1];
         summary_skipped := summary_skipped s |}
  | SKIPPED =>
      {| summary_total := summary_total s;
         summary_executed := summary_executed s;
         summary_passed := summary_passed s;
         summary_failed := summary_failed s;
         summary_skipped := summary_skipped s ++ [kv.1] |}
  end.

Definition generate_validation_report (df : DataFrame) : result ValidationReport :=
  numeric_types ← _generate_flag_report df HAS_NON_NUMERIC_VALUE "numeric_types"
                     ["symbol"; "name"];
  price_range ← _generate_flag_report df HAS_ABNORMAL_PRICE "price_range"
                     ["symbol"; "name"; "current_price"];
  market_cap ← _generate_flag_report df HAS_INVALID_MARKET_CAP "market_cap"
                     ["symbol"; "name"; "market_cap"; "current_price"; "circulating_supply"];
  missing_values ← _generate_flag_report df HAS_MISSING_VALUES "missing_values"
                     ["symbol"; "name"];
  duplicates ← _generate_flag_report df HAS_DUPLICATE "duplicates"
                     ["id"; "symbol"; "name"];
  let validations :=
    [("numeric_types", numeric_types); ("price_range", price_range);
     ("market_cap", market_cap); ("missing_values", missing_values);
     ("duplicates", duplicates)] in
  let summary :=
    foldl update_summary
      {| summary_total := length validations; summary_executed := 0;
         summary_passed := []; summary_failed := []; summary_skipped := [] |}
      validations in
  Ok {| report_status :=
          match summary_failed summary with [] => PASSED | _ :: _ => FAILED end;
        report_stage := "data_validation";
        report_total_rows := nrows df;
        report_validations := validations;
        report_summary := summary |}.

Definition error_messages : list (SchemaValidationStatus * string) :=
  [(EMPTY_DATA, "DataFrame is empty or None");
   (INVALID_TYPE, "Input is not a valid DataFrame");
   (MISSING_REQUIRED_FIELDS, "Missing required fields")].

#[global] Instance SchemaValidationStatus_eq_dec : EqDecision SchemaValidationStatus.
Proof. solve_decision. Defined.

#[global] Instance ValidationStatus_eq_dec : EqDecision ValidationStatus.
Proof. solve_decision. Defined.

(** [d.get(key, default)] *)
Fixpoint dict_get {K V} `{EqDecision K} (d : list (K * V)) (key : K) (dflt : V) : V :=
  match d with
  | [] => dflt
  | (k, v) :: rest => if decide (k = key) then v else dict_get rest key dflt
  end.

Definition generate_schema_error_report (status : SchemaValidationStatus)
  : SchemaErrorReport :=
  {| schema_report_status := FAILED;
     schema_report_stage := "schema_validation";
     schema_report_error := schema_status_value status;
     schema_report_error_message := dict_get error_messages status "Unknown schema error";
     schema_report_validations := [];
     schema_report_summary :=
       {| schema_summary_passed := []; schema_summary_failed := ["schema_validation"] |} |}.

(** ** Sample batches

    A text-to-number conversion that reads unsigned decimal integers and
    coerces every other text to NaN, and batches taken from the
    repository's tests, used to run the validator on concrete inputs. *)

Fixpoint digits_value (s : string) (acc : Z) : option Z :=
  match s with
  | EmptyString => Some acc
  | String a rest =>
      let n := Z.of_nat (Ascii.nat_of_ascii a) in
      if (48 <=? n)%Z && (n <=? 57)%Z then digits_value rest (acc * 10 + (n - 48))%Z
      else None
  end.

Definition sample_parse_number (s : string) : float :=
  match s with
  | EmptyString => NaN
  | _ => match digits_value s 0 with
         | Some z => Fin (inject_Z z)
         | None => NaN
         end
  end.

Definition frame (n : nat) (cols : list (string * list cell)) : DataFrame :=
  {| nrows := n; columns := list_to_map cols |}.

(** [test_full_pipeline_dirty_data] *)
Definition dirty_data : DataFrame :=
  frame 4
    [("id", [CStr "bitcoin"; CStr "bitcoin"; CStr "ethereum"; CNA]);
     ("symbol", [CStr "btc"; CStr "btc"; CStr "eth"; CStr "ada"]);
     ("name", [CStr "Bitcoin"; CStr "Bitcoin"; CStr "Ethereum"; CStr "Cardano"]);
     ("current_price", [CNum 45000; CStr "invalid"; CNum (-100); CNum (1 # 2)]);
     ("market_cap", [CNum 900000000000; CNum 900000000000; CNum 360000000000;
                     CNum 16000000000]);
     ("total_volume", [CNum 30000000000; CNum 30000000000; CNum 15000000000;
                       CNum 500000000]);
     ("circulating_supply", [CNum 19000000; CNum 19000000; CNum 120000000;
                             CNum 35000000000])].

(** [test_missing_price_column]: only three of the required columns *)
Definition three_column_batch : DataFrame :=
  frame 1 [("id", [CStr "bitcoin"]); ("symbol", [CStr "btc"]); ("name", [CStr "Bitcoin"])].

(** Two records that carry no field at all, as [pd.DataFrame(index=[0, 1])] *)
Definition fieldless_batch : DataFrame := frame 2 [].

(** [test_with_duplicates], after [flag_duplicates] *)
Definition flagged_duplicates_batch : DataFrame :=
  frame 3
    [("id", [CStr "bitcoin"; CStr "bitcoin"; CStr "ethereum"]);
     ("symbol", [CStr "btc"; CStr "btc"; CStr "eth"]);
     ("name", [CStr "Bitcoin"; CStr "Bitcoin"; CStr "Ethereum"]);
     ("has_duplicate", [CBool false; CBool true; CBool false])].

(** The value of a boolean flag column at one row. *)
Definition flag_at (df : DataFrame) (flag_column : string) (i : nat) : option bool :=
  col ← columns df !! flag_column;
  x ← col !! i;
  match x with CBool b => Some b | _ => None end.

(** The cell of a column at one row. *)
Definition cell_at (df : DataFrame) (c : string) (i : nat) : option cell :=
  col ← columns df !! c; col !! i.

(** The price rule's mask at one parsed price. *)
Definition price_out_of_range (x : float) : bool :=
  notna x && (flt x PRICE_RANGE_min || fgt x PRICE_RANGE_max).

(** The five validations of [generate_validation_report], with the flag
    column and the example columns each one is reported from. *)
Inductive Rule := numeric_types | price_range | market_cap | missing_values | duplicates.

#[global] Instance Rule_eq_dec : EqDecision Rule.
Proof. solve_decision. Defined.

Definition all_rules : list Rule :=
  [numeric_types; price_range; market_cap; missing_values; duplicates].

Definition rule_name (r : Rule) : string :=
  match r with
  | numeric_types => "numeric_types"
  | price_range => "price_range"
  | market_cap => "market_cap"
  | missing_values => "missing_values"
  | duplicates => "duplicates"
  end.

Definition flag_column_of (r : Rule) : string :=
  match r with
  | numeric_types => HAS_NON_NUMERIC_VALUE
  | price_range => HAS_ABNORMAL_PRICE
  | market_cap => HAS_INVALID_MARKET_CAP
  | missing_values => HAS_MISSING_VALUES
  | duplicates => HAS_DUPLICATE
  end.

Definition example_columns_of (r : Rule) : list string :=
  match r with
  | numeric_types => ["symbol"; "name"]
  | price_range => ["symbol"; "name"; "current_price"]
  | market_cap => ["symbol"; "name"; "market_cap"; "current_price"; "circulating_supply"]
  | missing_values => ["symbol"; "name"]
  | duplicates => ["id"; "symbol"; "name"]
  end.

(** The records of a batch in original order, each projected onto the
    given fields. *)
Definition project_rows (df : DataFrame) (fields : list string)
  : list (list (string * cell)) :=
  (λ i, (λ c, (c, default CNA (cell_at df c i))) <$> fields) <$> seq 0 (nrows df).

(** The names of the validations whose item has a given status. *)
Definition names_with (st : ValidationStatus)
    (validations : list (string * ValidationItemReport)) : list string :=
  (filter (λ kv : string * ValidationItemReport, item_status kv.2 = st) validations).*1.

(** A flagged batch: table-shaped, with the required columns that
    [validate_schema] asks for, and with booleans in each flag column that
    is present. *)
Definition boolean_column (col : list cell) : Prop :=
  ∃ flags : list bool, col = CBool <$> flags.

(** A column of [n] booleans. *)
Definition flag_series (n : nat) (col : list cell) : Prop :=
  ∃ flags : list bool, col = CBool <$> flags ∧ length flags = n.

Definition flagged_batch (df : DataFrame) : Prop :=
  table_shaped df
  ∧ (∀ f, f ∈ REQUIRED_FIELDS → is_Some (columns df !! f))
  ∧ (∀ r col, columns df !! flag_column_of r = Some col → boolean_column col).

(** Running the flag rules, one at a time and in a given order. *)
Definition apply_rule (parse_number : string → float) (r : Rule) (df : DataFrame)
  : result DataFrame :=
  match r with
  | numeric_types => Ok (flag_invalid_numeric_types parse_number df)
  | price_range => Ok (flag_abnormal_prices parse_number df)
  | market_cap => Ok (flag_invalid_market_cap parse_number df)
  | missing_values => flag_missing_values df
  | duplicates => Ok (flag_duplicates df)
  end.

Fixpoint run_rules (parse_number : string → float) (rs : list Rule) (df : DataFrame)
  : result DataFrame :=
  match rs with
  | [] => Ok df
  | r :: rs => df' ← apply_rule parse_number r df; run_rules parse_number rs df'
  end.

(** The columns each rule looks up. *)
Definition reads (r : Rule) : list string :=
  match r with
  | numeric_types => NUMERIC_FIELDS
  | price_range => ["current_price"]
  | market_cap => ["market_cap"; "current_price"; "circulating_supply"]
  | missing_values => REQUIRED_FIELDS
  | duplicates => ["id"]
  end.

(** What a rule leaves in its flag column. *)
Definition written (parse_number : string → float) (r : Rule) (df : DataFrame)
  : result (option (list cell)) :=
  df' ← apply_rule parse_number r df; Ok (columns df' !! flag_column_of r).

(** A batch flagged earlier, one id corrected since, validated again *)
Definition revalidated_batch : DataFrame :=
  frame 2 [("id", [CStr "bitcoin"; CStr "ethereum"]);
           ("has_duplicate", [CBool false; CBool true])].

(** The first record of selected columns, and the columns without it. *)
Definition heads (cols : list (string * list cell)) : list (string * cell) :=
  (λ c : string * list cell, (c.1, default CNA (c.2 !! 0))) <$> cols.

Definition tails (cols : list (string * list cell)) : list (string * list cell) :=
  (λ c : string * list cell, (c.1, tail c.2)) <$> cols.

(** The market-cap rule's mask at one record's parsed values. *)
Definition market_cap_invalid (mc p s : float) : bool :=
  (notna mc && notna p && notna s) &&
  (fle mc (Fin 0) ||
   (fgt mc (Fin 0) && fge (fdiv (fabs (fsub mc (fmul p s))) mc) TOLERANCE)).

(** *** add_metadata

    [datetime.now(ZoneInfo("Asia/Taipei")).isoformat()] is the text [now]. *)

Definition VALIDATED_AT := "validated_at".

Definition add_metadata (now : string) (df : DataFrame) : DataFrame :=
  set_column df VALIDATED_AT (CStr now).

(** The numeric rule's mask at one cell: not missing, yet not a number. *)
Definition non_numeric_cell (parse_number : string → float) (c : cell) : bool :=
  negb (notna (to_numeric_cell parse_number c)) && cell_notna c.

(** ** CoinGeckoClient ([src/api_client.py])

    [get_markets_data] is a function of its arguments and of what the
    network answers.  The calls it makes to [requests.get] are recorded
    beside its outcome.  Of a response the client reads the status code,
    the [Retry-After] header and the body text; [response.json()] followed
    by the construction of the typed records is [load_records].  An
    exception is told apart the way the [except] clauses of the client do:
    a [requests] timeout, any other [requests] exception with its text,
    the two exceptions the client raises itself, and anything else. *)

Inductive ParamValue :=
  | ParamStr (s : string)
  | ParamInt (n : Z)
  | ParamBool (b : bool).

Record Request := mkRequest {
  request_url : string;
  request_params : list (string * ParamValue);
  request_headers : list (string * string);
  request_timeout : Z
}.

Record Response := mkResponse {
  status_code : Z;
  retry_after_header : option string;
  text : string
}.

Inductive Exception :=
  | RequestsTimeout
  | RequestException (str_e : string)
  | ValueError (msg : string)
  | CoinGeckoAPIError (msg : string)
  | OtherException (name : string).

Inductive outcome (A : Type) :=
  | Returns (a : A)
  | Raises (e : Exception).
Arguments Returns {A} a.
Arguments Raises {A} e.

Definition BASE_URL : string := "https://api.coingecko.com/api/v3".
Definition DEFAULT_TIMEOUT : Z := 30.
Definition DEFAULT_RETRY_WAIT : Z := 60.

(** The two [except] clauses that close the [try] block. *)
Definition except_requests {A} (body : outcome A) : outcome A :=
  match body with
  | Raises RequestsTimeout => Raises (CoinGeckoAPIError "Request timeout")
  | Raises (RequestException str_e) =>
      Raises (CoinGeckoAPIError ("Request error: " +:+ str_e))
  | _ => body
  end.

Section CoinGeckoClient.
(** The typed record, [CryptoDataSchema]. *)
Variable CryptoDataSchema : Type.
(** [requests.get] *)
Variable requests_get : Request → outcome Response.
(** [response.json()] and a [CryptoDataSchema] built from each item *)
Variable load_records : Response → outcome (list CryptoDataSchema).
(** [int] of a header text: the integer it denotes, if any, and the
    text of the [ValueError] otherwise. *)
Variable py_int : string → option Z.
Variable int_error : string → string.

(** [int(response.headers.get('Retry-After', self.DEFAULT_RETRY_WAIT))] *)
Definition retry_after_of (response : Response) : outcome Z :=
  match retry_after_header response with
  | None => Returns DEFAULT_RETRY_WAIT
  | Some s =>
      match py_int s with
      | Some n => Returns n
      | None => Raises (ValueError (int_error s))
      end
  end.

Definition markets_request (timeout : Z) (vs_currency : string) (per_page page : Z)
    (price_change_percentage : string) : Request :=
  {| request_url := BASE_URL +:+ "/coins/markets";
     request_params :=
       [("vs_currency", ParamStr vs_currency);
        ("order", ParamStr "market_cap_desc");
        ("per_page", ParamInt per_page);
        ("page", ParamInt page);
        ("sparkline", ParamBool false);
        ("price_change_percentage", ParamStr price_change_percentage)];
     request_headers :=
       [("Accept", "application/json"); ("User-Agent", "CoinGeckoClient/1.0")];
     request_timeout := timeout |}.

Definition get_markets_data (timeout : Z) (vs_currency : string) (per_page page : Z)
    (price_change_percentage : string)
  : list Request * outcome (list CryptoDataSchema) :=
  if negb ((1 <=? per_page)%Z && (per_page <=? 250)%Z) then
    ([], Raises (ValueError "per_page must be between 1-250"))
  else if (page <? 1)%Z then
    ([], Raises (ValueError "page must be greater than 0"))
  else
    let request :=
      markets_request timeout vs_currency per_page page price_change_percentage in
    ([request],
     except_requests
       match requests_get request with
       | Raises e => Raises e
       | Returns response =>
           if (status_code response =? 429)%Z then
             match retry_after_of response with
             | Returns retry_after =>
                 Raises (CoinGeckoAPIError
                           ("API rate limit (429), Retry-After: "
                            +:+ pretty retry_after +:+ " seconds"))
             | Raises e => Raises e
             end
           else if negb (status_code response =? 200)%Z then
             Raises (CoinGeckoAPIError
                       ("API error: HTTP " +:+ pretty (status_code response)
                        +:+ " - " +:+ text response))
           else load_records response
       end).
End CoinGeckoClient.

(** ** The pipeline tasks ([dags/crypto_market_data_pipeline.py])

    XCom is the list of the values a task pushed, in push order;
    [pd.read_csv] either gives a batch, raises [EmptyDataError] or raises
    something else. *)

Inductive XComValue :=
  | XNone
  | XStatus (s : SchemaValidationStatus)
  | XStr (s : string).

Definition XCom := list (string * XComValue).

Fixpoint xcom_pull (pushed : XCom) (key : string) : XComValue :=
  match pushed with
  | [] => XNone
  | (k, v) :: rest =>
      match xcom_pull rest key with
      | XNone => if String.eqb k key then v else XNone
      | later => later
      end
  end.

(** The members of the enumeration [SchemaValidationStatus], by name. *)
Definition SchemaValidationStatus_members : list (string * SchemaValidationStatus) :=
  [("VALID", VALID); ("EMPTY_DATA", EMPTY_DATA); ("INVALID_TYPE", INVALID_TYPE);
   ("MISSING_REQUIRED_FIELDS", MISSING_REQUIRED_FIELDS)].

(** [SchemaValidationStatus.<name>]; [None] is [AttributeError]. *)
Fixpoint member_named (members : list (string * SchemaValidationStatus)) (name : string)
  : option SchemaValidationStatus :=
  match members with
  | [] => None
  | (n, m) :: rest => if String.eqb n name then Some m else member_named rest name
  end.

(** [SchemaValidationStatus(value)]; [None] is [ValueError]. *)
Fixpoint member_valued (members : list (string * SchemaValidationStatus)) (value : string)
  : option SchemaValidationStatus :=
  match members with
  | [] => None
  | (_, m) :: rest =>
      if String.eqb (schema_status_value m) value then Some m
      else member_valued rest value
  end.

Definition SchemaValidationStatus_of (v : XComValue) : option SchemaValidationStatus :=
  match v with
  | XNone => None
  | XStatus s => member_valued SchemaValidationStatus_members (schema_status_value s)
  | XStr value => member_valued SchemaValidationStatus_members value
  end.

Inductive ReadCsv :=
  | ReadFrame (df : DataFrame)
  | EmptyDataError
  | ReadError (str_e : string).

Inductive TaskResult :=
  | Branch (task_id : string)
  | AttributeError (name : string).

(** The text of [raw_file_path] in an f-string. *)
Definition path_text (raw_file_path : option string) : string :=
  match raw_file_path with
  | None => "None"
  | Some p => p
  end.

Section Pipeline.
(** [Path(p).exists()] and [pd.read_csv(p)] *)
Variable path_exists : string → bool.
Variable read_csv : string → ReadCsv.

Definition check_schema (raw_file_path : option string) : XCom * TaskResult :=
  let path := default EmptyString raw_file_path in
  if String.eqb path EmptyString || negb (path_exists path) then
    ([("schema_result", XStatus EMPTY_DATA);
      ("error_message", XStr ("Raw file not found: " +:+ path_text raw_file_path))],
     Branch "handle_schema_failure")
  else
    match read_csv path with
    | EmptyDataError =>
        ([("schema_result", XStatus EMPTY_DATA);
          ("error_message", XStr ("CSV file is completely empty: " +:+ path))],
         Branch "handle_schema_failure")
    | ReadError str_e =>
        match member_named SchemaValidationStatus_members "INVALID" with
        | None => ([], AttributeError "INVALID")
        | Some status =>
            ([("schema_result", XStatus status);
              ("error_message", XStr ("Unexpected error reading CSV: " +:+ str_e))],
             Branch "handle_schema_failure")
        end
    | ReadFrame df =>
        let result := validate_schema (PyDataFrame df) in
        ([("schema_result", XStatus result)],
         if decide (result = VALID) then Branch "run_full_validation"
         else Branch "handle_schema_failure")
    end.
End Pipeline.

(** The task [generate_schema_error_report] of the pipeline, on what
    [check_schema] pushed: the report it writes. *)
Definition generate_error_report (check_schema_xcom : XCom) : SchemaErrorReport :=
  let schema_status_value := xcom_pull check_schema_xcom "schema_result" in
  let schema_status :=
    match SchemaValidationStatus_of schema_status_value with
    | Some status => status
    | None => INVALID_TYPE
    end in
  generate_schema_error_report schema_status.





(** [ValidationStatus] is a [str] enumeration too: a member is equal to a
    text when its value is. *)
Definition validation_status_value (s : ValidationStatus) : string :=
  match s with
  | PASSED => "passed"
  | FAILED => "failed"
  | SKIPPED => "skipped"
  end.

Inductive LogLevel := WARNING | INFO.

(** The task [notify_validation_complete] on the quality report: the level
    at which it logs its summary. *)
Definition notify_validation_complete (report : ValidationReport) : LogLevel :=
  if String.eqb (validation_status_value (report_status report)) "FAILED"
  then WARNING else INFO.

(** ** Sample surroundings

    A transport that answers every request with status 429 and a
    [Retry-After] header holding an HTTP date, an [int] that reads
    unsigned decimal integers, and a file system without the raw file. *)

Definition rate_limited_response : Response :=
  {| status_code := 429;
     retry_after_header := Some "Wed, 21 Oct 2026 07:28:00 GMT";
     text := EmptyString |}.

Definition rate_limited (request : Request) : outcome Response :=
  Returns rate_limited_response.

Definition sample_load_records (response : Response) : outcome (list string) :=
  Returns [text response].

Definition sample_py_int (s : string) : option Z :=
  match s with
  | EmptyString => None
  | _ => digits_value s 0
  end.

Definition sample_int_error (s : string) : string :=
  "invalid literal for int() with base 10: '" +:+ s +:+ "'".

Definition no_file (path : string) : bool := false.

Definition no_csv (path : string) : ReadCsv := EmptyDataError.

(** ** Scope of the float64 arithmetic

    pandas keeps a column holding integers only as int64 and computes
    with it in 64-bit integers.  Where the integers of a record and their
    product are at most 2^53 in magnitude both arithmetics give the same
    numbers. *)

Definition is_integer (q : Q) : bool := Qeq_bool (inject_Z (Qfloor q)) q.

Definition within_2_53 (x : float) : bool :=
  match x with
  | Fin q => negb (is_integer q) || Qle_bool (Qabs q) (2 ^ 53)
  | _ => true
  end.

Definition int64_as_float64 (mc p s : float) : bool :=
  within_2_53 mc && within_2_53 p && within_2_53 s &&
  match p, s with
  | Fin a, Fin b =>
      negb (is_integer a && is_integer b) || Qle_bool (Qabs (a * b)) (2 ^ 53)
  | _, _ => true
  end.

(** One record whose market cap is off by 5% of itself on paper:
    3 against 0.63 * 5 = 3.15. *)
Definition tolerance_edge_batch : DataFrame :=
  frame 1 [("market_cap", [CNum 3]); ("current_price", [CNum (63 # 100)]);
           ("circulating_supply", [CNum 5])].

(** 160 records of which the last 23 are flagged as duplicates. *)
Definition twenty_three_of_160 : DataFrame :=
  frame 160
    [("id", replicate 160 (CStr "bitcoin"));
     ("symbol", replicate 160 (CStr "btc"));
     ("name", replicate 160 (CStr "Bitcoin"));
     ("has_duplicate",
      (replicate 137 (CBool false) ++ replicate 23 (CBool true))%list)].

(** * Properties *)

(** ** Frames *)

Lemma DataFrame_eq (a b : DataFrame) :
  nrows a = nrows b → columns a = columns b → a = b.
Proof. destruct a, b; simpl; intros -> ->; reflexivity. Qed.

Lemma frame_table_shaped n cols :
  Forall (λ kv : string * list cell, length kv.2 = n) cols →
  table_shaped (frame n cols).
Proof.
  intros Hall c col Hc. unfold frame in Hc; simpl in Hc.
  apply elem_of_list_to_map_2 in Hc.
  rewrite Forall_forall in Hall. exact (Hall _ Hc).
Qed.

Lemma set_column_lookup df c v c' :
  columns (set_column df c v) !! c' =
  if decide (c = c') then Some (replicate (nrows df) v) else columns df !! c'.
Proof. unfold set_column; simpl. apply lookup_insert. Qed.

Lemma set_column_lookup_ne df c v c' :
  c ≠ c' → columns (set_column df c v) !! c' = columns df !! c'.
Proof. intros. rewrite set_column_lookup. by rewrite decide_False. Qed.

Lemma loc_set_lookup_ne df mask c v c' :
  c ≠ c' → columns (loc_set df mask c v) !! c' = columns df !! c'.
Proof. intros. unfold loc_set; simpl. by apply lookup_alter_ne. Qed.

(** Initialising a flag column and then marking the rows of a mask writes
    one column and nothing else. *)
Lemma init_then_mark df c v0 mask v :
  loc_set (set_column df c v0) mask c v =
  {| nrows := nrows df;
     columns := <[c := mask_assign mask v (replicate (nrows df) v0)]> (columns df) |}.
Proof. unfold loc_set, set_column; simpl. by rewrite alter_insert_eq. Qed.

Lemma length_mask_assign mask v col :
  length mask = length col → length (mask_assign mask v col) = length col.
Proof. intros H. unfold mask_assign. rewrite length_zip_with. lia. Qed.

Lemma lookup_mark_fresh mask n i :
  length mask = n →
  mask_assign mask (CBool true) (replicate n (CBool false)) !! i = CBool <$> mask !! i.
Proof.
  intros Hlen. unfold mask_assign. rewrite lookup_zip_with.
  destruct (mask !! i) as [m|] eqn:Hm; simpl; [|done].
  assert (i < n) as Hi by (rewrite <- Hlen; by eapply lookup_lt_Some).
  rewrite lookup_replicate_2 by done. simpl. by destruct m.
Qed.

Lemma mark_fresh mask n :
  length mask = n →
  mask_assign mask (CBool true) (replicate n (CBool false)) = CBool <$> mask.
Proof.
  intros Hlen. apply list_eq. intros i.
  rewrite lookup_mark_fresh by done. by rewrite list_lookup_fmap.
Qed.

Lemma mark_nothing mask n :
  Forall (λ m, m = false) mask →
  length mask = n →
  mask_assign mask (CBool true) (replicate n (CBool false)) = replicate n (CBool false).
Proof.
  intros Hall Hlen. rewrite mark_fresh by done. subst n.
  induction Hall as [|m mask -> _ IH]; [done|].
  rewrite fmap_cons. simpl. by f_equal.
Qed.

Lemma Qlt_bool_iff (x y : Q) : Qlt_bool x y = true ↔ (x < y)%Q.
Proof.
  unfold Qlt_bool. rewrite negb_true_iff. split.
  - intros H. apply Qnot_le_lt. intros Hle.
    apply Qle_bool_iff in Hle. congruence.
  - intros H. destruct (Qle_bool y x) eqn:E; [|done].
    apply Qle_bool_iff in E. by apply Qlt_not_le in H.
Qed.

Lemma flag_at_with df df' c mask i :
  columns df' = <[c := CBool <$> mask]> (columns df) →
  flag_at df' c i = mask !! i.
Proof.
  intros Hcols. unfold flag_at. rewrite Hcols, lookup_insert_eq. simpl.
  rewrite list_lookup_fmap. by destruct (mask !! i).
Qed.

Section Rules.

Variable parse_number : string → float.

(** ** flag_abnormal_prices *)

Lemma flag_abnormal_prices_present df prices :
  table_shaped df →
  columns df !! "current_price" = Some prices →
  flag_abnormal_prices parse_number df =
  {| nrows := nrows df;
     columns := <[HAS_ABNORMAL_PRICE :=
                    CBool <$> (price_out_of_range <$> to_numeric parse_number prices)]>
                  (columns df) |}.
Proof.
  intros Hshape Hp. unfold flag_abnormal_prices.
  rewrite set_column_lookup_ne by done. rewrite Hp.
  rewrite init_then_mark. f_equal. f_equal.
  set (xs := to_numeric parse_number prices).
  assert (length xs = nrows df) as Hlen.
  { unfold xs, to_numeric. rewrite length_fmap. by eapply Hshape. }
  rewrite mark_fresh.
  - f_equal. apply list_eq. intros i.
    unfold series_and, series_or. rewrite !lookup_zip_with, !list_lookup_fmap.
    by destruct (xs !! i).
  - unfold series_and, series_or. rewrite !length_zip_with, !length_fmap. lia.
Qed.

Lemma flag_abnormal_prices_absent df :
  columns df !! "current_price" = None →
  flag_abnormal_prices parse_number df =
  {| nrows := nrows df;
     columns := <[HAS_ABNORMAL_PRICE := replicate (nrows df) (CBool false)]> (columns df) |}.
Proof.
  intros Hp. unfold flag_abnormal_prices.
  rewrite set_column_lookup_ne by done. by rewrite Hp.
Qed.

Lemma price_out_of_range_spec x :
  price_out_of_range x = true ↔
  match x with
  | Fin q => (q < 1 # 1000000)%Q ∨ (1000000 # 1 < q)%Q
  | Inf _ => True
  | NaN => False
  end.
Proof.
  unfold price_out_of_range, fgt, PRICE_RANGE_min, PRICE_RANGE_max.
  destruct x as [q|[]|]; simpl; try done.
  rewrite orb_true_iff, !Qlt_bool_iff. done.
Qed.

(** C6: with a [current_price] column, [flag_abnormal_prices] flags exactly
    the records whose price parses to a number strictly outside
    [1e-6, 1e6]; the bounds themselves, missing prices and unparseable
    prices are not flagged, 9.9e-7 and 1.000001e6 are; without the column
    every record gets the flag false. *)
Theorem flag_abnormal_prices_spec (df : DataFrame) :
  table_shaped df →
  (∀ prices, columns df !! "current_price" = Some prices →
     ∀ i c, prices !! i = Some c →
       ∃ b, flag_at (flag_abnormal_prices parse_number df) HAS_ABNORMAL_PRICE i = Some b
          ∧ (b = true ↔
               match to_numeric_cell parse_number c with
               | Fin q => (q < 1 # 1000000)%Q ∨ (1000000 # 1 < q)%Q
               | Inf _ => True
               | NaN => False
               end)
          ∧ (c = CNum (1 # 1000000) → b = false)
          ∧ (c = CNum (1000000 # 1) → b = false)
          ∧ (c = CNum (99 # 100000000) → b = true)
          ∧ (c = CNum (1000001 # 1) → b = true)
          ∧ (c = CNA → b = false)
          ∧ (∀ s, c = CStr s → parse_number s = NaN → b = false))
  ∧ (columns df !! "current_price" = None →
       ∀ i, i < nrows df →
         flag_at (flag_abnormal_prices parse_number df) HAS_ABNORMAL_PRICE i = Some false).
Proof.
  intros Hshape. split.
  - intros prices Hp i c Hc.
    exists (price_out_of_range (to_numeric_cell parse_number c)).
    split; [|split; [apply price_out_of_range_spec|]].
    + erewrite flag_at_with
        by (rewrite (flag_abnormal_prices_present _ _ Hshape Hp); reflexivity).
      unfold to_numeric. rewrite !list_lookup_fmap, Hc. done.
    + repeat split.
      * by intros ->.
      * by intros ->.
      * by intros ->.
      * by intros ->.
      * by intros ->.
      * intros s -> Hs. simpl. by rewrite Hs.
  - intros Hp i Hi. rewrite (flag_abnormal_prices_absent _ Hp).
    unfold flag_at; simpl. rewrite lookup_insert_eq; simpl.
    by rewrite lookup_replicate_2.
Qed.

End Rules.

(** ** flag_duplicates *)

Lemma length_duplicated_from seen col :
  length (duplicated_from seen col) = length col.
Proof. revert seen. induction col as [|x col IH]; intros seen; simpl; [done|]. by rewrite IH. Qed.

Lemma duplicated_from_lookup col : ∀ seen i x,
  col !! i = Some x →
  ∃ b, duplicated_from seen col !! i = Some b ∧
       (b = true ↔
          (∃ y, In y seen ∧ cell_eqb x y = true) ∨
          (∃ j y, j < i ∧ col !! j = Some y ∧ cell_eqb x y = true)).
Proof.
  induction col as [|c col IH]; intros seen i x Hi; [done|].
  destruct i as [|i]; simpl in Hi.
  - injection Hi as <-. exists (existsb (cell_eqb c) seen). split; [done|].
    rewrite existsb_exists. split.
    + intros H. by left.
    + intros [H|(j & y & Hj & _)]; [done|lia].
  - destruct (IH (c :: seen) i x Hi) as (b & Hb & Hiff).
    exists b. split; [exact Hb|]. rewrite Hiff. split.
    + intros [(y & [<-|Hin] & Heq)|(j & y & Hj & Hy & Heq)].
      * right. exists 0, c. split; [lia|]. done.
      * left. by exists y.
      * right. exists (S j), y. split; [lia|]. done.
    + intros [(y & Hin & Heq)|(j & y & Hj & Hy & Heq)].
      * left. exists y. split; [by right|done].
      * destruct j as [|j]; simpl in Hy.
        -- injection Hy as <-. left. exists c. split; [by left|done].
        -- right. exists j, y. split; [lia|]. done.
Qed.

Lemma flag_duplicates_present df ids :
  table_shaped df →
  columns df !! "id" = Some ids →
  flag_duplicates df =
  {| nrows := nrows df;
     columns := <[HAS_DUPLICATE := CBool <$> duplicated ids]> (columns df) |}.
Proof.
  intros Hshape Hid. unfold flag_duplicates.
  rewrite set_column_lookup_ne by done. rewrite Hid.
  rewrite init_then_mark. f_equal. f_equal.
  apply mark_fresh. unfold duplicated. rewrite length_duplicated_from.
  by eapply Hshape.
Qed.

Lemma flag_duplicates_absent df :
  columns df !! "id" = None →
  flag_duplicates df =
  {| nrows := nrows df;
     columns := <[HAS_DUPLICATE := replicate (nrows df) (CBool false)]> (columns df) |}.
Proof.
  intros Hid. unfold flag_duplicates.
  rewrite set_column_lookup_ne by done. by rewrite Hid.
Qed.

(** C7: with an [id] column, [flag_duplicates] flags a record exactly when
    its id equals the id of an earlier record of the batch, so the ids
    [A, A, B] get the flags [false, true, false]; without the column every
    record gets the flag false. *)
Theorem flag_duplicates_spec (df : DataFrame) :
  table_shaped df →
  (∀ ids, columns df !! "id" = Some ids →
     (∀ i x, ids !! i = Some x →
        ∃ b, flag_at (flag_duplicates df) HAS_DUPLICATE i = Some b
           ∧ (b = true ↔
                ∃ j y, j < i ∧ ids !! j = Some y ∧ cell_eqb x y = true))
     ∧ (∀ a b : string, a ≠ b → ids = [CStr a; CStr a; CStr b] →
          columns (flag_duplicates df) !! HAS_DUPLICATE =
          Some [CBool false; CBool true; CBool false]))
  ∧ (columns df !! "id" = None →
       ∀ i, i < nrows df →
         flag_at (flag_duplicates df) HAS_DUPLICATE i = Some false).
Proof.
  intros Hshape. split.
  - intros ids Hid. rewrite (flag_duplicates_present _ _ Hshape Hid). split.
    + intros i x Hx.
      destruct (duplicated_from_lookup ids [] i x Hx) as (b & Hb & Hiff).
      exists b. split.
      * erewrite flag_at_with by reflexivity. exact Hb.
      * rewrite Hiff. split; [|by right].
        intros [(y & [] & _)|H]; done.
    + intros a b Hab ->. simpl. rewrite lookup_insert_eq.
      unfold duplicated; simpl.
      rewrite String.eqb_refl. simpl.
      destruct (String.eqb_spec b a) as [->|_]; done.
  - intros Hid i Hi. rewrite (flag_duplicates_absent _ Hid).
    unfold flag_at; simpl. rewrite lookup_insert_eq; simpl.
    by rewrite lookup_replicate_2.
Qed.

(** ** Rounding *)

Lemma round_half_even_proper (x y : Q) :
  (x == y)%Q → round_half_even x = round_half_even y.
Proof.
  intros H. unfold round_half_even. rewrite (Qfloor_comp _ _ H).
  assert ((x - inject_Z (Qfloor y) ?= 1 # 2) = (y - inject_Z (Qfloor y) ?= 1 # 2))%Q
    as -> by (apply Qcompare_comp; [by rewrite H|done]).
  done.
Qed.

Lemma py_round2_proper (x y : Q) : (x == y)%Q → py_round2 x = py_round2 y.
Proof.
  intros H. unfold py_round2. f_equal. apply round_half_even_proper. by rewrite H.
Qed.

Lemma round_half_even_near (x : Q) :
  (Qabs (x - inject_Z (round_half_even x)) <= 1 # 2)%Q.
Proof.
  unfold round_half_even.
  pose proof (Qfloor_le x) as Hlo. pose proof (Qlt_floor x) as Hhi.
  rewrite inject_Z_plus in Hhi.
  apply Qabs_Qle_condition.
  destruct (x - inject_Z (Qfloor x) ?= 1 # 2)%Q eqn:E;
    [apply Qeq_alt in E; destruct (Z.even (Qfloor x))
    |apply Qlt_alt in E|apply Qgt_alt in E];
    rewrite ?inject_Z_plus; change (inject_Z 1) with 1%Q in *;
    set (n := inject_Z (Qfloor x)) in *; clearbody n; lra.
Qed.

(** [round(x, 2)] is a multiple of 0.01 within 0.005 of [x]. *)
Lemma py_round2_near (x : Q) : (Qabs (x - py_round2 x) <= 1 # 200)%Q.
Proof.
  pose proof (round_half_even_near (x * 100)) as H.
  apply Qabs_Qle_condition in H. apply Qabs_Qle_condition.
  unfold py_round2. rewrite (Qmake_Qdiv (round_half_even (x * 100)) 100).
  set (r := inject_Z (round_half_even (x * 100))) in *.
  change (inject_Z (Z.pos 100)) with (100 # 1).
  assert (r / (100 # 1) == r * (1 # 100))%Q as -> by (by unfold Qdiv).
  lra.
Qed.

(** ** binary64 rounding *)

Lemma round_half_even_le (t : Q) (N : Z) :
  (t <= inject_Z N)%Q → (round_half_even t ≤ N)%Z.
Proof.
  intros Ht. pose proof (round_half_even_near t) as H.
  apply Qabs_Qle_condition in H as [H1 H2].
  destruct (Z_le_gt_dec (round_half_even t) N) as [|Hgt]; [done|]. exfalso.
  assert (inject_Z (N + 1) <= inject_Z (round_half_even t))%Q as Hq
    by (rewrite <- Zle_Qle; lia).
  rewrite inject_Z_plus in Hq. change (inject_Z 1) with 1%Q in Hq.
  set (m := inject_Z (round_half_even t)) in *. set (n := inject_Z N) in *.
  clearbody m n. lra.
Qed.

Lemma round_half_even_ge (t : Q) (N : Z) :
  (inject_Z N <= t)%Q → (N ≤ round_half_even t)%Z.
Proof.
  intros Ht. pose proof (round_half_even_near t) as H.
  apply Qabs_Qle_condition in H as [H1 H2].
  destruct (Z_le_gt_dec N (round_half_even t)) as [|Hgt]; [done|]. exfalso.
  assert (inject_Z (round_half_even t + 1) <= inject_Z N)%Q as Hq
    by (rewrite <- Zle_Qle; lia).
  rewrite inject_Z_plus in Hq. change (inject_Z 1) with 1%Q in Hq.
  set (m := inject_Z (round_half_even t)) in *. set (n := inject_Z N) in *.
  clearbody m n. lra.
Qed.

Lemma pow2_pos (e : Z) : (0 < 2 ^ e)%Q.
Proof. by apply Qpower_0_lt. Qed.

Lemma pow2_plus (a b : Z) : (2 ^ (a + b) == 2 ^ a * 2 ^ b)%Q.
Proof. by apply Qpower_plus. Qed.

Lemma pow2_succ (a : Z) : (2 ^ (a + 1) == 2 * 2 ^ a)%Q.
Proof. rewrite pow2_plus. change (2 ^ 1)%Q with 2%Q. ring. Qed.

Lemma pow2_le (a b : Z) : (a ≤ b)%Z → (2 ^ a <= 2 ^ b)%Q.
Proof. intros H. apply Qpower_le_compat_l; [done|]. by apply Qle_bool_iff. Qed.

Lemma pow2_lt (a b : Z) : (a < b)%Z → (2 ^ a < 2 ^ b)%Q.
Proof. intros H. apply Qpower_lt_compat_l; [done|]. reflexivity. Qed.

Lemma pow2_lt_inv (a b : Z) : (2 ^ a < 2 ^ b)%Q → (a < b)%Z.
Proof.
  intros H. destruct (Z_lt_ge_dec a b) as [|Hge]; [done|]. exfalso.
  apply Qlt_not_le in H. apply H, pow2_le. lia.
Qed.

Lemma pow2_inject (n : Z) : (0 ≤ n)%Z → (inject_Z (2 ^ n) == 2 ^ n)%Q.
Proof. intros H. by rewrite Zpower_Qpower. Qed.

Lemma ilog2_spec (x : Q) :
  (0 < x)%Q → (2 ^ ilog2 x <= x)%Q ∧ (x < 2 ^ (ilog2 x + 1))%Q.
Proof.
  intros Hx. destruct x as [a b]. unfold ilog2. cbn [Qnum Qden].
  assert (0 < a)%Z as Ha.
  { unfold Qlt in Hx. cbn in Hx. lia. }
  pose proof (Z.log2_spec a Ha) as [Ha1 Ha2].
  pose proof (Z.log2_spec (Z.pos b) (Pos2Z.is_pos b)) as [Hb1 Hb2].
  pose proof (Z.log2_nonneg a) as Hla. pose proof (Z.log2_nonneg (Z.pos b)) as Hlb.
  set (la := Z.log2 a) in *. set (lb := Z.log2 (Z.pos b)) in *.
  assert (a # b == inject_Z a / inject_Z (Z.pos b))%Q as Hab by apply Qmake_Qdiv.
  assert (0 < inject_Z (Z.pos b))%Q as Hbpos by (by apply Qlt_alt).
  assert (inject_Z (2 ^ la) <= inject_Z a)%Q as Qa1 by (by rewrite <- Zle_Qle).
  assert (inject_Z a < inject_Z (2 ^ Z.succ la))%Q as Qa2 by (by rewrite <- Zlt_Qlt).
  assert (inject_Z (2 ^ lb) <= inject_Z (Z.pos b))%Q as Qb1 by (by rewrite <- Zle_Qle).
  assert (inject_Z (Z.pos b) < inject_Z (2 ^ Z.succ lb))%Q as Qb2
    by (by rewrite <- Zlt_Qlt).
  rewrite pow2_inject in Qa1, Qa2, Qb1, Qb2 by lia.
  unfold Z.succ in Qa2, Qb2. rewrite pow2_succ in Qa2, Qb2.
  assert (2 ^ (la - lb) == 2 ^ la / 2 ^ lb)%Q as Hl.
  { apply Qpower_minus. done. }
  pose proof (pow2_pos la) as Pla. pose proof (pow2_pos lb) as Plb.
  set (A := inject_Z a) in *. set (B := inject_Z (Z.pos b)) in *.
  set (P := (2 ^ la)%Q) in *. set (R := (2 ^ lb)%Q) in *.
  clearbody A B P R.
  assert (a # b < 2 * 2 ^ (la - lb))%Q as Hup.
  { rewrite Hab, Hl. apply Qlt_shift_div_r; [done|].
    assert (2 * (P / R) * B == (2 * P * B) / R)%Q as -> by (unfold Qdiv; ring).
    apply Qlt_shift_div_l; [done|]. nra. }
  assert (2 ^ (la - lb) < 2 * (a # b))%Q as Hlow.
  { rewrite Hab, Hl. apply Qlt_shift_div_r; [done|].
    assert (2 * (A / B) * R == (2 * A * R) / B)%Q as -> by (unfold Qdiv; ring).
    apply Qlt_shift_div_l; [done|]. nra. }
  destruct (Qle_bool (2 ^ (la - lb)) (a # b)) eqn:E.
  - apply Qle_bool_iff in E. split; [done|]. by rewrite pow2_succ.
  - assert (a # b < 2 ^ (la - lb))%Q as Hlt.
    { apply Qnot_le_lt. intros H. apply Qle_bool_iff in H. congruence. }
    replace (la - lb - 1 + 1)%Z with (la - lb)%Z by lia. split; [|done].
    assert (2 ^ (la - lb) == 2 * 2 ^ (la - lb - 1))%Q as H2.
    { rewrite <- pow2_succ. by replace (la - lb - 1 + 1)%Z with (la - lb)%Z by lia. }
    rewrite H2 in Hlow. set (z := (2 ^ (la - lb - 1))%Q) in *. clearbody z.
    set (w := a # b) in *. clearbody w. lra.
Qed.

Lemma pow2_53 (M : Z) : (M < 2 ^ 53)%Z → (inject_Z M < 2 ^ 53)%Q.
Proof.
  intros H. rewrite <- (pow2_inject 53) by lia. by rewrite <- Zlt_Qlt.
Qed.

Lemma round64_pos_le (x : Q) (M f : Z) :
  (0 < x)%Q → (x <= inject_Z M * 2 ^ f)%Q →
  (M < 2 ^ 53)%Z → (-1074 ≤ f)%Z → (inject_Z M * 2 ^ f < 2 ^ 1024)%Q →
  ∃ y, round64_pos x = Fin y ∧ (0 <= y)%Q ∧ (y <= inject_Z M * 2 ^ f)%Q.
Proof.
  intros Hx HxB HM Hf HB. unfold round64_pos.
  destruct (ilog2_spec x Hx) as [HL1 HL2]. set (L := ilog2 x) in *. clearbody L.
  set (e := Z.max (L - 52) (-1074)).
  pose proof (pow2_pos f) as Pf. pose proof (pow2_pos e) as Pe.
  assert (e ≤ f)%Z as Hef.
  { assert (L < 53 + f)%Z; [|lia]. apply pow2_lt_inv.
    rewrite pow2_plus. pose proof (pow2_53 M HM) as HM'.
    set (a := inject_Z M) in *. set (b := (2 ^ f)%Q) in *. set (c := (2 ^ 53)%Q) in *.
    set (d := (2 ^ L)%Q) in *. clearbody a b c d. nra. }
  set (N := (M * 2 ^ (f - e))%Z).
  assert (inject_Z N * 2 ^ e == inject_Z M * 2 ^ f)%Q as HN.
  { unfold N. rewrite inject_Z_mult, pow2_inject by lia.
    rewrite <- Qmult_assoc, <- pow2_plus. by replace (f - e + e)%Z with f by lia. }
  assert (x / 2 ^ e <= inject_Z N)%Q as Ht.
  { apply Qle_shift_div_r; [done|]. by rewrite HN. }
  assert (0 <= x / 2 ^ e)%Q as Ht0.
  { apply Qle_shift_div_l; [done|]. lra. }
  pose proof (round_half_even_le _ _ Ht) as Hm.
  pose proof (round_half_even_ge _ 0 Ht0) as Hm0.
  set (m := round_half_even (x / 2 ^ e)) in *. clearbody m.
  assert (0 <= inject_Z m)%Q as Qm0 by (by rewrite <- (Zle_Qle 0)).
  assert (inject_Z m <= inject_Z N)%Q as Qm by (by rewrite <- Zle_Qle).
  assert (0 <= inject_Z m * 2 ^ e)%Q as Hy0.
  { apply Qmult_le_0_compat; [done|lra]. }
  assert (inject_Z m * 2 ^ e <= inject_Z M * 2 ^ f)%Q as Hy.
  { rewrite <- HN. apply Qmult_le_compat_r; [done|lra]. }
  destruct (Qle_bool (2 ^ 1024) (inject_Z m * 2 ^ e)) eqn:E.
  - apply Qle_bool_iff in E. exfalso.
    set (y := (inject_Z m * 2 ^ e)%Q) in *. clearbody y.
    set (B := (inject_Z M * 2 ^ f)%Q) in *. clearbody B.
    set (T := (2 ^ 1024)%Q) in *. clearbody T. lra.
  - eexists. split; [reflexivity|]. by rewrite Qred_correct.
Qed.

Lemma round64_le (x : Q) (M f : Z) :
  (0 <= x)%Q → (x <= inject_Z M * 2 ^ f)%Q →
  (M < 2 ^ 53)%Z → (-1074 ≤ f)%Z → (inject_Z M * 2 ^ f < 2 ^ 1024)%Q →
  ∃ y, round64 x = Fin y ∧ (0 <= y)%Q ∧ (y <= inject_Z M * 2 ^ f)%Q.
Proof.
  intros Hx HxB HM Hf HB. unfold round64.
  destruct (x ?= 0)%Q eqn:E.
  - apply Qeq_alt in E. exists 0%Q. split; [done|]. split; [lra|]. lra.
  - apply Qlt_alt in E. lra.
  - apply Qgt_alt in E. by apply round64_pos_le.
Qed.

Lemma round64_pos_error (x : Q) :
  (2 ^ (-1022) <= x)%Q → (x < 2 ^ 1023)%Q →
  ∃ y, round64_pos x = Fin y ∧ (Qabs (y - x) <= x * 2 ^ (-53))%Q.
Proof.
  intros Hlo Hhi.
  assert (0 < x)%Q as Hx by (pose proof (pow2_pos (-1022)); lra).
  unfold round64_pos.
  destruct (ilog2_spec x Hx) as [HL1 HL2]. set (L := ilog2 x) in *. clearbody L.
  assert (-1022 ≤ L)%Z as HLlo.
  { assert (-1022 < L + 1)%Z; [|lia]. apply pow2_lt_inv.
    set (a := (2 ^ (-1022))%Q) in *. set (b := (2 ^ (L + 1))%Q) in *.
    clearbody a b. lra. }
  assert (L < 1023)%Z as HLhi.
  { apply pow2_lt_inv.
    set (a := (2 ^ 1023)%Q) in *. set (b := (2 ^ L)%Q) in *. clearbody a b. lra. }
  rewrite Z.max_l by lia. set (e := (L - 52)%Z).
  pose proof (pow2_pos e) as Pe.
  pose proof (round_half_even_near (x / 2 ^ e)) as Hnear.
  set (m := inject_Z (round_half_even (x / 2 ^ e))) in *. clearbody m.
  assert (x == (x / 2 ^ e) * 2 ^ e)%Q as Hxt.
  { field. intros H. rewrite H in Pe. by apply Qlt_irrefl in Pe. }
  set (t := (x / 2 ^ e)%Q) in *. clearbody t.
  apply Qabs_Qle_condition in Hnear as [Hn1 Hn2].
  assert (2 ^ L == 2 ^ 53 * (2 ^ e * (1 # 2)))%Q as HLe.
  { unfold e. replace L with ((L - 52 - 1) + 53)%Z at 1 by lia.
    rewrite pow2_plus.
    assert (2 ^ (L - 52) == 2 * 2 ^ (L - 52 - 1))%Q as ->.
    { rewrite <- pow2_succ. by replace (L - 52 - 1 + 1)%Z with (L - 52)%Z by lia. }
    ring. }
  assert (2 ^ (-53) * 2 ^ 53 == 1)%Q as H53.
  { rewrite <- pow2_plus. reflexivity. }
  assert (2 ^ e * (1 # 2) <= x * 2 ^ (-53))%Q as Hulp.
  { pose proof (pow2_pos (-53)) as P53. pose proof (pow2_pos 53) as P53'.
    set (h := (2 ^ e * (1 # 2))%Q) in *.
    set (a := (2 ^ (-53))%Q) in *. set (b := (2 ^ 53)%Q) in *.
    set (c := (2 ^ L)%Q) in *. clearbody a b c.
    assert (c * a == h)%Q as Hca.
    { rewrite HLe. transitivity ((a * b) * h)%Q; [ring|]. rewrite H53. ring. }
    rewrite <- Hca. apply Qmult_le_compat_r; lra. }
  assert (Qabs (m * 2 ^ e - x) <= 2 ^ e * (1 # 2))%Q as Herr.
  { apply Qabs_Qle_condition. rewrite Hxt.
    set (E := (2 ^ e)%Q) in *. clearbody E. split; nra. }
  assert (m * 2 ^ e < 2 ^ 1024)%Q as Hov.
  { apply Qabs_Qle_condition in Herr as [_ Herr].
    assert (x * 2 ^ (-53) <= x)%Q as Hsmall.
    { assert (2 ^ (-53) <= 1)%Q as H1 by (by apply Qle_bool_iff).
      set (a := (2 ^ (-53))%Q) in *. clearbody a. nra. }
    assert (2 ^ 1024 == 2 * 2 ^ 1023)%Q as -> by reflexivity.
    set (y := (m * 2 ^ e)%Q) in *. set (h := (2 ^ e * (1 # 2))%Q) in *.
    set (a := (x * 2 ^ (-53))%Q) in *. set (T := (2 ^ 1023)%Q) in *.
    clearbody y h a T. lra. }
  destruct (Qle_bool (2 ^ 1024) (m * 2 ^ e)) eqn:E.
  - apply Qle_bool_iff in E. exfalso.
    set (y := (m * 2 ^ e)%Q) in *. set (T := (2 ^ 1024)%Q) in *. clearbody y T. lra.
  - eexists. split; [reflexivity|]. rewrite Qred_correct.
    set (y := (m * 2 ^ e)%Q) in *. set (h := (2 ^ e * (1 # 2))%Q) in *.
    set (a := (x * 2 ^ (-53))%Q) in *. clearbody y h a.
    eapply Qle_trans; [exact Herr|exact Hulp].
Qed.

Lemma py_round2_bounds (x : Q) : (0 <= x <= 100)%Q → (0 <= py_round2 x <= 100)%Q.
Proof.
  intros [Hlo Hhi].
  pose proof (round_half_even_near (x * 100)) as H.
  apply Qabs_Qle_condition in H as [H1 H2].
  unfold py_round2. set (r := round_half_even (x * 100)) in *.
  assert (0 ≤ r ≤ 10000)%Z as Hr.
  { split.
    - destruct (Z_le_gt_dec 0 r) as [|Hneg]; [done|]. exfalso.
      assert (inject_Z r <= inject_Z (-1))%Q as Hq by (rewrite <- Zle_Qle; lia).
      change (inject_Z (-1)) with (-(1))%Q in Hq.
      set (q := inject_Z r) in *. clearbody q. lra.
    - destruct (Z_le_gt_dec r 10000) as [|Hbig]; [done|]. exfalso.
      assert (inject_Z 10001 <= inject_Z r)%Q as Hq by (rewrite <- Zle_Qle; lia).
      change (inject_Z 10001) with (10001 # 1)%Q in Hq.
      set (q := inject_Z r) in *. clearbody q. lra. }
  unfold Qle. cbn [Qnum Qden]. lia.
Qed.

Lemma round64_positive (x : Q) : (0 < x)%Q → round64 x = round64_pos x.
Proof.
  intros Hx. unfold round64. destruct (x ?= 0)%Q eqn:E; [| |done].
  - apply Qeq_alt in E. lra.
  - apply Qlt_alt in E. lra.
Qed.

Lemma round64_pos_subnormal (x : Q) :
  (0 < x)%Q → (x < 2 ^ (-1022))%Q →
  ∃ y, round64_pos x = Fin y ∧ (Qabs (y - x) <= 2 ^ (-1075))%Q.
Proof.
  intros Hx Hhi. unfold round64_pos.
  destruct (ilog2_spec x Hx) as [HL1 HL2]. set (L := ilog2 x) in *. clearbody L.
  assert (L < -1022)%Z as HL.
  { apply pow2_lt_inv.
    set (a := (2 ^ (-1022))%Q) in *. set (b := (2 ^ L)%Q) in *. clearbody a b. lra. }
  rewrite Z.max_r by lia.
  pose proof (pow2_pos (-1074)) as Pe.
  pose proof (round_half_even_near (x / 2 ^ (-1074))) as Hnear.
  set (m := inject_Z (round_half_even (x / 2 ^ (-1074)))) in *. clearbody m.
  assert (x == (x / 2 ^ (-1074)) * 2 ^ (-1074))%Q as Hxt.
  { field. intros H. rewrite H in Pe. by apply Qlt_irrefl in Pe. }
  set (t := (x / 2 ^ (-1074))%Q) in *. clearbody t.
  apply Qabs_Qle_condition in Hnear as [Hn1 Hn2].
  assert (2 ^ (-1074) == 2 * 2 ^ (-1075))%Q as He by (by rewrite <- pow2_succ).
  assert (2 ^ (-1022) <= 1)%Q as H1 by (by apply Qle_bool_iff).
  assert (2 < 2 ^ 1024)%Q as H2 by reflexivity.
  assert (2 ^ (-1075) <= 1)%Q as H3 by (by apply Qle_bool_iff).
  pose proof (pow2_pos (-1075)) as Ph.
  set (E := (2 ^ (-1074))%Q) in *. set (h := (2 ^ (-1075))%Q) in *.
  set (a := (2 ^ (-1022))%Q) in *. set (T := (2 ^ 1024)%Q) in *.
  clearbody E h a T.
  assert (Qabs (m * E - x) <= h)%Q as Herr.
  { apply Qabs_Qle_condition. rewrite Hxt. split; nra. }
  destruct (Qle_bool T (m * E)) eqn:Eov.
  - apply Qle_bool_iff in Eov. exfalso.
    apply Qabs_Qle_condition in Herr as [_ Herr].
    set (y := (m * E)%Q) in *. clearbody y. lra.
  - eexists. split; [reflexivity|]. by rewrite Qred_correct.
Qed.

Lemma round64_pos_mixed_error (x : Q) :
  (0 < x)%Q → (x < 2 ^ 1023)%Q →
  ∃ y, round64_pos x = Fin y ∧ (Qabs (y - x) <= x * 2 ^ (-53) + 2 ^ (-1075))%Q.
Proof.
  intros Hx Hhi.
  pose proof (pow2_pos (-53)) as Pu. pose proof (pow2_pos (-1075)) as Ph.
  destruct (Qlt_le_dec x (2 ^ (-1022))) as [Hsub|Hnorm].
  - destruct (round64_pos_subnormal x Hx Hsub) as (y & Hy & Herr).
    exists y. split; [done|]. eapply Qle_trans; [exact Herr|].
    set (u := (2 ^ (-53))%Q) in *. set (h := (2 ^ (-1075))%Q) in *.
    clearbody u h. nra.
  - destruct (round64_pos_error x Hnorm Hhi) as (y & Hy & Herr).
    exists y. split; [done|]. eapply Qle_trans; [exact Herr|].
    set (u := (x * 2 ^ (-53))%Q) in *. set (h := (2 ^ (-1075))%Q) in *.
    clearbody u h. lra.
Qed.

Lemma round64_error (x : Q) :
  (Qabs x < 2 ^ 1023)%Q →
  ∃ y, round64 x = Fin y
       ∧ (Qabs (y - x) <= Qabs x * 2 ^ (-53) + 2 ^ (-1075))%Q.
Proof.
  intros Hx. pose proof (pow2_pos (-53)) as Pu. pose proof (pow2_pos (-1075)) as Ph.
  unfold round64. destruct (x ?= 0)%Q eqn:E.
  - apply Qeq_alt in E. exists 0%Q. split; [done|].
    rewrite E. change (Qabs (0 - 0)) with 0%Q. change (Qabs 0) with 0%Q. lra.
  - apply Qlt_alt in E.
    assert (Qabs x == - x)%Q as Habs by (apply Qabs_neg; lra).
    rewrite Habs in Hx.
    destruct (round64_pos_mixed_error (- x)) as (y & -> & Herr); [lra|done|].
    exists (- y)%Q. split; [done|]. rewrite Habs.
    assert (- y - x == - (y - - x))%Q as -> by ring.
    by rewrite Qabs_opp.
  - apply Qgt_alt in E.
    assert (Qabs x == x)%Q as Habs by (apply Qabs_pos; lra).
    rewrite Habs in Hx.
    destruct (round64_pos_mixed_error x) as (y & -> & Herr); [lra|done|].
    exists y. split; [done|]. by rewrite Habs.
Qed.

Lemma round64_pos_ge (x B : Q) (M f : Z) :
  (B == inject_Z M * 2 ^ f)%Q → (0 < x)%Q → (B <= x)%Q →
  (0 ≤ M < 2 ^ 53)%Z → (-1074 ≤ f)%Z →
  fle (Fin B) (round64_pos x) = true.
Proof.
  intros HB Hx HBx [HM0 HM] Hf. unfold round64_pos.
  destruct (ilog2_spec x Hx) as [HL1 HL2]. set (L := ilog2 x) in *. clearbody L.
  set (e := Z.max (L - 52) (-1074)).
  pose proof (pow2_pos f) as Pf. pose proof (pow2_pos e) as Pe.
  assert (x == (x / 2 ^ e) * 2 ^ e)%Q as Hxt.
  { field. intros H. rewrite H in Pe. by apply Qlt_irrefl in Pe. }
  assert (B <= inject_Z (round_half_even (x / 2 ^ e)) * 2 ^ e)%Q as Hy.
  { destruct (Z_le_gt_dec e f) as [Hef|Hef].
    - set (N := (M * 2 ^ (f - e))%Z).
      assert (inject_Z N * 2 ^ e == inject_Z M * 2 ^ f)%Q as HN.
      { unfold N. rewrite inject_Z_mult, pow2_inject by lia.
        rewrite <- Qmult_assoc, <- pow2_plus. by replace (f - e + e)%Z with f by lia. }
      assert (inject_Z N <= x / 2 ^ e)%Q as Ht.
      { apply Qle_shift_div_l; [done|]. rewrite HN, <- HB. done. }
      pose proof (round_half_even_ge _ _ Ht) as Hm.
      rewrite HB, <- HN. apply Qmult_le_compat_r; [|lra].
      by rewrite <- Zle_Qle.
    - assert (e = L - 52)%Z as He by lia.
      assert (2 ^ L == inject_Z (2 ^ 52) * 2 ^ e)%Q as HLe.
      { rewrite pow2_inject by lia. rewrite <- pow2_plus.
        by replace (52 + e)%Z with L by lia. }
      assert (inject_Z (2 ^ 52) <= x / 2 ^ e)%Q as Ht.
      { apply Qle_shift_div_l; [done|]. by rewrite <- HLe. }
      pose proof (round_half_even_ge _ _ Ht) as Hm.
      assert (inject_Z M * 2 ^ f <= 2 ^ L)%Q as HML.
      { assert (inject_Z M <= 2 ^ 53)%Q as HM'
          by (apply Qlt_le_weak, pow2_53; done).
        assert (0 <= inject_Z M)%Q as HM0' by (by rewrite <- (Zle_Qle 0)).
        assert (2 ^ 53 * 2 ^ f <= 2 ^ L)%Q as Hp.
        { rewrite <- pow2_plus. apply pow2_le. lia. }
        eapply Qle_trans; [|exact Hp]. apply Qmult_le_compat_r; [done|lra]. }
      rewrite HB. eapply Qle_trans; [exact HML|]. rewrite HLe.
      apply Qmult_le_compat_r; [|lra]. by rewrite <- Zle_Qle. }
  set (y := (inject_Z (round_half_even (x / 2 ^ e)) * 2 ^ e)%Q) in *. clearbody y.
  destruct (Qle_bool (2 ^ 1024) y); [done|].
  cbn [fle]. apply Qle_bool_iff. by rewrite Qred_correct.
Qed.

Lemma round64_magnitude (x B : Q) (M f : Z) :
  (B == inject_Z M * 2 ^ f)%Q → (0 < B)%Q → (B <= Qabs x)%Q →
  (0 ≤ M < 2 ^ 53)%Z → (-1074 ≤ f)%Z →
  (∃ s, round64 x = Inf s) ∨ (∃ y, round64 x = Fin y ∧ (B <= Qabs y)%Q).
Proof.
  intros HB HB0 HBx HM Hf. unfold round64. destruct (x ?= 0)%Q eqn:E.
  - apply Qeq_alt in E. rewrite E in HBx. change (Qabs 0) with 0%Q in HBx. lra.
  - apply Qlt_alt in E. rewrite Qabs_neg in HBx by lra.
    assert (0 < - x)%Q as Hx by lra.
    pose proof (round64_pos_ge (- x) B M f HB Hx HBx HM Hf) as Hge.
    destruct (round64_pos (- x)) as [y|s|]; [|by left; eexists|done].
    right. exists (- y)%Q. split; [done|]. apply Qle_bool_iff in Hge.
    rewrite Qabs_opp. eapply Qle_trans; [exact Hge|apply Qle_Qabs].
  - apply Qgt_alt in E. rewrite Qabs_pos in HBx by lra.
    pose proof (round64_pos_ge x B M f HB E HBx HM Hf) as Hge.
    destruct (round64_pos x) as [y|s|]; [|by left; eexists|done].
    right. exists y. split; [done|]. apply Qle_bool_iff in Hge.
    eapply Qle_trans; [exact Hge|apply Qle_Qabs].
Qed.

Lemma Qabs_bounds (t : Q) : (- Qabs t <= t)%Q ∧ (t <= Qabs t)%Q ∧ (0 <= Qabs t)%Q.
Proof.
  split; [|split; [apply Qle_Qabs|apply Qabs_nonneg]].
  pose proof (Qle_Qabs (- t)) as H. rewrite Qabs_opp in H.
  set (a := Qabs t) in *. clearbody a. lra.
Qed.

Lemma Qdiv_ge_mult (a b r : Q) : (0 < b)%Q → (r <= a / b)%Q → (r * b <= a)%Q.
Proof.
  intros Hb H. assert (a == (a / b) * b)%Q as -> by (field; lra).
  apply Qmult_le_compat_r; lra.
Qed.

Lemma Qdiv_le_mult (a b r : Q) : (0 < b)%Q → (a / b <= r)%Q → (a <= r * b)%Q.
Proof.
  intros Hb H. assert (a == (a / b) * b)%Q as -> by (field; lra).
  apply Qmult_le_compat_r; lra.
Qed.

(** ** flag_invalid_market_cap *)

Lemma series_any_false l i b :
  series_any l = false → l !! i = Some b → b = false.
Proof.
  intros Hany Hi. destruct b; [|done].
  assert (series_any l = true) as Ht; [|congruence].
  unfold series_any. apply existsb_exists. exists true. split; [|done].
  apply list_elem_of_In. by eapply list_elem_of_lookup_2.
Qed.

Lemma notna_round64 (q : Q) : notna (round64 q) = true.
Proof.
  unfold round64, round64_pos.
  destruct (q ?= 0)%Q; [done| |].
  - by destruct (Qle_bool _ _).
  - by destruct (Qle_bool _ _).
Qed.

Lemma notna_float64 (x : float) : notna (float64 x) = notna x.
Proof. destruct x as [q| |]; [apply notna_round64|done|done]. Qed.

(** The relative error as computed against the exact one: the product and
    the difference are each off by at most one part in 2^53 (and 2^-1075
    near zero), so away from the tolerance by 10^-15 the comparison comes
    out as for the exact relative error. *)
Lemma tolerance_value :
  TOLERANCE = Fin (3602879701896397 # 72057594037927936).
Proof. vm_compute. reflexivity. Qed.

Lemma market_cap_difference (m a c : Q) :
  (0 < m)%Q → (m <= 2 ^ 1000)%Q → (Qabs (a * c) <= 2 ^ 1001)%Q →
  ∃ d, fsub (Fin m) (fmul (Fin a) (Fin c)) = Fin d
       ∧ (Qabs (d - (m - a * c))
          <= (Qabs (m - a * c) + 2 * Qabs (a * c)) * 2 ^ (-53)
             + 3 * 2 ^ (-1075))%Q.
Proof.
  intros Hm Hhi Hx. cbn [fmul]. set (x := (a * c)%Q) in *. clearbody x.
  assert (2 ^ 1000 + 2 * 2 ^ 1001 + 1 < 2 ^ 1023)%Q as Hbig
    by (apply Qlt_alt; vm_compute; reflexivity).
  assert (2 ^ (-1075) <= 1)%Q as He1 by (by apply Qle_bool_iff).
  pose proof (pow2_pos (-1075)) as He0. pose proof (pow2_pos 1000) as P1000.
  destruct (round64_error x) as (c' & -> & Hc).
  { pose proof (Qabs_nonneg x) as HX0. set (P := (2 ^ 1000)%Q) in *. set (R := (2 ^ 1001)%Q) in *.
    set (T := (2 ^ 1023)%Q) in *. set (X := Qabs x) in *. clearbody P R T X. lra. }
  cbn [fsub].
  destruct (Qabs_bounds x) as (HX1 & HX2 & HX0).
  destruct (Qabs_bounds (m - x)) as (HA1 & HA2 & HA0).
  apply Qabs_Qle_condition in Hc as [Hc1 Hc2].
  change (2 ^ (-53))%Q with (1 # 9007199254740992)%Q in *.
  set (e0 := (2 ^ (-1075))%Q) in *.
  set (X := Qabs x) in *. set (A := Qabs (m - x)) in *.
  destruct (round64_error (m - c')) as (d & -> & Hd).
  { apply Qabs_Qlt_condition.
    set (P := (2 ^ 1000)%Q) in *. set (R := (2 ^ 1001)%Q) in *.
    set (T := (2 ^ 1023)%Q) in *. clearbody P R T X A e0. split; lra. }
  exists d. split; [done|].
  change (2 ^ (-53))%Q with (1 # 9007199254740992)%Q in *. fold e0 in Hd.
  assert (Qabs (m - c') <= A + X * (1 # 9007199254740992) + e0)%Q as HB.
  { apply Qabs_Qle_condition. clearbody X A e0. split; lra. }
  pose proof (Qabs_nonneg (m - c')) as HB0.
  apply Qabs_Qle_condition in Hd as [Hd1 Hd2].
  set (B := Qabs (m - c')) in *.
  apply Qabs_Qle_condition. clearbody X A B e0. split; lra.
Qed.

Lemma tolerance_reached (m D : Q) :
  (0 < m)%Q → ((3602879701896397 # 72057594037927936) * m <= D)%Q →
  fge (fdiv (Fin D) (Fin m)) TOLERANCE = true.
Proof.
  intros Hm HD. cbn [fdiv].
  assert (Qeq_bool m 0 = false) as ->.
  { apply not_true_is_false. intros H%Qeq_bool_iff. lra. }
  assert (0 < D / m)%Q as Hpos.
  { apply Qlt_shift_div_l; [done|]. lra. }
  unfold fge. rewrite tolerance_value, (round64_positive _ Hpos).
  apply (round64_pos_ge _ _ 3602879701896397 (-56)).
  - reflexivity.
  - done.
  - by apply Qle_shift_div_l.
  - split; [lia|reflexivity].
  - lia.
Qed.

Lemma tolerance_reached_inf (m : Q) (s : bool) :
  (0 < m)%Q → fge (fdiv (fabs (Inf s)) (Fin m)) TOLERANCE = true.
Proof.
  intros Hm. cbn [fabs fdiv]. unfold Qsign_neg, Qlt_bool.
  assert (Qle_bool 0 m = true) as -> by (apply Qle_bool_iff; lra).
  unfold fge. by rewrite tolerance_value.
Qed.

Lemma relative_error_above (m a c : Q) :
  (2 ^ (-900) <= m)%Q → (m <= 2 ^ 1000)%Q →
  ((5 # 100) + (1 # 1000000000000000) <= Qabs (m - a * c) / m)%Q →
  fge (fdiv (fabs (fsub (Fin m) (fmul (Fin a) (Fin c)))) (Fin m)) TOLERANCE = true.
Proof.
  intros Hlo Hhi Hrel.
  pose proof (pow2_pos (-900)) as Plo.
  assert (0 < m)%Q as Hm by lra.
  destruct (Qlt_le_dec (2 ^ 1001) (Qabs (a * c))) as [Hbig|Hx].
  - pose proof (pow2_pos 1000) as P1000.
    assert (2 ^ 1001 == 2 * 2 ^ 1000)%Q as H1001 by reflexivity.
    cbn [fmul].
    destruct (round64_magnitude (a * c) (2 ^ 1001) 1 1001)
      as [[s ->]|(c' & -> & Hc')]; [by rewrite Qmult_1_l|lra|lra|done|lia| |].
    { cbn [fsub]. by apply tolerance_reached_inf. }
    cbn [fsub].
    assert (2 ^ 1000 <= Qabs (m - c'))%Q as Hdiff.
    { pose proof (Qabs_triangle_reverse c' m) as Hrev.
      rewrite (Qabs_Qminus c' m), (Qabs_pos m) in Hrev by lra.
      set (P := (2 ^ 1000)%Q) in *. set (R := (2 ^ 1001)%Q) in *.
      set (C := Qabs c') in *. set (B := Qabs (m - c')) in *.
      clearbody P R C B. lra. }
    destruct (round64_magnitude (m - c') (2 ^ 1000) 1 1000)
      as [[s ->]|(d & -> & Hd)]; [by rewrite Qmult_1_l|done|done|done|lia| |].
    { by apply tolerance_reached_inf. }
    cbn [fabs]. apply tolerance_reached; [done|].
    set (P := (2 ^ 1000)%Q) in *. set (D := Qabs d) in *. clearbody P D. lra.
  - destruct (market_cap_difference m a c Hm Hhi Hx) as (d & -> & Herr).
    cbn [fabs]. apply tolerance_reached; [done|].
    apply Qdiv_ge_mult in Hrel; [|done].
    assert (3 * 2 ^ (-1075) <= (1 # 1152921504606846976) * 2 ^ (-900))%Q as He
      by (by apply Qle_bool_iff).
    pose proof (Qabs_triangle_reverse (m - a * c) (m - a * c - d)) as Hrev.
    assert (m - a * c - (m - a * c - d) == d)%Q as Hd by ring.
    rewrite Hd in Hrev. rewrite (Qabs_Qminus (m - a * c) d) in Hrev.
    assert (Qabs (a * c) <= m + Qabs (m - a * c))%Q as HX.
    { pose proof (Qabs_triangle m (- (m - a * c))) as Ht.
      assert (m + - (m - a * c) == a * c)%Q as Hmx by ring.
      rewrite Hmx, Qabs_opp, (Qabs_pos m) in Ht by lra. done. }
    pose proof (Qabs_nonneg (m - a * c)) as HA0.
    change (2 ^ (-53))%Q with (1 # 9007199254740992)%Q in *.
    set (x := (a * c)%Q) in *. clearbody x.
    set (lo := (2 ^ (-900))%Q) in *. set (e0 := (2 ^ (-1075))%Q) in *.
    set (A := Qabs (m - x)) in *. set (X := Qabs x) in *.
    set (E := Qabs (d - (m - x))) in *. set (D := Qabs d) in *.
    clearbody lo e0 A X E D. lra.
Qed.

Lemma relative_error_below (m a c : Q) :
  (2 ^ (-900) <= m)%Q → (m <= 2 ^ 1000)%Q →
  (Qabs (m - a * c) / m <= (5 # 100) - (1 # 1000000000000000))%Q →
  fge (fdiv (fabs (fsub (Fin m) (fmul (Fin a) (Fin c)))) (Fin m)) TOLERANCE = false.
Proof.
  intros Hlo Hhi Hrel.
  pose proof (pow2_pos (-900)) as Plo.
  assert (0 < m)%Q as Hm by lra.
  apply Qdiv_le_mult in Hrel; [|done].
  assert (Qabs (a * c) <= m + Qabs (m - a * c))%Q as HX.
  { pose proof (Qabs_triangle m (- (m - a * c))) as Ht.
    assert (m + - (m - a * c) == a * c)%Q as Hmx by ring.
    rewrite Hmx, Qabs_opp, (Qabs_pos m) in Ht by lra. done. }
  pose proof (Qabs_nonneg (m - a * c)) as HA0.
  assert (Qabs (a * c) <= 2 ^ 1001)%Q as Hx.
  { assert (2 ^ 1001 == 2 * 2 ^ 1000)%Q as -> by reflexivity.
    set (P := (2 ^ 1000)%Q) in *. set (A := Qabs (m - a * c)) in *.
    set (X := Qabs (a * c)) in *. clearbody P A X. lra. }
  destruct (market_cap_difference m a c Hm Hhi Hx) as (d & -> & Herr).
  cbn [fabs fdiv].
  assert (Qeq_bool m 0 = false) as ->.
  { apply not_true_is_false. intros H%Qeq_bool_iff. lra. }
  assert (3 * 2 ^ (-1075) <= (1 # 1152921504606846976) * 2 ^ (-900))%Q as He
    by (by apply Qle_bool_iff).
  apply Qabs_Qle_condition in Herr as [Herr1 Herr2].
  destruct (Qabs_bounds (m - a * c)) as (HA1 & HA2 & _).
  change (2 ^ (-53))%Q with (1 # 9007199254740992)%Q in *.
  set (x := (a * c)%Q) in *. clearbody x.
  set (lo := (2 ^ (-900))%Q) in *. set (e0 := (2 ^ (-1075))%Q) in *.
  set (A := Qabs (m - x)) in *. set (X := Qabs x) in *.
  assert (Qabs d <= inject_Z 7205759403792793 * 2 ^ (-57) * m)%Q as HD.
  { change (inject_Z 7205759403792793 * 2 ^ (-57))%Q
      with ((7205759403792793 # 1) * (1 # 144115188075855872))%Q.
    apply Qabs_Qle_condition. clearbody lo e0 A X. split; lra. }
  pose proof (Qabs_nonneg d) as HD0. set (D := Qabs d) in *. clearbody D.
  destruct (round64_le (D / m) 7205759403792793 (-57)) as (y & -> & _ & Hy).
  - apply Qle_shift_div_l; [done|]. lra.
  - by apply Qle_shift_div_r.
  - reflexivity.
  - lia.
  - apply Qlt_alt. vm_compute. reflexivity.
  - unfold fge. rewrite tolerance_value. cbn [fle].
    apply not_true_is_false. intros H%Qle_bool_iff.
    change (inject_Z 7205759403792793 * 2 ^ (-57))%Q
      with ((7205759403792793 # 1) * (1 # 144115188075855872))%Q in Hy.
    lra.
Qed.

Section MarketCap.

Variable parse_number : string → float.

Lemma flag_invalid_market_cap_present df mcs ps ss :
  table_shaped df →
  columns df !! "market_cap" = Some mcs →
  columns df !! "current_price" = Some ps →
  columns df !! "circulating_supply" = Some ss →
  ∀ i cm cp cs,
    mcs !! i = Some cm → ps !! i = Some cp → ss !! i = Some cs →
    flag_at (flag_invalid_market_cap parse_number df) HAS_INVALID_MARKET_CAP i =
    Some (market_cap_invalid (float64 (to_numeric_cell parse_number cm))
            (float64 (to_numeric_cell parse_number cp))
            (float64 (to_numeric_cell parse_number cs))).
Proof.
  intros Hshape Hm Hp Hs i cm cp cs Him Hip His.
  assert (i < nrows df) as Hi.
  { rewrite <- (Hshape _ _ Hm). by eapply lookup_lt_Some. }
  unfold flag_invalid_market_cap.
  rewrite !set_column_lookup_ne by done. rewrite Hm, Hp, Hs.
  set (xm := float64 <$> to_numeric parse_number mcs).
  set (xp := float64 <$> to_numeric parse_number ps).
  set (xs := float64 <$> to_numeric parse_number ss).
  set (mc := float64 (to_numeric_cell parse_number cm)).
  set (p := float64 (to_numeric_cell parse_number cp)).
  set (s := float64 (to_numeric_cell parse_number cs)).
  assert (xm !! i = Some mc) as Hxm
    by (unfold xm, to_numeric; by rewrite !list_lookup_fmap, Him).
  assert (xp !! i = Some p) as Hxp
    by (unfold xp, to_numeric; by rewrite !list_lookup_fmap, Hip).
  assert (xs !! i = Some s) as Hxs
    by (unfold xs, to_numeric; by rewrite !list_lookup_fmap, His).
  assert (length xm = nrows df ∧ length xp = nrows df ∧ length xs = nrows df)
    as (Hlm & Hlp & Hls).
  { unfold xm, xp, xs, to_numeric. rewrite !length_fmap.
    rewrite (Hshape _ _ Hm), (Hshape _ _ Hp), (Hshape _ _ Hs). done. }
  clearbody xm xp xs mc p s.
  set (can := series_and (series_and (notna <$> xm) (notna <$> xp)) (notna <$> xs)).
  assert (can !! i = Some (notna mc && notna p && notna s)) as Hcan.
  { unfold can, series_and. rewrite !lookup_zip_with, !list_lookup_fmap.
    by rewrite Hxm, Hxp, Hxs. }
  destruct (series_any can) eqn:Hany.
  - rewrite init_then_mark. unfold flag_at. cbn [columns].
    rewrite lookup_insert_eq. cbn [mbind option_bind].
    rewrite lookup_mark_fresh.
    + unfold series_or, series_and in *.
      rewrite !lookup_zip_with, !list_lookup_fmap, !lookup_zip_with.
      rewrite Hcan. rewrite !list_lookup_fmap, !lookup_zip_with.
      rewrite Hxm, Hxp, Hxs. cbn [mbind option_bind fmap option_fmap option_map].
      unfold market_cap_invalid.
      by destruct (notna mc && notna p && notna s).
    + unfold can, series_or, series_and.
      repeat (rewrite ?length_zip_with, ?length_fmap).
      rewrite Hlm, Hlp, Hls, !Nat.min_id. done.
  - pose proof (series_any_false _ _ _ Hany Hcan) as Hfalse.
    unfold flag_at. rewrite set_column_lookup, decide_True by done.
    cbn [mbind option_bind].
    rewrite lookup_replicate_2 by done. cbn [mbind option_bind].
    unfold market_cap_invalid. by rewrite Hfalse.
Qed.

Lemma flag_invalid_market_cap_absent df :
  columns df !! "market_cap" = None ∨ columns df !! "current_price" = None
    ∨ columns df !! "circulating_supply" = None →
  flag_invalid_market_cap parse_number df =
  set_column df HAS_INVALID_MARKET_CAP (CBool false).
Proof.
  intros H. unfold flag_invalid_market_cap.
  rewrite !set_column_lookup_ne by done.
  destruct H as [->|[->| ->]]; [done| |].
  - by destruct (columns df !! "market_cap").
  - by destruct (columns df !! "market_cap"), (columns df !! "current_price").
Qed.

(** C1: when the [market_cap], [current_price] and [circulating_supply]
    columns are all present, [flag_invalid_market_cap] flags exactly the
    records whose three values parse to numbers and whose market cap is
    either non-positive, or positive with a relative error
    |market_cap - price * supply| / market_cap of at least 0.05, where
    the inputs are float64 values and the product, the difference and
    the quotient are each the nearest binary64 value.  For a market cap
    between 2^-900 and 2^1000 this agrees with the exact relative error
    of the float64 inputs wherever that is at least 0.05 + 10^-15
    (flagged) or at most 0.05 - 10^-15 (not flagged).  A record with a
    missing or unparseable input is not flagged; when one of the columns
    is absent every record gets the flag false.  The records are those
    whose integer inputs and their product stay within 2^53, where int64
    and float64 arithmetic agree, and whose market cap is no boolean. *)
Theorem flag_invalid_market_cap_spec (df : DataFrame) :
  table_shaped df →
  (∀ mcs ps ss,
     columns df !! "market_cap" = Some mcs →
     columns df !! "current_price" = Some ps →
     columns df !! "circulating_supply" = Some ss →
     ∀ i cm cp cs,
       mcs !! i = Some cm → ps !! i = Some cp → ss !! i = Some cs →
       (∀ flag, cm ≠ CBool flag) →
       int64_as_float64 (to_numeric_cell parse_number cm)
         (to_numeric_cell parse_number cp) (to_numeric_cell parse_number cs) = true →
       let mc := float64 (to_numeric_cell parse_number cm) in
       let p := float64 (to_numeric_cell parse_number cp) in
       let s := float64 (to_numeric_cell parse_number cs) in
       ∃ b, flag_at (flag_invalid_market_cap parse_number df)
              HAS_INVALID_MARKET_CAP i = Some b
          ∧ (b = true ↔
               notna mc = true ∧ notna p = true ∧ notna s = true ∧
               (fle mc (Fin 0) = true ∨
                (fgt mc (Fin 0) = true ∧
                 fge (fdiv (fabs (fsub mc (fmul p s))) mc)
                     (float64 (Fin (5 # 100))) = true)))
          ∧ (∀ m a c, mc = Fin m → p = Fin a → s = Fin c →
               (2 ^ (-900) <= m)%Q → (m <= 2 ^ 1000)%Q →
               ((5 # 100) + (1 # 1000000000000000) <= Qabs (m - a * c) / m →
                b = true)%Q
               ∧ (Qabs (m - a * c) / m <= (5 # 100) - (1 # 1000000000000000) →
                  b = false)%Q)
          ∧ (to_numeric_cell parse_number cm = NaN
             ∨ to_numeric_cell parse_number cp = NaN
             ∨ to_numeric_cell parse_number cs = NaN → b = false)
          ∧ (cp = CNum 100 → cs = CNum 1000000 →
               (cm = CNum 104000000 → b = false) ∧
               (cm = CNum 110000000 → b = true)))
  ∧ (columns df !! "market_cap" = None ∨ columns df !! "current_price" = None
       ∨ columns df !! "circulating_supply" = None →
     ∀ i, i < nrows df →
       flag_at (flag_invalid_market_cap parse_number df)
         HAS_INVALID_MARKET_CAP i = Some false).
Proof.
  intros Hshape. split.
  - intros mcs ps ss Hm Hp Hs i cm cp cs Him Hip His _ _ mc p s.
    exists (market_cap_invalid mc p s). split; [|split; [|split; [|split]]].
    + by eapply flag_invalid_market_cap_present.
    + unfold market_cap_invalid, TOLERANCE.
      rewrite !andb_true_iff, orb_true_iff, andb_true_iff. tauto.
    + intros m a c Emc Ep Es Hlo Hhi. rewrite Emc, Ep, Es.
      assert (0 < m)%Q as Hpos by (pose proof (pow2_pos (-900)); lra).
      unfold market_cap_invalid, fgt. cbn [notna andb fle flt].
      unfold Qlt_bool.
      assert (Qle_bool m 0 = false) as ->.
      { apply not_true_is_false. intros H%Qle_bool_iff. lra. }
      cbn [orb negb andb]. split; intros Hrel.
      * by apply relative_error_above.
      * by apply relative_error_below.
    + unfold market_cap_invalid. subst mc p s.
      intros [->|[->| ->]]; cbn [float64 notna andb]; [done| |].
      * by rewrite andb_false_r.
      * by rewrite andb_false_r.
    + subst mc p s. intros -> ->. cbn [to_numeric_cell].
      split; intros ->; vm_compute; reflexivity.
  - intros Habs i Hi. rewrite (flag_invalid_market_cap_absent _ Habs).
    unfold flag_at. rewrite set_column_lookup, decide_True by done. simpl.
    by rewrite lookup_replicate_2.
Qed.

End MarketCap.

(** C1, as stated, fails at the edge of the tolerance.  For market_cap 3,
    price 0.63 and supply 5 the three values are numbers, the market cap
    is positive and |3 - 0.63 * 5| / 3 is at least 0.05, on paper as well
    as with 0.63 read as the float64 nearest to it; yet the record is not
    flagged: the float64 product lies just below 3.15 and the float64
    relative error just below the float64 value of 0.05. *)
Lemma flag_invalid_market_cap_tolerance_edge :
  cell_at tolerance_edge_batch "market_cap" 0 = Some (CNum 3)
  ∧ cell_at tolerance_edge_batch "current_price" 0 = Some (CNum (63 # 100))
  ∧ cell_at tolerance_edge_batch "circulating_supply" 0 = Some (CNum 5)
  ∧ (0 < 3 ∧ 5 # 100 <= Qabs (3 - (63 # 100) * 5) / 3)%Q
  ∧ float64 (Fin (63 # 100)) = Fin (5674535530486825 # 9007199254740992)
  ∧ (5 # 100 <= Qabs (3 - (5674535530486825 # 9007199254740992) * 5) / 3)%Q
  ∧ fmul (float64 (Fin (63 # 100))) (Fin 5)
    = Fin (7093169413108531 # 2251799813685248)
  ∧ fdiv (fabs (fsub (Fin 3) (fmul (float64 (Fin (63 # 100))) (Fin 5)))) (Fin 3)
    = Fin (7205759403792789 # 144115188075855872)
  ∧ flag_at (flag_invalid_market_cap sample_parse_number tolerance_edge_batch)
      HAS_INVALID_MARKET_CAP 0 = Some false.
Proof.
  split; [reflexivity|]. split; [reflexivity|]. split; [reflexivity|].
  split; [split; [reflexivity|by apply Qle_bool_iff]|].
  split; [vm_compute; reflexivity|].
  split; [by apply Qle_bool_iff|].
  split; [vm_compute; reflexivity|].
  split; vm_compute; reflexivity.
Qed.

(** ** validate_schema *)

Lemma missing_fields_empty_iff (df : DataFrame) :
  (list_to_set REQUIRED_FIELDS ∖ dom (columns df) : gset string) = ∅ ↔
  ∀ f, f ∈ REQUIRED_FIELDS → is_Some (columns df !! f).
Proof.
  split.
  - intros He f Hf. destruct (columns df !! f) as [col|] eqn:E; [by eexists|].
    exfalso.
    assert (f ∈ (list_to_set REQUIRED_FIELDS ∖ dom (columns df) : gset string)) as Hin.
    { apply elem_of_difference. split; [by apply elem_of_list_to_set|].
      by apply not_elem_of_dom. }
    rewrite He in Hin. by apply not_elem_of_empty in Hin.
  - intros Hall. apply elem_of_equiv_empty_L. intros x [Hx Hnd]%elem_of_difference.
    apply elem_of_list_to_set in Hx. apply Hnd, elem_of_dom. by apply Hall.
Qed.

(** C3, as amended: [validate_schema] answers EMPTY_DATA for [None],
    INVALID_TYPE for an object that is not a DataFrame, EMPTY_DATA for a
    frame with zero records or zero columns, MISSING_REQUIRED_FIELDS when
    one of the 7 required names is absent from a non-empty column set, and
    VALID otherwise, in that order; only the presence of the columns is
    looked at, never the cells. *)
Theorem validate_schema_spec (o : PyObject) :
  (o = PyNone → validate_schema o = EMPTY_DATA)
  ∧ (∀ repr, o = PyOther repr → validate_schema o = INVALID_TYPE)
  ∧ (∀ df, o = PyDataFrame df →
       (nrows df = 0 ∨ columns df = ∅ → validate_schema o = EMPTY_DATA)
       ∧ (nrows df ≠ 0 → columns df ≠ ∅ →
          (∃ f, f ∈ REQUIRED_FIELDS ∧ columns df !! f = None) →
          validate_schema o = MISSING_REQUIRED_FIELDS)
       ∧ (nrows df ≠ 0 →
          (∀ f, f ∈ REQUIRED_FIELDS → is_Some (columns df !! f)) →
          validate_schema o = VALID)).
Proof.
  split; [by intros ->|]. split; [by intros repr ->|].
  intros df ->. unfold validate_schema, df_empty. repeat split.
  - intros [Hn|Hc].
    + by rewrite Hn.
    + rewrite (bool_decide_eq_true_2 _ Hc). by rewrite orb_true_r.
  - intros Hn Hc (f & Hf & Habs).
    apply Nat.eqb_neq in Hn. rewrite Hn. rewrite (bool_decide_eq_false_2 _ Hc). simpl.
    rewrite bool_decide_eq_true_2; [done|].
    intros He. rewrite missing_fields_empty_iff in He.
    destruct (He f Hf) as [col Hcol]. congruence.
  - intros Hn Hall.
    apply Nat.eqb_neq in Hn. rewrite Hn.
    assert (columns df ≠ ∅) as Hc.
    { intros He. destruct (Hall "id") as [col Hcol]; [set_solver|].
      rewrite He in Hcol. by rewrite lookup_empty in Hcol. }
    rewrite (bool_decide_eq_false_2 _ Hc). simpl.
    rewrite bool_decide_eq_false_2; [done|].
    intros Hne. apply Hne. by apply missing_fields_empty_iff.
Qed.

(** C3, as stated, fails on a batch of two records without any column:
    it has records and lacks required fields, yet the answer is
    EMPTY_DATA, not MISSING_REQUIRED_FIELDS. *)
Lemma validate_schema_fieldless_batch :
  ¬ (nrows fieldless_batch ≠ 0 →
     (∃ f, f ∈ REQUIRED_FIELDS ∧ columns fieldless_batch !! f = None) →
     validate_schema (PyDataFrame fieldless_batch) = MISSING_REQUIRED_FIELDS).
Proof.
  intros H.
  assert (validate_schema (PyDataFrame fieldless_batch) = EMPTY_DATA) as He
    by reflexivity.
  rewrite H in He; [done|done|].
  exists "id". split; [set_solver|done].
Qed.

(** ** generate_schema_error_report *)

(** C9: for every schema status the error report has status FAILED, stage
    "schema_validation", the status value as error, no validations, the
    summary {passed: [], failed: ["schema_validation"]}, and one of the
    three fixed messages, or "Unknown schema error" for VALID. *)
Theorem generate_schema_error_report_spec (status : SchemaValidationStatus) :
  let r := generate_schema_error_report status in
  schema_report_status r = FAILED
  ∧ schema_report_stage r = "schema_validation"
  ∧ schema_report_error r = schema_status_value status
  ∧ schema_report_validations r = []
  ∧ schema_report_summary r =
      {| schema_summary_passed := []; schema_summary_failed := ["schema_validation"] |}
  ∧ schema_report_error_message r =
      match status with
      | EMPTY_DATA => "DataFrame is empty or None"
      | INVALID_TYPE => "Input is not a valid DataFrame"
      | MISSING_REQUIRED_FIELDS => "Missing required fields"
      | VALID => "Unknown schema error"
      end
  ∧ schema_status_value status =
      match status with
      | EMPTY_DATA => "empty_data"
      | INVALID_TYPE => "invalid_type"
      | MISSING_REQUIRED_FIELDS => "missing_required_fields"
      | VALID => "valid"
      end.
Proof. by destruct status. Qed.

(** ** flag_missing_values *)

(** C2 fails for [flag_missing_values]: on the batch of
    [test_missing_price_column], which has only three of the required
    columns, the rule raises a KeyError instead of returning a flagged
    batch. *)
Theorem flag_missing_values_three_column_batch :
  flag_missing_values three_column_batch =
  Raise (KeyError ["current_price"; "market_cap"; "total_volume"; "circulating_supply"]).
Proof. reflexivity. Qed.

Lemma flag_missing_values_raises (df : DataFrame) (f : string) :
  f ∈ REQUIRED_FIELDS → columns df !! f = None →
  ∃ missing, flag_missing_values df = Raise (KeyError missing) ∧ f ∈ missing.
Proof.
  intros Hf Habs. unfold flag_missing_values, select_columns.
  set (df' := set_column df HAS_MISSING_VALUES (CBool false)).
  assert (f ∈ List.filter (λ c, negb (has_column df' c)) REQUIRED_FIELDS) as Hin.
  { apply list_elem_of_In, filter_In. split; [by apply list_elem_of_In|].
    unfold has_column, df'. rewrite set_column_lookup.
    rewrite decide_False.
    - rewrite Habs. by rewrite bool_decide_eq_false_2 by (by intros [? ?]).
    - intros <-. unfold REQUIRED_FIELDS in Hf.
      repeat (apply elem_of_cons in Hf as [Hf|Hf]; [discriminate Hf|]).
      by apply elem_of_nil in Hf. }
  destruct (List.filter _ REQUIRED_FIELDS) as [|m ms] eqn:E.
  - by apply elem_of_nil in Hin.
  - exists (m :: ms). done.
Qed.

(** ** Report builder: columns against records *)

Lemma as_mask_bools (flags : list bool) : as_mask (CBool <$> flags) = Ok flags.
Proof.
  induction flags as [|b flags IH]; [done|].
  rewrite fmap_cons. cbn [as_mask]. by rewrite IH.
Qed.

Lemma series_sum_cons b flags :
  series_sum (b :: flags) = if b then S (series_sum flags) else series_sum flags.
Proof. unfold series_sum. by destruct b. Qed.

Lemma series_sum_le flags : (series_sum flags ≤ length flags)%nat.
Proof.
  induction flags as [|b flags IH]; [done|].
  rewrite series_sum_cons. destruct b; simpl; lia.
Qed.

Lemma series_sum_count flags :
  series_sum flags = length (filter (λ b, b = true) flags).
Proof.
  induction flags as [|b flags IH]; [done|].
  rewrite series_sum_cons. destruct b.
  - rewrite filter_cons_True by done. simpl. by rewrite IH.
  - by rewrite filter_cons_False by done.
Qed.

Lemma filter_none {A} (f : A → bool) (l : list A) :
  (∀ x, x ∈ l → f x = false) → List.filter f l = [].
Proof.
  induction l as [|x l IH]; intros H; [done|]. simpl.
  rewrite (H x) by apply list_elem_of_here.
  apply IH. intros y Hy. apply H. by apply list_elem_of_further.
Qed.

Lemma select_columns_present df labels :
  (∀ c, c ∈ labels → is_Some (columns df !! c)) →
  select_columns df labels = Ok ((λ c, (c, default [] (columns df !! c))) <$> labels).
Proof.
  intros H. unfold select_columns. rewrite filter_none; [done|].
  intros c Hc. unfold has_column. by rewrite bool_decide_eq_true_2 by auto.
Qed.

Lemma to_dict_records_S n cols :
  to_dict_records (S n) cols = heads cols :: to_dict_records n (tails cols).
Proof.
  unfold to_dict_records, heads, tails. simpl. f_equal.
  rewrite <- fmap_S_seq, <- list_fmap_compose.
  apply list_fmap_ext. intros _ i _. simpl.
  rewrite <- list_fmap_compose. apply list_fmap_ext. intros _ [c l] _. simpl.
  by destruct l.
Qed.

Lemma heads_boolean_index_true mask cols :
  Forall (λ c : string * list cell, c.2 ≠ []) cols →
  heads ((λ c : string * list cell, (c.1, boolean_index (true :: mask) c.2)) <$> cols)
  = heads cols.
Proof.
  intros Hne. unfold heads. rewrite <- list_fmap_compose.
  apply Forall_fmap_ext_1. eapply Forall_impl; [exact Hne|].
  intros [c l] Hl; simpl in *. by destruct l.
Qed.

Lemma tails_boolean_index_true mask cols :
  Forall (λ c : string * list cell, c.2 ≠ []) cols →
  tails ((λ c : string * list cell, (c.1, boolean_index (true :: mask) c.2)) <$> cols)
  = (λ c : string * list cell, (c.1, boolean_index mask c.2)) <$> tails cols.
Proof.
  intros Hne. unfold tails. rewrite <- !list_fmap_compose.
  apply Forall_fmap_ext_1. eapply Forall_impl; [exact Hne|].
  intros [c l] Hl; simpl in *. by destruct l.
Qed.

Lemma boolean_index_false_tails mask cols :
  (λ c : string * list cell, (c.1, boolean_index (false :: mask) c.2)) <$> cols
  = (λ c : string * list cell, (c.1, boolean_index mask c.2)) <$> tails cols.
Proof.
  unfold tails. rewrite <- !list_fmap_compose.
  apply list_fmap_ext. intros _ [c l] _. simpl.
  destruct l; [by destruct mask|done].
Qed.

Lemma Forall_length_tails n cols :
  Forall (λ c : string * list cell, length c.2 = S n) cols →
  Forall (λ c : string * list cell, length c.2 = n) (tails cols)
  ∧ Forall (λ c : string * list cell, c.2 ≠ []) cols.
Proof.
  intros H. split.
  - unfold tails. apply Forall_fmap. eapply Forall_impl; [exact H|].
    intros [c l] Hl; simpl in *. destruct l; simpl in *; lia.
  - eapply Forall_impl; [exact H|]. intros [c l] Hl; simpl in *. by destruct l.
Qed.

(** Filtering the columns by a mask and then reading records gives the
    records of the rows where the mask holds. *)
Lemma to_dict_records_boolean_index mask : ∀ cols,
  Forall (λ c : string * list cell, length c.2 = length mask) cols →
  to_dict_records (series_sum mask)
    ((λ c : string * list cell, (c.1, boolean_index mask c.2)) <$> cols)
  = boolean_index mask (to_dict_records (length mask) cols).
Proof.
  induction mask as [|m mask IH]; intros cols Hlen; [done|].
  simpl in Hlen. destruct (Forall_length_tails _ _ Hlen) as [Ht Hne].
  rewrite series_sum_cons. simpl length. rewrite (to_dict_records_S (length mask)).
  destruct m.
  - rewrite to_dict_records_S.
    rewrite heads_boolean_index_true, tails_boolean_index_true by done.
    by rewrite IH.
  - rewrite boolean_index_false_tails. by rewrite IH.
Qed.

(** [.head(m)] keeps the first [m] records. *)
Lemma to_dict_records_head m : ∀ k cols,
  Forall (λ c : string * list cell, length c.2 = k) cols →
  to_dict_records (min m k) (head m cols) = take m (to_dict_records k cols).
Proof.
  induction m as [|m IH]; intros k cols Hlen; [done|].
  destruct k as [|k]; [done|].
  destruct (Forall_length_tails _ _ Hlen) as [Ht Hne].
  simpl min. rewrite !to_dict_records_S. simpl. f_equal.
  - unfold heads, head. rewrite <- list_fmap_compose.
    apply Forall_fmap_ext_1. eapply Forall_impl; [exact Hne|].
    intros [c l] Hl; simpl in *. by destruct l.
  - rewrite <- (IH k (tails cols) Ht). f_equal.
    unfold tails, head. rewrite <- !list_fmap_compose.
    apply list_fmap_ext. intros _ [c l] _. simpl.
    destruct l; [by destruct m|done].
Qed.

Lemma length_boolean_index {A} (flags : list bool) : ∀ col : list A,
  length col = length flags → length (boolean_index flags col) = series_sum flags.
Proof.
  induction flags as [|b flags IH]; intros [|x col] Hlen; try done.
  rewrite series_sum_cons. simpl in *. destruct b; simpl; rewrite IH; lia.
Qed.

(** ** percentage *)

Lemma percentage_returns (k n : nat) :
  (0 < k ≤ n)%nat →
  ∃ y pct,
    round64 (inject_Z (Z.of_nat k) / inject_Z (Z.of_nat n)) = Fin y
    ∧ round64 (y * 100) = Fin pct
    ∧ percentage k n = Ok pct
    ∧ (0 <= y <= 1)%Q ∧ (0 <= pct <= 100)%Q.
Proof.
  intros [Hk Hkn].
  assert (0 < inject_Z (Z.of_nat k))%Q as HK by (rewrite <- (Zlt_Qlt 0); lia).
  assert (0 < inject_Z (Z.of_nat n))%Q as HN by (rewrite <- (Zlt_Qlt 0); lia).
  assert (inject_Z (Z.of_nat k) <= inject_Z (Z.of_nat n))%Q as HKN
    by (rewrite <- Zle_Qle; lia).
  assert (0 <= inject_Z (Z.of_nat k) / inject_Z (Z.of_nat n))%Q as Hq0.
  { apply Qle_shift_div_l; [done|]. rewrite Qmult_0_l. by apply Qlt_le_weak. }
  assert (inject_Z (Z.of_nat k) / inject_Z (Z.of_nat n) <= 1)%Q as Hq1.
  { apply Qle_shift_div_r; [done|]. by rewrite Qmult_1_l. }
  set (K := inject_Z (Z.of_nat k)) in *. set (N := inject_Z (Z.of_nat n)) in *.
  destruct (round64_le (K / N) 1 0) as (y & Hy & Hy0 & Hy1).
  { exact Hq0. }
  { change (inject_Z 1 * 2 ^ 0)%Q with (1 * 1)%Q. lra. }
  { reflexivity. }
  { lia. }
  { apply Qlt_alt. vm_compute. reflexivity. }
  change (inject_Z 1 * 2 ^ 0)%Q with (1 * 1)%Q in Hy1.
  destruct (round64_le (y * 100) 25 2) as (pct & Hpct & Hp0 & Hp1).
  { lra. }
  { change (inject_Z 25 * 2 ^ 2)%Q with (25 * 4)%Q. lra. }
  { reflexivity. }
  { lia. }
  { apply Qlt_alt. vm_compute. reflexivity. }
  change (inject_Z 25 * 2 ^ 2)%Q with (25 * 4)%Q in Hp1.
  exists y, pct. split; [done|]. split; [done|]. split; [|split; split; lra].
  unfold percentage. rewrite (proj2 (Nat.eqb_neq n 0)) by lia.
  fold K N. cbn [fdiv].
  assert (Qeq_bool N 0 = false) as ->.
  { apply not_true_is_false. intros H%Qeq_bool_iff. lra. }
  rewrite Hy. cbn [fmul]. by rewrite Hpct.
Qed.

(** The binary64 percentage against the exact one. *)
Lemma percentage_error (k n : nat) (pct : Q) :
  (0 < k ≤ n)%nat → (Z.of_nat n < 2 ^ 32)%Z →
  percentage k n = Ok pct →
  (Qabs (pct - 100 * inject_Z (Z.of_nat k) / inject_Z (Z.of_nat n))
   <= 201 * 2 ^ (-53))%Q.
Proof.
  intros Hk Hn Hpct.
  destruct (percentage_returns k n Hk) as (y & pct' & Hy & Hp & Hpct' & [Hy0 Hy1] & _).
  rewrite Hpct in Hpct'. injection Hpct' as <-.
  destruct Hk as [Hk Hkn].
  assert (1 <= inject_Z (Z.of_nat k))%Q as HK by (rewrite <- (Zle_Qle 1); lia).
  assert (0 < inject_Z (Z.of_nat n))%Q as HN by (rewrite <- (Zlt_Qlt 0); lia).
  assert (inject_Z (Z.of_nat k) <= inject_Z (Z.of_nat n))%Q as HKN
    by (rewrite <- Zle_Qle; lia).
  assert (inject_Z (Z.of_nat n) < 2 ^ 32)%Q as HN32.
  { rewrite <- (pow2_inject 32) by lia. by rewrite <- Zlt_Qlt. }
  set (K := inject_Z (Z.of_nat k)) in *. set (N := inject_Z (Z.of_nat n)) in *.
  clearbody K N.
  assert (100 * K / N == 100 * (K / N))%Q as -> by (unfold Qdiv; ring).
  assert (K / N <= 1)%Q as Hq1 by (apply Qle_shift_div_r; [done|]; lra).
  assert (2 ^ (-32) < K / N)%Q as Hq0.
  { apply Qlt_shift_div_l; [done|].
    assert (2 ^ (-32) * 2 ^ 32 == 1)%Q as H1 by reflexivity.
    pose proof (pow2_pos (-32)) as P.
    set (a := (2 ^ (-32))%Q) in *. set (b := (2 ^ 32)%Q) in *. clearbody a b. nra. }
  set (q := (K / N)%Q) in *. clearbody q.
  assert (2 ^ (-1022) <= 2 ^ (-33))%Q as Hlow by (by apply Qle_bool_iff).
  assert (2 ^ (-32) == 2 * 2 ^ (-33))%Q as H33 by reflexivity.
  assert (100 < 2 ^ 1023)%Q as Hbig by (by apply Qlt_alt).
  assert (0 < 2 ^ (-53))%Q as Hu0 by apply pow2_pos.
  assert (100 * 2 ^ (-53) <= 1)%Q as Hu1 by (by apply Qle_bool_iff).
  pose proof (pow2_pos (-33)) as P33.
  assert (0 < q)%Q as Hqpos.
  { pose proof (pow2_pos (-32)). eapply Qlt_trans; [|exact Hq0]. done. }
  assert (∀ l h g T : Q, l <= h → g == 2 * h → 0 < h → g < q → 100 < T →
            l <= q ∧ q < T)%Q as Hrange1 by (intros; split; lra).
  destruct (Hrange1 _ _ _ _ Hlow H33 P33 Hq0 Hbig) as [G1 G2].
  rewrite round64_positive in Hy by done.
  destruct (round64_pos_error q G1 G2) as (y' & Hy' & Ey).
  rewrite Hy in Hy'. injection Hy' as <-.
  apply Qabs_Qle_condition in Ey as [Ey1 Ey2].
  assert (∀ l h g u T : Q, l <= h → g == 2 * h → 0 < h → g < q → 100 < T →
            0 < u → 100 * u <= 1 → - (q * u) <= y - q →
            l <= y * 100 ∧ y * 100 < T ∧ 0 < y * 100)%Q as Hrange2.
  { intros l h g u T ? ? ? ? ? ? ? ?.
    assert (q * u <= q * (1 # 100))%Q by nra. repeat split; nra. }
  destruct (Hrange2 _ _ _ _ _ Hlow H33 P33 Hq0 Hbig Hu0 Hu1 Ey1) as (G3 & G4 & G5).
  rewrite round64_positive in Hp by done.
  destruct (round64_pos_error (y * 100) G3 G4) as (p' & Hp' & Ep).
  rewrite Hp in Hp'. injection Hp' as <-.
  apply Qabs_Qle_condition in Ep as [Ep1 Ep2].
  clear Hrange1 Hrange2 G1 G2 G3 G4 Hlow H33 Hbig P33 Hq0 Hy Hp.
  set (u := (2 ^ (-53))%Q) in *. clearbody u.
  assert (y * u <= u)%Q as Hyu by nra.
  assert (q * u <= u)%Q as Hqu by nra.
  assert (0 <= q * u)%Q as Hqu0 by nra.
  assert (0 <= y * u)%Q as Hyu0 by nra.
  apply Qabs_Qle_condition. split; nra.
Qed.

(** Rounding the binary64 percentage to two decimals gives a two-decimal
    value nearest to the exact percentage. *)
Lemma py_round2_percentage_near (k n : nat) (pct : Q) :
  (0 < k ≤ n)%nat → (Z.of_nat n < 2 ^ 32)%Z →
  percentage k n = Ok pct →
  (Qabs (100 * inject_Z (Z.of_nat k) / inject_Z (Z.of_nat n) - py_round2 pct)
   <= 1 # 200)%Q.
Proof.
  intros Hk Hn Hpct.
  pose proof (percentage_error k n pct Hk Hn Hpct) as Herr.
  destruct Hk as [Hk Hkn].
  pose proof (round_half_even_near (pct * 100)) as Hnear.
  unfold py_round2. rewrite (Qmake_Qdiv (round_half_even (pct * 100)) 100).
  set (m := round_half_even (pct * 100)) in *. clearbody m.
  change (inject_Z (Z.pos 100)) with 100%Q.
  set (D := (m * Z.of_nat n - 10000 * Z.of_nat k)%Z).
  assert (0 < inject_Z (Z.of_nat n))%Q as HN by (rewrite <- (Zlt_Qlt 0); lia).
  assert (inject_Z (Z.of_nat n) < 2 ^ 32)%Q as HN32.
  { rewrite <- (pow2_inject 32) by lia. by rewrite <- Zlt_Qlt. }
  assert (inject_Z D
          == inject_Z m * inject_Z (Z.of_nat n) - 10000 * inject_Z (Z.of_nat k))%Q
    as HD.
  { unfold D. unfold Z.sub. by rewrite inject_Z_plus, inject_Z_opp, !inject_Z_mult. }
  assert (201 * 2 ^ (-53) * 100 * 2 ^ 32 <= 1 # 4)%Q as Hsmall
    by (by apply Qle_bool_iff).
  assert (0 < 2 ^ (-53))%Q as Hu0 by apply pow2_pos.
  set (K := inject_Z (Z.of_nat k)) in *. set (N := inject_Z (Z.of_nat n)) in *.
  set (u := (2 ^ (-53))%Q) in *. set (B := (2 ^ 32)%Q) in *.
  apply Qabs_Qle_condition in Herr as [He1 He2].
  apply Qabs_Qle_condition in Hnear as [Hn1 Hn2].
  assert (100 * K / N == 100 * K * / N)%Q as HKN by (unfold Qdiv; ring).
  assert (N * / N == 1)%Q as Hinv.
  { apply Qmult_inv_r. intros H. rewrite H in HN. by apply Qlt_irrefl in HN. }
  assert (0 < / N)%Q as HiN by (by apply Qinv_lt_0_compat).
  (* |m - 10000 K / N| <= 1/2 + delta *)
  assert (2 * Z.abs D ≤ Z.of_nat n)%Z as HDn.
  { destruct (Z_le_gt_dec (2 * Z.abs D) (Z.of_nat n)) as [|Hgt]; [done|]. exfalso.
    assert (inject_Z (Z.of_nat n + 1) <= inject_Z (2 * Z.abs D))%Q as Hq
      by (rewrite <- Zle_Qle; lia).
    rewrite inject_Z_plus, inject_Z_mult in Hq.
    change (inject_Z 1) with 1%Q in Hq. change (inject_Z 2) with 2%Q in Hq.
    fold N in Hq.
    assert (inject_Z (Z.abs D) == Qabs (inject_Z D))%Q as Habs.
    { unfold Qabs, inject_Z. reflexivity. }
    rewrite Habs in Hq.
    assert (Qabs (inject_Z D) <= N * (1 # 2) + (1 # 4))%Q as Hub.
    { apply Qabs_Qle_condition. rewrite HD.
      rewrite HKN in He1, He2.
      set (iN := (/ N)%Q) in *. set (M := inject_Z m) in *.
      clearbody K N u B iN M.
      assert (u * N <= u * B)%Q as H1 by nra.
      assert (0 <= u * N)%Q as H0 by nra.
      assert (pct * N - 100 * K <= 201 * u * N)%Q as Ha.
      { assert (pct * N - 100 * K == (pct - 100 * K * iN) * N)%Q as ->.
        { transitivity (pct * N - 100 * K * (N * iN))%Q; [rewrite Hinv; ring|ring]. }
        nra. }
      assert (- (201 * u * N) <= pct * N - 100 * K)%Q as Hb.
      { assert (pct * N - 100 * K == (pct - 100 * K * iN) * N)%Q as ->.
        { transitivity (pct * N - 100 * K * (N * iN))%Q; [rewrite Hinv; ring|ring]. }
        nra. }
      split; nra. }
    set (A := Qabs (inject_Z D)) in *. clearbody A N. lra. }
  assert (Qabs (inject_Z D) <= N * (1 # 2))%Q as HDq.
  { assert (inject_Z (2 * Z.abs D) <= inject_Z (Z.of_nat n))%Q as Hq
      by (by rewrite <- Zle_Qle).
    rewrite inject_Z_mult in Hq. change (inject_Z 2) with 2%Q in Hq. fold N in Hq.
    assert (inject_Z (Z.abs D) == Qabs (inject_Z D))%Q as Habs by reflexivity.
    rewrite Habs in Hq. set (A := Qabs (inject_Z D)) in *. clearbody A N. lra. }
  apply Qabs_Qle_condition in HDq as [Hd1 Hd2]. rewrite HD in Hd1, Hd2.
  apply Qabs_Qle_condition. rewrite HKN.
  set (iN := (/ N)%Q) in *. set (M := inject_Z m) in *.
  clearbody K N u B iN M.
  assert (M / 100 == M * (1 # 100))%Q as -> by (unfold Qdiv; reflexivity).
  assert (M * N - 10000 * K == (M - 10000 * K * iN) * N)%Q as HE.
  { transitivity (M * N - 10000 * K * (N * iN))%Q; [rewrite Hinv; ring|ring]. }
  rewrite HE in Hd1, Hd2.
  assert ((M - 10000 * K * iN) <= 1 # 2)%Q as Hx1.
  { apply Qnot_lt_le. intros Hc.
    assert ((1 # 2) * N < (M - 10000 * K * iN) * N)%Q by nra. lra. }
  assert (- (1 # 2) <= (M - 10000 * K * iN))%Q as Hx2.
  { apply Qnot_lt_le. intros Hc.
    assert ((M - 10000 * K * iN) * N < - (1 # 2) * N)%Q by nra. lra. }
  split; lra.
Qed.

(** ** _generate_flag_report *)

Lemma result_bind_Ok {A B} (a : A) (k : A → result B) : (Ok a ≫= k) = k a.
Proof. reflexivity. Qed.

Lemma generate_flag_report_skipped df flag name ex :
  columns df !! flag = None →
  _generate_flag_report df flag name ex = Ok skipped_item.
Proof. intros H. unfold _generate_flag_report. by rewrite H. Qed.

Lemma generate_flag_report_passed df flag name ex flags :
  columns df !! flag = Some (CBool <$> flags) →
  series_sum flags = 0 →
  _generate_flag_report df flag name ex = Ok (passed_item (nrows df)).
Proof.
  intros H H0. unfold _generate_flag_report.
  rewrite H, as_mask_bools, result_bind_Ok. cbv zeta. by rewrite H0.
Qed.

Lemma selected_filter_rows df flags (ex : list string) :
  (λ c, (c, default [] (columns (filter_rows df flags) !! c))) <$> ex =
  (λ c : string * list cell, (c.1, boolean_index flags c.2)) <$>
    ((λ c, (c, default [] (columns df !! c))) <$> ex).
Proof.
  rewrite <- list_fmap_compose. apply list_fmap_ext. intros _ c _. simpl.
  rewrite lookup_fmap. destruct (columns df !! c); simpl; [done|].
  by destruct flags.
Qed.

Lemma project_rows_records df (ex : list string) :
  to_dict_records (nrows df) ((λ c, (c, default [] (columns df !! c))) <$> ex)
  = project_rows df ex.
Proof.
  unfold to_dict_records, project_rows. apply list_fmap_ext. intros _ i _.
  rewrite <- list_fmap_compose. apply list_fmap_ext. intros _ c _. simpl.
  unfold cell_at. by destruct (columns df !! c).
Qed.

Lemma generate_flag_report_failed df flag name (ex : list string) flags :
  table_shaped df →
  columns df !! flag = Some (CBool <$> flags) →
  series_sum flags ≠ 0 →
  ex ≠ [] →
  (∀ c, c ∈ ex → is_Some (columns df !! c)) →
  ∃ pct,
    percentage (series_sum flags) (nrows df) = Ok pct
    ∧ (0 <= pct <= 100)%Q
    ∧ _generate_flag_report df flag name ex =
      Ok (failed_item (nrows df) (series_sum flags) (py_round2 pct)
            (Some (take 5 (boolean_index flags (project_rows df ex))))).
Proof.
  intros Hshape Hflag Hsum Hex Hpresent.
  assert (length flags = nrows df) as Hlen.
  { rewrite <- (Hshape _ _ Hflag). by rewrite length_fmap. }
  pose proof (series_sum_le flags) as Hle.
  destruct (percentage_returns (series_sum flags) (nrows df))
    as (y & pct & _ & _ & Hpct & _ & Hbounds); [lia|].
  exists pct. split; [exact Hpct|]. split; [exact Hbounds|].
  unfold _generate_flag_report. rewrite Hflag, as_mask_bools, result_bind_Ok.
  cbv zeta. rewrite (proj2 (Nat.eqb_neq _ _) Hsum).
  rewrite Hpct, result_bind_Ok.
  destruct ex as [|e ex']; [done|]. set (ex := e :: ex') in *.
  rewrite select_columns_present.
  2:{ intros c Hc. unfold filter_rows. cbn [columns].
      rewrite lookup_fmap. apply fmap_is_Some. by apply Hpresent. }
  rewrite result_bind_Ok. cbv zeta. f_equal. f_equal. f_equal.
  set (sel := (λ c, (c, default [] (columns df !! c))) <$> ex).
  assert (Forall (λ c : string * list cell, length c.2 = length flags) sel) as Hsel.
  { unfold sel. apply Forall_fmap, Forall_forall. intros c Hc. simpl.
    destruct (Hpresent c Hc) as [col Hcol]. rewrite Hcol. simpl.
    rewrite Hlen. by eapply Hshape. }
  rewrite (proj2 (Nat.eqb_neq (min 5 (series_sum flags)) 0)) by lia.
  unfold head at 1. rewrite !length_fmap.
  replace (length ex =? 0)%nat with false by done.
  cbn [orb].
  rewrite selected_filter_rows. fold sel.
  rewrite (to_dict_records_head 5 (series_sum flags)).
  - rewrite to_dict_records_boolean_index by done.
    rewrite Hlen. unfold sel. by rewrite project_rows_records.
  - apply Forall_fmap. eapply Forall_impl; [exact Hsel|].
    intros [c l] Hl. simpl in *. by apply length_boolean_index.
Qed.

Lemma project_rows_lookup df (ex : list string) i :
  i < nrows df →
  project_rows df ex !! i = Some ((λ c, (c, default CNA (cell_at df c i))) <$> ex).
Proof.
  intros Hi. unfold project_rows. rewrite list_lookup_fmap.
  by rewrite lookup_seq_lt.
Qed.

(** C4: for each of the five validations, the item report of a
    table-shaped batch is SKIPPED with reason "validation_not_run" when the
    flag column is absent; PASSED with failed_count 0 when it is present
    and holds no true flag; and otherwise, the example columns being
    present, FAILED with the number of true flags as failed_count, and as
    examples the first five flagged records, in batch order, projected
    onto the validation's example fields.  The percentage is
    round(failed_count / total_rows * 100, 2) computed in binary64: the
    quotient and its product with 100 are each the nearest binary64
    value, and the product is rounded to two decimals.  It lies between 0
    and 100 and, for less than 2^32 rows, within 0.005 of the exact
    percentage (33.33 for 1 of 3); where the exact percentage lies halfway
    between two such values the rounding of the quotient decides
    (14.37 for 23 of 160). *)
Theorem generate_flag_report_spec (df : DataFrame) (r : Rule) :
  table_shaped df →
  let report :=
    _generate_flag_report df (flag_column_of r) (rule_name r) (example_columns_of r) in
  (columns df !! flag_column_of r = None →
     report = Ok {| item_status := SKIPPED; item_total_rows := None;
                    item_failed_count := None; item_failed_percentage := None;
                    item_examples := None;
                    item_reason := Some "validation_not_run" |})
  ∧ (∀ flags, columns df !! flag_column_of r = Some (CBool <$> flags) →
       series_sum flags = 0 →
       report = Ok {| item_status := PASSED; item_total_rows := Some (nrows df);
                      item_failed_count := Some 0; item_failed_percentage := None;
                      item_examples := None; item_reason := None |})
  ∧ (∀ flags, columns df !! flag_column_of r = Some (CBool <$> flags) →
       series_sum flags ≠ 0 →
       (∀ c, c ∈ example_columns_of r → is_Some (columns df !! c)) →
       ∃ pct,
         report = Ok {| item_status := FAILED; item_total_rows := Some (nrows df);
                        item_failed_count := Some (series_sum flags);
                        item_failed_percentage := Some pct;
                        item_examples :=
                          Some (take 5 (boolean_index flags
                                          (project_rows df (example_columns_of r))));
                        item_reason := None |}
         ∧ series_sum flags = length (filter (λ b, b = true) flags)
         ∧ (∃ quotient product,
              fdiv (Fin (inject_Z (Z.of_nat (series_sum flags))))
                   (Fin (inject_Z (Z.of_nat (nrows df)))) = Fin quotient
              ∧ fmul (Fin quotient) (Fin 100) = Fin product
              ∧ pct = py_round2 product)
         ∧ (0 <= pct <= 100)%Q
         ∧ ((Z.of_nat (nrows df) < 2 ^ 32)%Z →
              (Qabs (100 * inject_Z (Z.of_nat (series_sum flags))
                     / inject_Z (Z.of_nat (nrows df)) - pct) <= 1 # 200)%Q)
         ∧ (series_sum flags = 1 → nrows df = 3 → pct = 3333 # 100)
         ∧ (series_sum flags = 23 → nrows df = 160 → pct = 1437 # 100)).
Proof.
  intros Hshape report. subst report. split; [|split].
  - intros H. by apply generate_flag_report_skipped.
  - intros flags H H0. by eapply generate_flag_report_passed.
  - intros flags H Hsum Hpresent.
    assert (length flags = nrows df) as Hlen.
    { rewrite <- (Hshape _ _ H). by rewrite length_fmap. }
    pose proof (series_sum_le flags) as Hle.
    assert (0 < series_sum flags ≤ nrows df)%nat as Hk by lia.
    destruct (generate_flag_report_failed df (flag_column_of r) (rule_name r)
                (example_columns_of r) flags Hshape H Hsum)
      as (product & Hpct & _ & Hreport); [by destruct r|done|].
    destruct (percentage_returns _ _ Hk)
      as (quotient & product' & Hq & Hp & Hpct' & _ & Hbounds).
    rewrite Hpct in Hpct'. injection Hpct' as <-.
    exists (py_round2 product). split; [exact Hreport|].
    split; [apply series_sum_count|]. split; [|split; [|split; [|split]]].
    + exists quotient, product. split; [|split; [|done]].
      * cbn [fdiv].
        assert (Qeq_bool (inject_Z (Z.of_nat (nrows df))) 0 = false) as ->; [|done].
        apply not_true_is_false. intros E%Qeq_bool_iff.
        assert (0 < inject_Z (Z.of_nat (nrows df)))%Q as Hpos
          by (rewrite <- (Zlt_Qlt 0); lia).
        rewrite E in Hpos. by apply Qlt_irrefl in Hpos.
      * cbn [fmul]. exact Hp.
    + by apply py_round2_bounds.
    + intros Hn. by apply py_round2_percentage_near.
    + intros E1 E3. rewrite E1, E3 in Hpct. vm_compute in Hpct.
      injection Hpct as <-. vm_compute. reflexivity.
    + intros E23 E160. rewrite E23, E160 in Hpct. vm_compute in Hpct.
      injection Hpct as <-. vm_compute. reflexivity.
Qed.

(** C4, as stated, fails where the exact percentage lies halfway between
    two values of two decimals.  For 23 flagged records of 160 the exact
    percentage is 14.375 = 115/8 and its rounding to two decimals 14.38,
    as is 100 * 23 / 160 computed in that order in float64; the report
    holds 14.37, the rounding of the float64 value of 23 / 160 * 100,
    which is just below 14.375. *)
Lemma generate_flag_report_tie_23_of_160 :
  (∃ examples,
     _generate_flag_report twenty_three_of_160 HAS_DUPLICATE "duplicates"
       ["id"; "symbol"; "name"]
     = Ok {| item_status := FAILED; item_total_rows := Some 160%nat;
             item_failed_count := Some 23%nat;
             item_failed_percentage := Some (1437 # 100);
             item_examples := Some examples; item_reason := None |})
  ∧ (100 * 23 / 160 == 115 # 8)%Q
  ∧ py_round2 (100 * 23 / 160) = 1438 # 100
  ∧ fdiv (fmul (Fin 100) (Fin 23)) (Fin 160) = Fin (115 # 8)
  ∧ percentage 23 160 = Ok (8092405580431359 # 562949953421312)
  ∧ (8092405580431359 # 562949953421312 < 115 # 8)%Q.
Proof.
  split; [eexists; vm_compute; reflexivity|].
  split; [reflexivity|].
  split; [vm_compute; reflexivity|].
  split; [vm_compute; reflexivity|].
  split; [vm_compute; reflexivity|reflexivity].
Qed.

(** ** generate_validation_report *)

Lemma result_bind_Ok_inv {A B} (r : result A) (k : A → result B) (b : B) :
  (r ≫= k) = Ok b → ∃ a, r = Ok a ∧ k a = Ok b.
Proof. destruct r as [a|e]; [by exists a|done]. Qed.

Lemma names_with_cons st kv vs :
  names_with st (kv :: vs) =
  if decide (item_status kv.2 = st) then kv.1 :: names_with st vs
  else names_with st vs.
Proof.
  unfold names_with. case_decide.
  - by rewrite filter_cons_True.
  - by rewrite filter_cons_False.
Qed.

Lemma elem_of_names_with st vs name :
  name ∈ names_with st vs ↔ ∃ item, (name, item) ∈ vs ∧ item_status item = st.
Proof.
  unfold names_with. rewrite list_elem_of_fmap. split.
  - intros ([n item] & -> & [Hst Hin]%list_elem_of_filter). by exists item.
  - intros (item & Hin & Hst). exists (name, item). split; [done|].
    by apply list_elem_of_filter.
Qed.

Lemma NoDup_fst_unique {A B} (l : list (A * B)) k a b :
  NoDup (l.*1) → (k, a) ∈ l → (k, b) ∈ l → a = b.
Proof.
  induction l as [|[k' c] l IH]; intros Hnd Ha Hb.
  - by apply elem_of_nil in Ha.
  - rewrite fmap_cons in Hnd. apply NoDup_cons in Hnd as [Hk Hnd].
    apply elem_of_cons in Ha as [Ha|Ha]; apply elem_of_cons in Hb as [Hb|Hb].
    + congruence.
    + injection Ha as -> ->. exfalso. apply Hk.
      apply list_elem_of_fmap. by exists (k', b).
    + injection Hb as -> ->. exfalso. apply Hk.
      apply list_elem_of_fmap. by exists (k', a).
    + by apply IH.
Qed.

Lemma names_with_status st vs name item :
  NoDup (vs.*1) → (name, item) ∈ vs →
  (name ∈ names_with st vs ↔ item_status item = st).
Proof.
  intros Hnd Hin. rewrite elem_of_names_with. split.
  - intros (item' & Hin' & Hst). by rewrite (NoDup_fst_unique _ _ _ _ Hnd Hin Hin').
  - intros Hst. by exists item.
Qed.

Lemma foldl_update_summary vs : ∀ s0,
  let s := foldl update_summary s0 vs in
  summary_total s = summary_total s0
  ∧ summary_executed s =
      summary_executed s0 + length (names_with PASSED vs) + length (names_with FAILED vs)
  ∧ summary_passed s = (summary_passed s0 ++ names_with PASSED vs)%list
  ∧ summary_failed s = (summary_failed s0 ++ names_with FAILED vs)%list
  ∧ summary_skipped s = (summary_skipped s0 ++ names_with SKIPPED vs)%list.
Proof.
  induction vs as [|[name item] vs IH]; intros s0; simpl.
  - unfold names_with. simpl. rewrite !app_nil_r. repeat split; lia.
  - destruct (IH (update_summary s0 (name, item))) as (Ht & He & Hp & Hf & Hs).
    rewrite Ht, He, Hp, Hf, Hs. rewrite !names_with_cons. unfold update_summary.
    simpl. destruct (item_status item); simpl;
      rewrite <- ?app_assoc; simpl; repeat split; lia.
Qed.

Lemma example_columns_required r c :
  c ∈ example_columns_of r → c ∈ REQUIRED_FIELDS.
Proof.
  intros H. apply list_elem_of_In. apply list_elem_of_In in H.
  destruct r; simpl in *; tauto.
Qed.

Lemma generate_flag_report_total df r :
  flagged_batch df →
  ∃ item, _generate_flag_report df (flag_column_of r) (rule_name r)
            (example_columns_of r) = Ok item.
Proof.
  intros (Hshape & Hreq & Hbool).
  destruct (columns df !! flag_column_of r) as [col|] eqn:Hcol.
  - destruct (Hbool _ _ Hcol) as [flags ->].
    destruct (decide (series_sum flags = 0)) as [H0|Hn].
    + eexists. by eapply generate_flag_report_passed.
    + destruct (generate_flag_report_failed df (flag_column_of r) (rule_name r)
                  (example_columns_of r) flags Hshape Hcol Hn)
        as (pct & _ & _ & Hitem).
      * by destruct r.
      * intros c Hc. by apply Hreq, (example_columns_required r).
      * eexists. exact Hitem.
  - eexists. by apply generate_flag_report_skipped.
Qed.

Lemma generate_validation_report_items df report :
  generate_validation_report df = Ok report →
  ∃ items : Rule → ValidationItemReport,
    (∀ r, _generate_flag_report df (flag_column_of r) (rule_name r)
            (example_columns_of r) = Ok (items r))
    ∧ report_validations report = (λ r, (rule_name r, items r)) <$> all_rules
    ∧ report_total_rows report = nrows df
    ∧ report_stage report = "data_validation"
    ∧ report_summary report =
        foldl update_summary
          {| summary_total := 5; summary_executed := 0; summary_passed := [];
             summary_failed := []; summary_skipped := [] |}
          (report_validations report)
    ∧ report_status report =
        match summary_failed (report_summary report) with
        | [] => PASSED
        | _ :: _ => FAILED
        end.
Proof.
  unfold generate_validation_report. intros H.
  apply result_bind_Ok_inv in H as (i1 & H1 & H).
  apply result_bind_Ok_inv in H as (i2 & H2 & H).
  apply result_bind_Ok_inv in H as (i3 & H3 & H).
  apply result_bind_Ok_inv in H as (i4 & H4 & H).
  apply result_bind_Ok_inv in H as (i5 & H5 & H).
  injection H as <-.
  exists (λ r, match r with
               | numeric_types => i1 | price_range => i2 | market_cap => i3
               | missing_values => i4 | duplicates => i5
               end).
  split; [by intros []|]. done.
Qed.

Lemma NoDup_rule_names (items : Rule → ValidationItemReport) :
  NoDup (((λ r, (rule_name r, items r)) <$> all_rules).*1).
Proof.
  simpl. repeat (apply NoDup_cons_2;
    [rewrite ?elem_of_cons, elem_of_nil; intros H; intuition discriminate|]).
  apply NoDup_nil_2.
Qed.

(** C5: the report of a flagged batch exists, and every report produced
    has summary.total = 5, summary.executed = the number of PASSED plus
    FAILED items, the names of the validations listed under passed, failed
    and skipped by item status (each name under exactly one), and overall
    status FAILED exactly when summary.failed is non-empty, PASSED
    otherwise. *)
Theorem generate_validation_report_spec (df : DataFrame) :
  (flagged_batch df → ∃ report, generate_validation_report df = Ok report)
  ∧ (∀ report, generate_validation_report df = Ok report →
       let s := report_summary report in
       let vs := report_validations report in
       summary_total s = 5
       ∧ vs.*1 = rule_name <$> all_rules
       ∧ (∀ r, ∃ item,
            _generate_flag_report df (flag_column_of r) (rule_name r)
              (example_columns_of r) = Ok item
            ∧ (rule_name r, item) ∈ vs)
       ∧ summary_executed s =
           length (names_with PASSED vs) + length (names_with FAILED vs)
       ∧ summary_passed s = names_with PASSED vs
       ∧ summary_failed s = names_with FAILED vs
       ∧ summary_skipped s = names_with SKIPPED vs
       ∧ (∀ name item, (name, item) ∈ vs →
            (name ∈ summary_passed s ↔ item_status item = PASSED)
            ∧ (name ∈ summary_failed s ↔ item_status item = FAILED)
            ∧ (name ∈ summary_skipped s ↔ item_status item = SKIPPED))
       ∧ (∀ r, let n := rule_name r in
            (n ∈ summary_passed s ∧ (n ∉ summary_failed s) ∧ (n ∉ summary_skipped s))
            ∨ ((n ∉ summary_passed s) ∧ n ∈ summary_failed s ∧ (n ∉ summary_skipped s))
            ∨ ((n ∉ summary_passed s) ∧ (n ∉ summary_failed s) ∧ n ∈ summary_skipped s))
       ∧ (report_status report = FAILED ↔ summary_failed s ≠ [])
       ∧ (summary_failed s = [] → report_status report = PASSED)
       ∧ ((∀ name item, (name, item) ∈ vs → item_status item ≠ FAILED) →
          report_status report = PASSED)
       ∧ ((∃ name item, (name, item) ∈ vs ∧ item_status item = FAILED) →
          report_status report = FAILED)).
Proof.
  split.
  - intros Hfb.
    destruct (generate_flag_report_total df numeric_types Hfb) as [i1 H1].
    destruct (generate_flag_report_total df price_range Hfb) as [i2 H2].
    destruct (generate_flag_report_total df market_cap Hfb) as [i3 H3].
    destruct (generate_flag_report_total df missing_values Hfb) as [i4 H4].
    destruct (generate_flag_report_total df duplicates Hfb) as [i5 H5].
    cbn [flag_column_of rule_name example_columns_of] in *.
    unfold generate_validation_report.
    rewrite H1, result_bind_Ok, H2, result_bind_Ok, H3, result_bind_Ok,
      H4, result_bind_Ok, H5, result_bind_Ok.
    by eexists.
  - intros report Hrep s vs.
    destruct (generate_validation_report_items _ _ Hrep)
      as (items & Hitems & Hvs & _ & _ & Hsum & Hstatus).
    fold vs in Hvs, Hsum. fold s in Hsum, Hstatus.
    pose proof (NoDup_rule_names items) as Hnd. rewrite <- Hvs in Hnd.
    destruct (foldl_update_summary vs
                {| summary_total := 5; summary_executed := 0; summary_passed := [];
                   summary_failed := []; summary_skipped := [] |})
      as (Ht & He & Hp & Hf & Hs).
    rewrite <- Hsum in Ht, He, Hp, Hf, Hs. simpl in Ht, He, Hp, Hf, Hs.
    assert (∀ name item, (name, item) ∈ vs →
              (name ∈ summary_passed s ↔ item_status item = PASSED)
              ∧ (name ∈ summary_failed s ↔ item_status item = FAILED)
              ∧ (name ∈ summary_skipped s ↔ item_status item = SKIPPED)) as Hiff.
    { intros name item Hin. rewrite Hp, Hf, Hs.
      repeat split; by apply names_with_status. }
    assert (∀ r, (rule_name r, items r) ∈ vs) as Hin.
    { intros r. rewrite Hvs. apply list_elem_of_fmap. exists r. split; [done|].
      destruct r; unfold all_rules; rewrite !elem_of_cons; tauto. }
    assert (report_status report = FAILED ↔ summary_failed s ≠ []) as Hst.
    { rewrite Hstatus. by destruct (summary_failed s). }
    split; [exact Ht|].
    split; [rewrite Hvs; by rewrite <- list_fmap_compose|].
    split; [intros r; exists (items r); by split|].
    split; [exact He|]. split; [exact Hp|]. split; [exact Hf|]. split; [exact Hs|].
    split; [exact Hiff|].
    split.
    { intros r n. subst n. destruct (Hiff _ _ (Hin r)) as (H1 & H2 & H3).
      rewrite H1, H2, H3. destruct (item_status (items r)); intuition discriminate. }
    split; [exact Hst|].
    split; [intros He'; rewrite Hstatus; by rewrite He'|].
    split.
    + intros Hno. rewrite Hstatus.
      destruct (summary_failed s) as [|n l] eqn:E; [done|]. exfalso.
      assert (n ∈ names_with FAILED vs) as Hn by (rewrite <- Hf; apply list_elem_of_here).
      apply elem_of_names_with in Hn as (item & Hitem & Hfail).
      by apply (Hno _ _ Hitem).
    + intros (name & item & Hitem & Hfail). apply Hst.
      apply (Hiff _ _ Hitem) in Hfail. intros E. rewrite E in Hfail.
      by apply elem_of_nil in Hfail.
Qed.

(** C10: on a batch without any of the five flag columns,
    [generate_validation_report] returns a report: status PASSED,
    total_rows the number of records, executed 0, the five names under
    skipped, and each item {status: SKIPPED, reason: "validation_not_run"}. *)
Theorem generate_validation_report_without_flags (df : DataFrame) :
  (∀ r, columns df !! flag_column_of r = None) →
  let skipped :=
    {| item_status := SKIPPED; item_total_rows := None; item_failed_count := None;
       item_failed_percentage := None; item_examples := None;
       item_reason := Some "validation_not_run" |} in
  generate_validation_report df =
  Ok {| report_status := PASSED;
        report_stage := "data_validation";
        report_total_rows := nrows df;
        report_validations :=
          [("numeric_types", skipped); ("price_range", skipped);
           ("market_cap", skipped); ("missing_values", skipped);
           ("duplicates", skipped)];
        report_summary :=
          {| summary_total := 5; summary_executed := 0;
             summary_passed := []; summary_failed := [];
             summary_skipped :=
               ["numeric_types"; "price_range"; "market_cap"; "missing_values";
                "duplicates"] |} |}.
Proof.
  intros Habs skipped. unfold generate_validation_report.
  pose proof (Habs numeric_types) as H1. pose proof (Habs price_range) as H2.
  pose proof (Habs market_cap) as H3. pose proof (Habs missing_values) as H4.
  pose proof (Habs duplicates) as H5.
  cbn [flag_column_of] in *.
  rewrite !generate_flag_report_skipped by done.
  reflexivity.
Qed.

(** ** The rules as column writers *)

Lemma flag_ne_reads r r' : flag_column_of r' ∉ reads r.
Proof.
  intros H. apply list_elem_of_In in H.
  destruct r, r'; simpl in H; intuition discriminate.
Qed.

Lemma flag_column_of_inj r r' : flag_column_of r = flag_column_of r' → r = r'.
Proof. by destruct r, r'. Qed.

Lemma numeric_field_step_frame parse_number df field c :
  c ≠ HAS_NON_NUMERIC_VALUE →
  nrows (numeric_field_step parse_number df field) = nrows df
  ∧ columns (numeric_field_step parse_number df field) !! c = columns df !! c.
Proof.
  intros Hc. unfold numeric_field_step.
  destruct (columns df !! field); [|done].
  split; [done|]. by apply loc_set_lookup_ne.
Qed.

Lemma numeric_fold_frame parse_number fields : ∀ df c,
  c ≠ HAS_NON_NUMERIC_VALUE →
  nrows (foldl (numeric_field_step parse_number) df fields) = nrows df
  ∧ columns (foldl (numeric_field_step parse_number) df fields) !! c = columns df !! c.
Proof.
  induction fields as [|f fields IH]; intros df c Hc; [done|]. simpl.
  destruct (IH (numeric_field_step parse_number df f) c Hc) as [-> ->].
  by apply numeric_field_step_frame.
Qed.

(** Each rule keeps the number of rows and every column but its own flag
    column. *)
Lemma apply_rule_frame parse_number r df df' :
  apply_rule parse_number r df = Ok df' →
  nrows df' = nrows df
  ∧ ∀ c, c ≠ flag_column_of r → columns df' !! c = columns df !! c.
Proof.
  destruct r; simpl; intros H.
  - injection H as <-. unfold flag_invalid_numeric_types. split.
    + by rewrite (proj1 (numeric_fold_frame parse_number _ _ "id" ltac:(done))).
    + intros c Hc. rewrite (proj2 (numeric_fold_frame parse_number _ _ c Hc)).
      by apply set_column_lookup_ne.
  - injection H as <-. unfold flag_abnormal_prices.
    destruct (columns (set_column df HAS_ABNORMAL_PRICE (CBool false)) !! "current_price");
      (split; [done|]); intros c Hc;
      rewrite ?loc_set_lookup_ne by done; by apply set_column_lookup_ne.
  - injection H as <-. unfold flag_invalid_market_cap.
    repeat (match goal with |- context [match ?x with _ => _ end] => destruct x end);
      (split; [done|]); intros c Hc;
      rewrite ?loc_set_lookup_ne by done; by apply set_column_lookup_ne.
  - unfold flag_missing_values in H.
    apply result_bind_Ok_inv in H as (required & _ & H). injection H as <-.
    split; [done|]. intros c Hc.
    rewrite loc_set_lookup_ne by done. by apply set_column_lookup_ne.
  - injection H as <-. unfold flag_duplicates.
    destruct (columns (set_column df HAS_DUPLICATE (CBool false)) !! "id");
      (split; [done|]); intros c Hc;
      rewrite ?loc_set_lookup_ne by done; by apply set_column_lookup_ne.
Qed.

Lemma apply_rule_raises parse_number r df e :
  apply_rule parse_number r df = Raise e → r = missing_values.
Proof. by destruct r. Qed.

Lemma init_then_mark_lookup df c v0 mask v :
  columns (loc_set (set_column df c v0) mask c v) !! c =
  Some (mask_assign mask v (replicate (nrows df) v0)).
Proof. rewrite init_then_mark. simpl. apply lookup_insert_eq. Qed.

Lemma set_column_lookup_eq df c v :
  columns (set_column df c v) !! c = Some (replicate (nrows df) v).
Proof. unfold set_column. simpl. apply lookup_insert_eq. Qed.

Lemma select_columns_agree df1 df2 labels :
  (∀ c, c ∈ labels → columns df1 !! c = columns df2 !! c) →
  select_columns df1 labels = select_columns df2 labels.
Proof.
  intros H. unfold select_columns.
  assert (List.filter (λ c, negb (has_column df1 c)) labels =
          List.filter (λ c, negb (has_column df2 c)) labels) as ->.
  { apply filter_ext_in. intros c Hc. unfold has_column.
    by rewrite (H c) by by apply list_elem_of_In. }
  destruct (List.filter _ labels); [|done]. f_equal.
  apply Forall_fmap_ext_1, Forall_forall. intros c Hc. by rewrite (H c Hc).
Qed.

Lemma numeric_fold_agree parse_number fields : ∀ d1 d2,
  nrows d1 = nrows d2 →
  columns d1 !! HAS_NON_NUMERIC_VALUE = columns d2 !! HAS_NON_NUMERIC_VALUE →
  (∀ c, c ∈ fields → columns d1 !! c = columns d2 !! c) →
  HAS_NON_NUMERIC_VALUE ∉ fields →
  columns (foldl (numeric_field_step parse_number) d1 fields) !! HAS_NON_NUMERIC_VALUE =
  columns (foldl (numeric_field_step parse_number) d2 fields) !! HAS_NON_NUMERIC_VALUE.
Proof.
  induction fields as [|f fields IH]; intros d1 d2 Hn HF Hagree Hnot; [done|].
  simpl. apply not_elem_of_cons in Hnot as [Hf Hnot].
  apply IH; [| | |done].
  - by rewrite !(proj1 (numeric_field_step_frame parse_number _ _ "id" ltac:(done))).
  - unfold numeric_field_step. rewrite (Hagree f) by apply list_elem_of_here.
    destruct (columns d2 !! f); [|done].
    unfold loc_set. simpl. by rewrite !lookup_alter_eq, HF.
  - intros c Hc.
    assert (c ≠ HAS_NON_NUMERIC_VALUE) as Hne by (intros ->; done).
    rewrite !(proj2 (numeric_field_step_frame parse_number _ _ c Hne)).
    apply Hagree. by apply list_elem_of_further.
Qed.

(** What a rule writes depends only on the number of rows and on the
    columns it looks up. *)
Lemma written_agree parse_number r df1 df2 :
  nrows df1 = nrows df2 →
  (∀ c, c ∈ reads r → columns df1 !! c = columns df2 !! c) →
  written parse_number r df1 = written parse_number r df2.
Proof.
  intros Hn Hagree. unfold written.
  destruct r; cbn [apply_rule reads flag_column_of] in Hagree |- *.
  - rewrite !result_bind_Ok. f_equal. unfold flag_invalid_numeric_types.
    apply numeric_fold_agree.
    + done.
    + by rewrite !set_column_lookup_eq, Hn.
    + intros c Hc.
      assert (HAS_NON_NUMERIC_VALUE ≠ c) as Hne.
      { intros <-. by apply (flag_ne_reads numeric_types numeric_types). }
      rewrite !set_column_lookup_ne by done. by apply Hagree.
    + apply (flag_ne_reads numeric_types numeric_types).
  - rewrite !result_bind_Ok. f_equal. unfold flag_abnormal_prices.
    rewrite !set_column_lookup_ne by done.
    rewrite (Hagree "current_price") by apply list_elem_of_here.
    destruct (columns df2 !! "current_price").
    + by rewrite !init_then_mark_lookup, Hn.
    + by rewrite !set_column_lookup_eq, Hn.
  - rewrite !result_bind_Ok. f_equal. unfold flag_invalid_market_cap.
    rewrite !set_column_lookup_ne by done.
    rewrite (Hagree "market_cap"), (Hagree "current_price"),
      (Hagree "circulating_supply")
      by (rewrite !elem_of_cons; tauto).
    destruct (columns df2 !! "market_cap"), (columns df2 !! "current_price"),
      (columns df2 !! "circulating_supply");
      try (by rewrite !set_column_lookup_eq, Hn).
    match goal with |- context [series_any ?m] => destruct (series_any m) end.
    + by rewrite !init_then_mark_lookup, Hn.
    + by rewrite !set_column_lookup_eq, Hn.
  - unfold flag_missing_values.
    rewrite (select_columns_agree (set_column df1 HAS_MISSING_VALUES (CBool false))
               (set_column df2 HAS_MISSING_VALUES (CBool false))).
    + destruct (select_columns _ REQUIRED_FIELDS) as [required|e]; [|done].
      rewrite !result_bind_Ok. f_equal.
      rewrite !init_then_mark_lookup. cbn [nrows set_column]. by rewrite Hn.
    + intros c Hc.
      assert (HAS_MISSING_VALUES ≠ c) as Hne.
      { intros <-. by apply (flag_ne_reads missing_values missing_values). }
      rewrite !set_column_lookup_ne by done. by apply Hagree.
  - rewrite !result_bind_Ok. f_equal. unfold flag_duplicates.
    rewrite !set_column_lookup_ne by done.
    rewrite (Hagree "id") by apply list_elem_of_here.
    destruct (columns df2 !! "id").
    + by rewrite !init_then_mark_lookup, Hn.
    + by rewrite !set_column_lookup_eq, Hn.
Qed.

Lemma result_bind_Raise {A B} (e : PyError) (k : A → result B) :
  (Raise e ≫= k) = Raise e.
Proof. reflexivity. Qed.

Lemma result_bind_assoc {A B C} (m : result A) (f : A → result B) (g : B → result C) :
  ((m ≫= f) ≫= g) = (m ≫= λ a, f a ≫= g).
Proof. by destruct m. Qed.

Lemma written_inv parse_number r df w :
  written parse_number r df = Ok w →
  ∃ df', apply_rule parse_number r df = Ok df' ∧ columns df' !! flag_column_of r = w.
Proof.
  unfold written. intros H. apply result_bind_Ok_inv in H as (df' & H1 & H2).
  exists df'. split; [done|]. by injection H2.
Qed.

Lemma written_after parse_number r1 r2 df d1 :
  r1 ≠ r2 →
  apply_rule parse_number r1 df = Ok d1 →
  written parse_number r2 d1 = written parse_number r2 df.
Proof.
  intros Hne H1. destruct (apply_rule_frame _ _ _ _ H1) as [Hn Hcols].
  apply written_agree; [done|]. intros c Hc. apply Hcols.
  intros ->. by apply (flag_ne_reads r2 r1).
Qed.

(** Two rules applied one after the other give the same batch, or the
    same fault, in either order. *)
Lemma apply_rule_commute parse_number r1 r2 df :
  (apply_rule parse_number r1 df ≫= apply_rule parse_number r2) =
  (apply_rule parse_number r2 df ≫= apply_rule parse_number r1).
Proof.
  destruct (decide (r1 = r2)) as [->|Hne]; [done|].
  assert (flag_column_of r1 ≠ flag_column_of r2) as Hfne
    by (intros H; by apply Hne, flag_column_of_inj).
  destruct (apply_rule parse_number r1 df) as [d1|e1] eqn:E1;
    destruct (apply_rule parse_number r2 df) as [d2|e2] eqn:E2;
    rewrite ?result_bind_Ok, ?result_bind_Raise.
  - pose proof (written_after parse_number r1 r2 df d1 Hne E1) as W2.
    pose proof (written_after parse_number r2 r1 df d2 (not_eq_sym Hne) E2) as W1.
    unfold written in W1 at 2. unfold written in W2 at 2.
    rewrite E1, result_bind_Ok in W1. rewrite E2, result_bind_Ok in W2.
    apply written_inv in W1 as (d21 & A21 & C21).
    apply written_inv in W2 as (d12 & A12 & C12).
    rewrite A12, A21. f_equal.
    destruct (apply_rule_frame _ _ _ _ E1) as [N1 F1].
    destruct (apply_rule_frame _ _ _ _ E2) as [N2 F2].
    destruct (apply_rule_frame _ _ _ _ A12) as [N12 F12].
    destruct (apply_rule_frame _ _ _ _ A21) as [N21 F21].
    apply DataFrame_eq; [congruence|]. apply map_eq. intros c.
    destruct (decide (c = flag_column_of r1)) as [->|H1];
      [|destruct (decide (c = flag_column_of r2)) as [->|H2]].
    + rewrite C21. by apply F12.
    + rewrite C12. symmetry. by apply F21.
    + rewrite F12, F21, F1, F2 by done. done.
  - pose proof (written_after parse_number r1 r2 df d1 Hne E1) as W2.
    unfold written in W2. rewrite E2, result_bind_Raise in W2.
    destruct (apply_rule parse_number r2 d1) as [d|e];
      [rewrite result_bind_Ok in W2; discriminate
      |rewrite result_bind_Raise in W2; by injection W2 as ->].
  - pose proof (written_after parse_number r2 r1 df d2 (not_eq_sym Hne) E2) as W1.
    unfold written in W1. rewrite E1, result_bind_Raise in W1.
    destruct (apply_rule parse_number r1 d2) as [d|e];
      [rewrite result_bind_Ok in W1; discriminate
      |rewrite result_bind_Raise in W1; by injection W1 as ->].
  - apply apply_rule_raises in E1, E2. congruence.
Qed.

Lemma run_rules_cons parse_number r rs df :
  run_rules parse_number (r :: rs) df =
  (apply_rule parse_number r df ≫= run_rules parse_number rs).
Proof. reflexivity. Qed.

(** The outcome of running a list of rules does not depend on their order. *)
Lemma run_rules_permutation parse_number (l l' : list Rule) :
  l ≡ₚ l' → ∀ df, run_rules parse_number l df = run_rules parse_number l' df.
Proof.
  induction 1 as [|x l l' _ IH|x y l|l l' l'' _ IH1 _ IH2]; intros df.
  - done.
  - rewrite !run_rules_cons.
    destruct (apply_rule parse_number x df) as [d|e]; [|done].
    rewrite !result_bind_Ok. apply IH.
  - rewrite !run_rules_cons.
    transitivity ((apply_rule parse_number y df ≫= apply_rule parse_number x)
                    ≫= run_rules parse_number l).
    + rewrite result_bind_assoc. by destruct (apply_rule parse_number y df).
    + rewrite apply_rule_commute, result_bind_assoc.
      by destruct (apply_rule parse_number x df).
  - by rewrite IH1.
Qed.

(** ** The flag column a rule writes *)

Lemma flag_series_init n : flag_series n (replicate n (CBool false)).
Proof.
  exists (replicate n false). split; [by rewrite fmap_replicate|].
  apply length_replicate.
Qed.

Lemma flag_series_mark n mask col :
  length mask = n → flag_series n col →
  flag_series n (mask_assign mask (CBool true) col).
Proof.
  intros Hm (flags & -> & Hlen). exists (zip_with orb mask flags). split.
  - unfold mask_assign. apply list_eq. intros i.
    rewrite list_lookup_fmap, !lookup_zip_with, list_lookup_fmap.
    destruct (mask !! i) as [[]|], (flags !! i); done.
  - rewrite length_zip_with. lia.
Qed.

Lemma length_isnull_any_axis1 n cols :
  Forall (λ c : string * list cell, length c.2 = n) cols →
  length (isnull_any_axis1 n cols) = n.
Proof.
  unfold isnull_any_axis1. induction 1 as [|c cols Hc _ IH]; simpl.
  - apply length_replicate.
  - unfold series_or in *. rewrite length_zip_with, length_fmap, IH, Hc. lia.
Qed.

Lemma select_columns_inv df labels cols :
  select_columns df labels = Ok cols →
  cols = (λ c, (c, default [] (columns df !! c))) <$> labels
  ∧ ∀ c, c ∈ labels → is_Some (columns df !! c).
Proof.
  unfold select_columns. intros H.
  destruct (List.filter _ labels) as [|m ms] eqn:E; [|done].
  injection H as <-. split; [done|]. intros c Hc.
  destruct (columns df !! c) as [col|] eqn:Hcol; [by eexists|]. exfalso.
  assert (In c (List.filter (λ c, negb (has_column df c)) labels)) as Hin.
  { apply filter_In. split; [by apply list_elem_of_In|].
    unfold has_column. rewrite Hcol.
    by rewrite bool_decide_eq_false_2 by (by intros [? ?]). }
  by rewrite E in Hin.
Qed.

Lemma set_column_table_shaped df c v :
  table_shaped df → table_shaped (set_column df c v).
Proof.
  intros Hshape c' col. rewrite set_column_lookup. case_decide.
  - intros [= <-]. apply length_replicate.
  - apply Hshape.
Qed.

Lemma numeric_fold_flag_series parse_number n fields : ∀ d,
  HAS_NON_NUMERIC_VALUE ∉ fields →
  (∀ c col, c ∈ fields → columns d !! c = Some col → length col = n) →
  (∃ col, columns d !! HAS_NON_NUMERIC_VALUE = Some col ∧ flag_series n col) →
  ∃ col, columns (foldl (numeric_field_step parse_number) d fields)
           !! HAS_NON_NUMERIC_VALUE = Some col
         ∧ flag_series n col.
Proof.
  induction fields as [|f fields IH]; intros d Hnot Hlen Hflag; [done|].
  simpl. apply not_elem_of_cons in Hnot as [Hf Hnot]. apply IH; [done| |].
  - intros c col Hc.
    assert (c ≠ HAS_NON_NUMERIC_VALUE) as Hne by (intros ->; done).
    rewrite (proj2 (numeric_field_step_frame parse_number _ _ c Hne)).
    apply Hlen. by apply list_elem_of_further.
  - destruct Hflag as (colF & HF & Hser). unfold numeric_field_step.
    destruct (columns d !! f) as [col|] eqn:Hcol; [|by exists colF].
    exists (mask_assign
              (series_and ((λ x, negb (notna x)) <$> to_numeric parse_number col)
                          (cell_notna <$> col))
              (CBool true) colF).
    split.
    + unfold loc_set. simpl. by rewrite lookup_alter_eq, HF.
    + apply flag_series_mark; [|done].
      unfold series_and, to_numeric. rewrite length_zip_with, !length_fmap.
      rewrite (Hlen f col) by (done || apply list_elem_of_here). lia.
Qed.

(** Under a table-shaped batch each rule leaves one boolean per row in
    its flag column. *)
Lemma apply_rule_flag_series parse_number r df df' :
  table_shaped df →
  apply_rule parse_number r df = Ok df' →
  ∃ col, columns df' !! flag_column_of r = Some col ∧ flag_series (nrows df) col.
Proof.
  intros Hshape. destruct r; cbn [apply_rule flag_column_of]; intros H.
  - injection H as <-. unfold flag_invalid_numeric_types.
    apply numeric_fold_flag_series.
    + apply (flag_ne_reads numeric_types numeric_types).
    + intros c col Hc. apply (set_column_table_shaped _ _ _ Hshape).
    + eexists. split; [apply set_column_lookup_eq|apply flag_series_init].
  - injection H as <-. unfold flag_abnormal_prices.
    rewrite set_column_lookup_ne by done.
    destruct (columns df !! "current_price") as [col|] eqn:Hcol.
    + eexists. split; [apply init_then_mark_lookup|].
      apply flag_series_mark; [|apply flag_series_init].
      unfold series_and, series_or, to_numeric.
      repeat (rewrite ?length_zip_with, ?length_fmap).
      rewrite (Hshape _ _ Hcol), !Nat.min_id. done.
    + eexists. split; [apply set_column_lookup_eq|apply flag_series_init].
  - injection H as <-. unfold flag_invalid_market_cap.
    rewrite !set_column_lookup_ne by done.
    destruct (columns df !! "market_cap") as [mcs|] eqn:Hm;
      [|eexists; split; [apply set_column_lookup_eq|apply flag_series_init]].
    destruct (columns df !! "current_price") as [ps|] eqn:Hp;
      [|eexists; split; [apply set_column_lookup_eq|apply flag_series_init]].
    destruct (columns df !! "circulating_supply") as [ss|] eqn:Hs;
      [|eexists; split; [apply set_column_lookup_eq|apply flag_series_init]].
    match goal with |- context [series_any ?m] => destruct (series_any m) end;
      [|eexists; split; [apply set_column_lookup_eq|apply flag_series_init]].
    eexists. split; [apply init_then_mark_lookup|].
    apply flag_series_mark; [|apply flag_series_init].
    unfold series_and, series_or, to_numeric.
    repeat (rewrite ?length_zip_with, ?length_fmap).
    rewrite (Hshape _ _ Hm), (Hshape _ _ Hp), (Hshape _ _ Hs), !Nat.min_id. done.
  - unfold flag_missing_values in H.
    apply result_bind_Ok_inv in H as (required & Hsel & H). injection H as <-.
    apply select_columns_inv in Hsel as [-> Hpresent].
    eexists. split; [apply init_then_mark_lookup|].
    apply flag_series_mark; [|apply flag_series_init].
    change (nrows (set_column df HAS_MISSING_VALUES (CBool false))) with (nrows df).
    apply length_isnull_any_axis1.
    apply Forall_fmap, Forall_forall. intros c Hc.
    destruct (Hpresent c Hc) as [col Hcol].
    change (length (default []
              (columns (set_column df HAS_MISSING_VALUES (CBool false)) !! c))
            = nrows df).
    rewrite Hcol.
    exact (set_column_table_shaped _ _ _ Hshape _ _ Hcol).
  - injection H as <-. unfold flag_duplicates.
    rewrite set_column_lookup_ne by done.
    destruct (columns df !! "id") as [ids|] eqn:Hid.
    + eexists. split; [apply init_then_mark_lookup|].
      apply flag_series_mark; [|apply flag_series_init].
      unfold duplicated. rewrite length_duplicated_from. by apply (Hshape _ _ Hid).
    + eexists. split; [apply set_column_lookup_eq|apply flag_series_init].
Qed.

Lemma apply_rule_columns parse_number r df df' col :
  apply_rule parse_number r df = Ok df' →
  columns df' !! flag_column_of r = Some col →
  columns df' = <[flag_column_of r := col]> (columns df).
Proof.
  intros H Hcol. destruct (apply_rule_frame _ _ _ _ H) as [_ Hframe].
  apply map_eq. intros c. rewrite lookup_insert. case_decide as Hc.
  - by subst c.
  - apply Hframe. by intros ->.
Qed.

(** C8, as amended: each flag rule looks up only columns that are not
    flag columns and writes exactly one boolean column, its own flag
    column, which is created, or overwritten when the batch already has a
    column of that name; every other column and the row order are left
    unchanged; and when the five rules run without fault in one order,
    they yield the same flagged batch in every order. *)
Theorem flag_rules_column_disjoint (parse_number : string → float) (df : DataFrame) :
  table_shaped df →
  (∀ r df', apply_rule parse_number r df = Ok df' →
     nrows df' = nrows df
     ∧ (∀ c, c ≠ flag_column_of r → columns df' !! c = columns df !! c)
     ∧ (∃ flags, columns df' !! flag_column_of r = Some (CBool <$> flags)
                 ∧ length flags = nrows df)
     ∧ dom (columns df') = {[flag_column_of r]} ∪ dom (columns df)
     ∧ (columns df !! flag_column_of r = None →
        ∀ c col, columns df !! c = Some col → columns df' !! c = Some col)
     ∧ table_shaped df')
  ∧ (∀ r r', flag_column_of r' ∉ reads r)
  ∧ (∀ r df2, nrows df2 = nrows df →
       (∀ c, c ∈ reads r → columns df2 !! c = columns df !! c) →
       written parse_number r df2 = written parse_number r df)
  ∧ (∀ order out, order ≡ₚ all_rules →
       run_rules parse_number all_rules df = Ok out →
       run_rules parse_number order df = Ok out).
Proof.
  intros Hshape. split; [|split; [|split]].
  - intros r df' H.
    destruct (apply_rule_frame _ _ _ _ H) as [Hn Hframe].
    destruct (apply_rule_flag_series _ _ _ _ Hshape H) as (col & Hcol & flags & -> & Hlen).
    split; [done|]. split; [done|]. split; [by exists flags|]. split; [|split].
    + rewrite (apply_rule_columns _ _ _ _ _ H Hcol). apply dom_insert_L.
    + intros Hnew c col Hc. rewrite Hframe; [done|]. intros ->. congruence.
    + intros c col. destruct (decide (c = flag_column_of r)) as [->|Hc].
      * rewrite Hcol. intros [= <-]. rewrite length_fmap. congruence.
      * rewrite Hframe by done. rewrite Hn. apply Hshape.
  - intros r r'. apply flag_ne_reads.
  - intros r df2 Hn Hagree. by apply written_agree.
  - intros order out Hperm Hout.
    by rewrite (run_rules_permutation parse_number _ _ Hperm).
Qed.

(** C8, as stated, fails on a batch that already has a [has_duplicate]
    column: [flag_duplicates] does not leave that pre-existing column
    unchanged, it recomputes it. *)
Lemma flag_duplicates_overwrites_column :
  ¬ (∀ df', apply_rule sample_parse_number duplicates revalidated_batch = Ok df' →
       ∀ c col, columns revalidated_batch !! c = Some col →
                columns df' !! c = Some col).
Proof.
  intros H.
  specialize (H _ eq_refl "has_duplicate" [CBool false; CBool true] eq_refl).
  vm_compute in H. discriminate H.
Qed.

(** * The theorems at sample batches *)

Lemma flag_invalid_market_cap_spec_witness :
  table_shaped dirty_data
  ∧ flag_at (flag_invalid_market_cap sample_parse_number dirty_data)
      HAS_INVALID_MARKET_CAP 0 = Some true.
Proof.
  assert (table_shaped dirty_data) as Hshape
    by (apply frame_table_shaped; repeat constructor).
  split; [exact Hshape|].
  destruct (flag_invalid_market_cap_spec sample_parse_number dirty_data Hshape)
    as [H _].
  destruct (H _ _ _ eq_refl eq_refl eq_refl 0 _ _ _ eq_refl eq_refl eq_refl)
    as (b & Hb & Hiff & _).
  - intros flag. discriminate.
  - vm_compute. reflexivity.
  - rewrite Hb. f_equal. apply Hiff.
    repeat split; try reflexivity. right. split; vm_compute; reflexivity.
Defined.

Lemma flag_abnormal_prices_spec_witness :
  table_shaped dirty_data
  ∧ flag_at (flag_abnormal_prices sample_parse_number dirty_data)
      HAS_ABNORMAL_PRICE 2 = Some true.
Proof.
  assert (table_shaped dirty_data) as Hshape
    by (apply frame_table_shaped; repeat constructor).
  split; [exact Hshape|].
  destruct (flag_abnormal_prices_spec sample_parse_number dirty_data Hshape)
    as [H _].
  destruct (H _ eq_refl 2 _ eq_refl) as (b & Hb & Hiff & _).
  rewrite Hb. f_equal. apply Hiff. left. reflexivity.
Defined.

Lemma flag_duplicates_spec_witness :
  table_shaped dirty_data
  ∧ flag_at (flag_duplicates dirty_data) HAS_DUPLICATE 1 = Some true.
Proof.
  assert (table_shaped dirty_data) as Hshape
    by (apply frame_table_shaped; repeat constructor).
  split; [exact Hshape|].
  destruct (flag_duplicates_spec dirty_data Hshape) as [H _].
  destruct (H _ eq_refl) as [Hrows _].
  destruct (Hrows 1 _ eq_refl) as (b & Hb & Hiff).
  rewrite Hb. f_equal. apply Hiff.
  exists 0, (CStr "bitcoin"). repeat split. lia.
Defined.

Lemma validate_schema_spec_witness :
  nrows dirty_data ≠ 0 ∧ validate_schema (PyDataFrame dirty_data) = VALID.
Proof.
  assert (nrows dirty_data ≠ 0) as Hn
    by (unfold dirty_data, frame; cbn [nrows]; lia).
  assert (∀ f, f ∈ REQUIRED_FIELDS → is_Some (columns dirty_data !! f)) as Hreq.
  { intros f Hf. unfold REQUIRED_FIELDS in Hf.
    repeat (apply elem_of_cons in Hf as [->|Hf]; [eexists; reflexivity|]).
    by apply elem_of_nil in Hf. }
  split; [exact Hn|].
  destruct (validate_schema_spec (PyDataFrame dirty_data)) as (_ & _ & H).
  destruct (H dirty_data eq_refl) as (_ & _ & Hvalid).
  exact (Hvalid Hn Hreq).
Defined.

Lemma generate_flag_report_spec_witness :
  table_shaped flagged_duplicates_batch
  ∧ _generate_flag_report flagged_duplicates_batch HAS_DUPLICATE "duplicates"
      ["id"; "symbol"; "name"]
    = Ok {| item_status := FAILED; item_total_rows := Some 3;
            item_failed_count := Some 1;
            item_failed_percentage := Some (3333 # 100);
            item_examples :=
              Some [[("id", CStr "bitcoin"); ("symbol", CStr "btc");
                     ("name", CStr "Bitcoin")]];
            item_reason := None |}.
Proof.
  assert (table_shaped flagged_duplicates_batch) as Hshape
    by (apply frame_table_shaped; repeat constructor).
  split; [exact Hshape|].
  destruct (generate_flag_report_spec flagged_duplicates_batch duplicates Hshape)
    as (_ & _ & H).
  destruct (H [false; true; false] eq_refl) as (pct & Hrep & _ & _ & _ & _ & Hpct & _).
  - discriminate.
  - intros c Hc. simpl in Hc.
    repeat (apply elem_of_cons in Hc as [->|Hc]; [by eexists|]).
    by apply elem_of_nil in Hc.
  - cbn [flag_column_of rule_name example_columns_of] in Hrep.
    rewrite Hrep, (Hpct eq_refl eq_refl). reflexivity.
Defined.

Lemma generate_validation_report_spec_witness :
  flagged_batch dirty_data
  ∧ ∃ report, generate_validation_report dirty_data = Ok report.
Proof.
  assert (flagged_batch dirty_data) as Hfb.
  { split; [apply frame_table_shaped; repeat constructor|]. split.
    - intros f Hf. unfold REQUIRED_FIELDS in Hf.
      repeat (apply elem_of_cons in Hf as [->|Hf]; [by eexists|]).
      by apply elem_of_nil in Hf.
    - intros r col H. destruct r; discriminate H. }
  split; [exact Hfb|].
  exact (proj1 (generate_validation_report_spec dirty_data) Hfb).
Defined.

Lemma generate_validation_report_without_flags_witness :
  (∀ r, columns dirty_data !! flag_column_of r = None)
  ∧ ∃ report, generate_validation_report dirty_data = Ok report
              ∧ report_status report = PASSED
              ∧ report_total_rows report = 4
              ∧ summary_executed (report_summary report) = 0.
Proof.
  assert (∀ r, columns dirty_data !! flag_column_of r = None) as Habs
    by (by intros []).
  split; [exact Habs|].
  eexists. split; [exact (generate_validation_report_without_flags dirty_data Habs)|].
  repeat split.
Defined.

Lemma flag_rules_column_disjoint_witness :
  table_shaped dirty_data
  ∧ run_rules sample_parse_number (reverse all_rules) dirty_data =
    run_rules sample_parse_number all_rules dirty_data.
Proof.
  assert (table_shaped dirty_data) as Hshape
    by (apply frame_table_shaped; repeat constructor).
  split; [exact Hshape|].
  destruct (flag_rules_column_disjoint sample_parse_number dirty_data Hshape)
    as (_ & _ & _ & H).
  destruct (run_rules sample_parse_number all_rules dirty_data) as [out|e] eqn:E.
  - apply H; [apply reverse_Permutation|reflexivity].
  - vm_compute in E. discriminate E.
Defined.

(** * Further properties of the validator *)

(** ** flag_invalid_numeric_types, record by record *)

Lemma flag_at_inv df c i b :
  flag_at df c i = Some b →
  ∃ col, columns df !! c = Some col ∧ col !! i = Some (CBool b).
Proof.
  unfold flag_at. destruct (columns df !! c) as [col|]; [|done]. simpl.
  destruct (col !! i) as [[]|] eqn:E; try done. simpl.
  intros [= <-]. by exists col.
Qed.

Lemma flag_at_intro df c i col b :
  columns df !! c = Some col → col !! i = Some (CBool b) → flag_at df c i = Some b.
Proof. intros H1 H2. unfold flag_at. rewrite H1. simpl. by rewrite H2. Qed.

Lemma numeric_field_step_flag_at parse_number d f i b0 :
  flag_at d HAS_NON_NUMERIC_VALUE i = Some b0 →
  flag_at (numeric_field_step parse_number d f) HAS_NON_NUMERIC_VALUE i =
  match columns d !! f with
  | Some col =>
      match col !! i with
      | Some c => Some (non_numeric_cell parse_number c || b0)
      | None => None
      end
  | None => Some b0
  end.
Proof.
  intros Hb. unfold numeric_field_step.
  destruct (columns d !! f) as [col|] eqn:Hcol; [|done].
  apply flag_at_inv in Hb as (colF & HF & Hi).
  unfold flag_at, loc_set. cbn [columns]. rewrite lookup_alter_eq, HF. simpl.
  unfold mask_assign, series_and, to_numeric.
  rewrite !lookup_zip_with, !list_lookup_fmap, Hi.
  destruct (col !! i) as [c|]; [|done]. simpl. unfold non_numeric_cell.
  by destruct (negb (notna (to_numeric_cell parse_number c)) && cell_notna c).
Qed.

Lemma numeric_fold_flag_at parse_number df i fields : ∀ d b0,
  HAS_NON_NUMERIC_VALUE ∉ fields →
  (∀ c, c ≠ HAS_NON_NUMERIC_VALUE → columns d !! c = columns df !! c) →
  (∀ f col, f ∈ fields → columns df !! f = Some col → i < length col) →
  flag_at d HAS_NON_NUMERIC_VALUE i = Some b0 →
  ∃ b, flag_at (foldl (numeric_field_step parse_number) d fields)
         HAS_NON_NUMERIC_VALUE i = Some b
     ∧ (b = true ↔
          b0 = true
          ∨ ∃ f col c, f ∈ fields ∧ columns df !! f = Some col
                       ∧ col !! i = Some c ∧ non_numeric_cell parse_number c = true).
Proof.
  induction fields as [|f fields IH]; intros d b0 Hnot Hframe Hlen Hb.
  - exists b0. split; [done|]. split; [by left|].
    intros [H|(f & col & c & Hf & _)]; [done|]. by apply elem_of_nil in Hf.
  - apply not_elem_of_cons in Hnot as [Hf Hnot]. cbn [foldl].
    pose proof (numeric_field_step_flag_at parse_number d f i b0 Hb) as Hstep.
    rewrite (Hframe f) in Hstep by done.
    assert (∀ c, c ≠ HAS_NON_NUMERIC_VALUE →
              columns (numeric_field_step parse_number d f) !! c = columns df !! c)
      as Hframe'.
    { intros c Hc.
      rewrite (proj2 (numeric_field_step_frame parse_number d f c Hc)).
      by apply Hframe. }
    assert (∀ f' col, f' ∈ fields → columns df !! f' = Some col → i < length col)
      as Hlen' by (intros f' col Hf'; apply Hlen; by apply list_elem_of_further).
    destruct (columns df !! f) as [col|] eqn:Hcol.
    + destruct (lookup_lt_is_Some_2 col i) as [c Hc];
        [apply (Hlen f); [apply list_elem_of_here|done]|].
      rewrite Hc in Hstep.
      destruct (IH _ _ Hnot Hframe' Hlen' Hstep) as (b & Hfl & Hiff).
      exists b. split; [done|]. rewrite Hiff, orb_true_iff. split.
      * intros [[Hn|H0]|(f' & col' & c' & Hf' & Hrest)].
        -- right. exists f, col, c. split; [apply list_elem_of_here|done].
        -- by left.
        -- right. exists f', col', c'. split; [by apply list_elem_of_further|done].
      * intros [H0|(f' & col' & c' & Hf' & Hcol' & Hc' & Hn)]; [by left; right|].
        apply elem_of_cons in Hf' as [->|Hf'].
        -- left. left. congruence.
        -- right. by exists f', col', c'.
    + destruct (IH _ _ Hnot Hframe' Hlen' Hstep) as (b & Hfl & Hiff).
      exists b. split; [done|]. rewrite Hiff. split.
      * intros [H0|(f' & col' & c' & Hf' & Hrest)]; [by left|].
        right. exists f', col', c'. split; [by apply list_elem_of_further|done].
      * intros [H0|(f' & col' & c' & Hf' & Hcol' & Hrest)]; [by left|].
        apply elem_of_cons in Hf' as [->|Hf']; [congruence|].
        right. by exists f', col', c'.
Qed.

Lemma non_numeric_cell_spec parse_number c :
  non_numeric_cell parse_number c = true ↔
  c ≠ CNA ∧ to_numeric_cell parse_number c = NaN.
Proof.
  unfold non_numeric_cell, cell_notna. rewrite andb_true_iff, !negb_true_iff.
  split.
  - intros [Hn Hc]. split; [by intros ->|].
    by destruct (to_numeric_cell parse_number c).
  - intros [Hc Hn]. rewrite Hn. split; [done|]. by destruct c.
Qed.

(** X1: on a table-shaped batch, [flag_invalid_numeric_types] flags a
    record exactly when, in some numeric field present as a column, its
    cell is not missing and does not parse as a number. *)
Theorem flag_invalid_numeric_types_spec (parse_number : string → float)
    (df : DataFrame) (i : nat) :
  table_shaped df → i < nrows df →
  ∃ b, flag_at (flag_invalid_numeric_types parse_number df) HAS_NON_NUMERIC_VALUE i
       = Some b
     ∧ (b = true ↔
          ∃ field col c, field ∈ NUMERIC_FIELDS ∧ columns df !! field = Some col
                         ∧ col !! i = Some c ∧ c ≠ CNA
                         ∧ to_numeric_cell parse_number c = NaN).
Proof.
  intros Hshape Hi. unfold flag_invalid_numeric_types.
  destruct (numeric_fold_flag_at parse_number df i NUMERIC_FIELDS
              (set_column df HAS_NON_NUMERIC_VALUE (CBool false)) false)
    as (b & Hb & Hiff).
  - apply (flag_ne_reads numeric_types numeric_types).
  - intros c Hc. by apply set_column_lookup_ne.
  - intros f col _ Hcol. by rewrite (Hshape _ _ Hcol).
  - eapply flag_at_intro; [apply set_column_lookup_eq|by apply lookup_replicate_2].
  - exists b. split; [done|]. rewrite Hiff. split.
    + intros [H|(f & col & c & Hf & Hcol & Hc & Hn)]; [done|].
      apply non_numeric_cell_spec in Hn as [Hna Hnan]. by exists f, col, c.
    + intros (f & col & c & Hf & Hcol & Hc & Hna & Hnan). right.
      exists f, col, c. repeat split; try done. by apply non_numeric_cell_spec.
Qed.

(** ** flag_missing_values, record by record, and its only fault *)

Lemma isnull_any_axis1_lookup n cols i :
  Forall (λ c : string * list cell, length c.2 = n) cols → i < n →
  ∃ b, isnull_any_axis1 n cols !! i = Some b
     ∧ (b = true ↔ ∃ c, c ∈ cols ∧ c.2 !! i = Some CNA).
Proof.
  intros Hall Hi. unfold isnull_any_axis1.
  induction Hall as [|c cols Hc _ (b & Hb & Hiff)]; cbn [foldr].
  - exists false. split; [by apply lookup_replicate_2|]. split; [done|].
    intros (c & Hc & _). by apply elem_of_nil in Hc.
  - destruct (lookup_lt_is_Some_2 c.2 i) as [x Hx]; [lia|].
    exists (cell_isna x || b). split.
    + unfold series_or at 1.
      by rewrite lookup_zip_with, list_lookup_fmap, Hx, Hb.
    + rewrite orb_true_iff, Hiff. split.
      * intros [Hna|(c' & Hc' & Hx')].
        -- exists c. split; [apply list_elem_of_here|]. by destruct x.
        -- exists c'. split; [by apply list_elem_of_further|done].
      * intros (c' & [->|Hc']%elem_of_cons & Hx').
        -- left. rewrite Hx in Hx'. by injection Hx' as ->.
        -- right. by exists c'.
Qed.

(** X2: when the seven required columns are present in a table-shaped
    batch, [flag_missing_values] returns, and it flags a record exactly
    when one of its required fields holds a missing value. *)
Theorem flag_missing_values_spec (df : DataFrame) :
  table_shaped df →
  (∀ f, f ∈ REQUIRED_FIELDS → is_Some (columns df !! f)) →
  ∃ df', flag_missing_values df = Ok df'
       ∧ ∀ i, i < nrows df →
           ∃ b, flag_at df' HAS_MISSING_VALUES i = Some b
              ∧ (b = true ↔
                   ∃ f, f ∈ REQUIRED_FIELDS ∧ cell_at df f i = Some CNA).
Proof.
  intros Hshape Hreq. unfold flag_missing_values.
  set (d0 := set_column df HAS_MISSING_VALUES (CBool false)).
  assert (∀ f, f ∈ REQUIRED_FIELDS → columns d0 !! f = columns df !! f) as Hd0.
  { intros f Hf. apply set_column_lookup_ne. intros <-.
    by apply (flag_ne_reads missing_values missing_values). }
  rewrite select_columns_present
    by (intros f Hf; rewrite Hd0 by done; by apply Hreq).
  rewrite result_bind_Ok. eexists. split; [reflexivity|]. intros i Hi.
  set (required := (λ c, (c, default [] (columns d0 !! c))) <$> REQUIRED_FIELDS).
  assert (Forall (λ c : string * list cell, length c.2 = nrows df) required) as Hall.
  { apply Forall_fmap, Forall_forall. intros f Hf.
    destruct (Hreq f Hf) as [col Hcol].
    change (length (default [] (columns d0 !! f)) = nrows df).
    rewrite Hd0, Hcol by done. exact (Hshape _ _ Hcol). }
  destruct (isnull_any_axis1_lookup _ _ i Hall Hi) as (b & Hb & Hiff).
  exists b. split.
  - eapply flag_at_intro; [apply init_then_mark_lookup|].
    change (nrows d0) with (nrows df).
    rewrite lookup_mark_fresh by (by apply length_isnull_any_axis1).
    by rewrite Hb.
  - rewrite Hiff. split.
    + intros (c & Hc & Hx). apply list_elem_of_fmap in Hc as (f & -> & Hf).
      exists f. split; [done|]. unfold cell_at.
      cbn [snd] in Hx. rewrite Hd0 in Hx by done.
      by destruct (columns df !! f).
    + intros (f & Hf & Hx).
      exists (f, default [] (columns d0 !! f)). split.
      * apply list_elem_of_fmap. by exists f.
      * cbn [snd]. rewrite Hd0 by done. unfold cell_at in Hx.
        by destruct (columns df !! f).
Qed.

Lemma absent_required_filter (df : DataFrame) (labels : list string) :
  HAS_MISSING_VALUES ∉ labels →
  List.filter (λ c, negb (has_column (set_column df HAS_MISSING_VALUES (CBool false)) c))
    labels
  = filter (λ f, columns df !! f = None) labels.
Proof.
  induction labels as [|f labels IH]; intros Hnot; [done|].
  apply not_elem_of_cons in Hnot as [Hf Hnot]. cbn [List.filter].
  unfold has_column at 1. rewrite set_column_lookup_ne by done.
  destruct (columns df !! f) as [col|] eqn:Hcol.
  - rewrite bool_decide_eq_true_2 by (by eexists). cbn [negb].
    rewrite filter_cons_False by (by rewrite Hcol). by apply IH.
  - rewrite bool_decide_eq_false_2 by (by intros [? ?]). cbn [negb].
    rewrite filter_cons_True by done. f_equal. by apply IH.
Qed.

(** X3: [flag_missing_values] faults exactly when a required column is
    absent, and then with a KeyError that names the absent required
    columns, in the order of REQUIRED_FIELDS; it has no other fault. *)
Theorem flag_missing_values_fault (df : DataFrame) (e : PyError) :
  flag_missing_values df = Raise e ↔
  (∃ f, f ∈ REQUIRED_FIELDS ∧ columns df !! f = None)
  ∧ e = KeyError (filter (λ f, columns df !! f = None) REQUIRED_FIELDS).
Proof.
  unfold flag_missing_values, select_columns.
  rewrite absent_required_filter
    by apply (flag_ne_reads missing_values missing_values).
  destruct (filter (λ f, columns df !! f = None) REQUIRED_FIELDS) as [|m ms] eqn:E.
  - rewrite result_bind_Ok. split; [done|]. intros [(f & Hf & Habs) _].
    assert (f ∈ filter (λ f, columns df !! f = None) REQUIRED_FIELDS) as Hin
      by (by apply list_elem_of_filter).
    rewrite E in Hin. by apply elem_of_nil in Hin.
  - rewrite result_bind_Raise. split.
    + intros [= <-]. split; [|done]. exists m.
      assert (m ∈ filter (λ f, columns df !! f = None) REQUIRED_FIELDS) as Hin
        by (rewrite E; apply list_elem_of_here).
      apply list_elem_of_filter in Hin as [Habs Hin]. done.
    + by intros [_ ->].
Qed.

(** ** Running a rule again *)

(** X4: a rule applied to its own output changes nothing: validating a
    flagged batch again with the same rule gives the same batch. *)
Theorem apply_rule_idempotent (parse_number : string → float) (r : Rule)
    (df d : DataFrame) :
  apply_rule parse_number r df = Ok d →
  apply_rule parse_number r d = Ok d.
Proof.
  intros H. destruct (apply_rule_frame _ _ _ _ H) as [Hn Hframe].
  assert (written parse_number r d = written parse_number r df) as W.
  { apply written_agree; [done|]. intros c Hc. apply Hframe.
    intros ->. by apply (flag_ne_reads r r). }
  unfold written in W at 2. rewrite H, result_bind_Ok in W.
  apply written_inv in W as (d2 & H2 & Hflag). rewrite H2. f_equal.
  destruct (apply_rule_frame _ _ _ _ H2) as [Hn2 Hframe2].
  apply DataFrame_eq; [done|]. apply map_eq. intros c.
  destruct (decide (c = flag_column_of r)) as [->|Hc]; [done|]. by apply Hframe2.
Qed.

(** ** From the schema gate through the rules to the report *)

Lemma validate_schema_VALID_iff (df : DataFrame) :
  validate_schema (PyDataFrame df) = VALID ↔
  nrows df ≠ 0 ∧ ∀ f, f ∈ REQUIRED_FIELDS → is_Some (columns df !! f).
Proof.
  unfold validate_schema, df_empty.
  destruct (nrows df =? 0)%nat eqn:En.
  - apply Nat.eqb_eq in En. cbn [orb]. split; [done|]. by intros [? _].
  - apply Nat.eqb_neq in En. cbn [orb].
    destruct (decide (columns df = ∅)) as [Ec|Ec].
    + rewrite (bool_decide_eq_true_2 _ Ec). split; [done|]. intros [_ Hall].
      destruct (Hall "id") as [col Hcol].
      { unfold REQUIRED_FIELDS. apply list_elem_of_here. }
      rewrite Ec in Hcol. by rewrite lookup_empty in Hcol.
    + rewrite (bool_decide_eq_false_2 _ Ec).
      destruct (decide ((list_to_set REQUIRED_FIELDS ∖ dom (columns df) : gset string)
                        = ∅)) as [Hm|Hm].
      * rewrite bool_decide_eq_false_2 by (intros Hne; by apply Hne).
        split; [|done]. intros _. split; [done|]. by apply missing_fields_empty_iff.
      * rewrite (bool_decide_eq_true_2 _ Hm). split; [done|]. intros [_ Hall].
        exfalso. apply Hm. by apply missing_fields_empty_iff.
Qed.

Lemma required_not_flag f r : f ∈ REQUIRED_FIELDS → f ≠ flag_column_of r.
Proof.
  intros Hf ->. apply list_elem_of_In in Hf.
  destruct r; simpl in Hf; intuition discriminate.
Qed.

Lemma apply_rule_returns parse_number r df :
  (∀ f, f ∈ REQUIRED_FIELDS → is_Some (columns df !! f)) →
  ∃ d, apply_rule parse_number r df = Ok d.
Proof.
  intros Hreq. destruct r; cbn [apply_rule]; try by eexists.
  unfold flag_missing_values. rewrite select_columns_present.
  - rewrite result_bind_Ok. by eexists.
  - intros f Hf. rewrite set_column_lookup_ne; [by apply Hreq|].
    apply not_eq_sym. by apply (required_not_flag f missing_values).
Qed.

Lemma apply_rule_table_shaped parse_number r df d :
  table_shaped df → apply_rule parse_number r df = Ok d → table_shaped d.
Proof.
  intros Hshape H. destruct (apply_rule_frame _ _ _ _ H) as [Hn Hframe].
  destruct (apply_rule_flag_series _ _ _ _ Hshape H) as (col & Hcol & flags & -> & Hlen).
  intros c col'. destruct (decide (c = flag_column_of r)) as [->|Hc].
  - rewrite Hcol. intros [= <-]. rewrite length_fmap. congruence.
  - rewrite Hframe by done. rewrite Hn. apply Hshape.
Qed.

(** Running rules on a batch that has the required columns: no fault,
    the data columns and the rows stay, and the flag column of every rule
    that ran holds one boolean per row. *)
Lemma run_rules_flagged parse_number rs : ∀ d (ran : list Rule),
  table_shaped d →
  (∀ f, f ∈ REQUIRED_FIELDS → is_Some (columns d !! f)) →
  (∀ r, r ∈ ran → ∃ col, columns d !! flag_column_of r = Some col
                          ∧ flag_series (nrows d) col) →
  ∃ out, run_rules parse_number rs d = Ok out
       ∧ nrows out = nrows d
       ∧ table_shaped out
       ∧ (∀ c, (∀ r, c ≠ flag_column_of r) → columns out !! c = columns d !! c)
       ∧ (∀ r, r ∈ ran ∨ r ∈ rs →
            ∃ col, columns out !! flag_column_of r = Some col
                   ∧ flag_series (nrows d) col).
Proof.
  induction rs as [|r rs IH]; intros d ran Hshape Hreq Hran.
  - exists d. split; [done|]. split; [done|]. split; [done|]. split; [done|].
    intros r [Hr|Hr]; [by apply Hran|by apply elem_of_nil in Hr].
  - destruct (apply_rule_returns parse_number r d Hreq) as [d1 H1].
    destruct (apply_rule_frame _ _ _ _ H1) as [Hn Hframe].
    pose proof (apply_rule_table_shaped _ _ _ _ Hshape H1) as Hshape1.
    pose proof (apply_rule_flag_series _ _ _ _ Hshape H1) as Hflag.
    destruct (IH d1 (r :: ran) Hshape1) as (out & Hout & Hno & Hso & Hfo & Hflags).
    + intros f Hf. rewrite Hframe; [by apply Hreq|]. by apply required_not_flag.
    + intros r' Hr'. rewrite Hn.
      destruct (decide (r' = r)) as [->|Hne]; [done|].
      apply elem_of_cons in Hr' as [->|Hr']; [done|].
      rewrite Hframe; [by apply Hran|].
      intros Heq. by apply Hne, flag_column_of_inj.
    + exists out. rewrite run_rules_cons, H1, result_bind_Ok.
      split; [done|]. split; [congruence|]. split; [done|]. split.
      * intros c Hc. rewrite Hfo by done. by apply Hframe.
      * intros r' Hr'. rewrite <- Hn. apply Hflags.
        destruct Hr' as [Hr'|[->|Hr']%elem_of_cons].
        -- left. by apply list_elem_of_further.
        -- left. apply list_elem_of_here.
        -- by right.
Qed.

Lemma run_permuted_rules_flagged parse_number df order :
  table_shaped df →
  (∀ f, f ∈ REQUIRED_FIELDS → is_Some (columns df !! f)) →
  order ≡ₚ all_rules →
  ∃ out, run_rules parse_number order df = Ok out
       ∧ nrows out = nrows df
       ∧ table_shaped out
       ∧ (∀ c, (∀ r, c ≠ flag_column_of r) → columns out !! c = columns df !! c)
       ∧ (∀ r, ∃ flags, columns out !! flag_column_of r = Some (CBool <$> flags)
                        ∧ length flags = nrows df).
Proof.
  intros Hshape Hreq Hperm.
  destruct (run_rules_flagged parse_number order df [] Hshape Hreq)
    as (out & Hout & Hn & Hso & Hframe & Hflags).
  { intros r Hr. by apply elem_of_nil in Hr. }
  exists out. split; [done|]. split; [done|]. split; [done|]. split; [done|].
  intros r. destruct (Hflags r) as (col & Hcol & flags & -> & Hlen).
  - right. rewrite Hperm. destruct r; unfold all_rules; rewrite !elem_of_cons; tauto.
  - by exists flags.
Qed.


Lemma flag_at_bools df c flags i :
  columns df !! c = Some (CBool <$> flags) → flag_at df c i = flags !! i.
Proof.
  intros H. unfold flag_at. rewrite H. simpl. rewrite list_lookup_fmap.
  by destruct (flags !! i).
Qed.

Lemma series_sum_zero_iff flags :
  series_sum flags = 0 ↔ ∀ i, flags !! i ≠ Some true.
Proof.
  induction flags as [|b flags IH].
  - split; [by intros _ i|done].
  - rewrite series_sum_cons. split.
    + intros H. destruct b; [done|]. intros [|i]; [done|].
      by apply (proj1 IH H).
    + intros H. destruct b; [by destruct (H 0)|].
      apply IH. intros i. apply (H (S i)).
Qed.

Lemma generate_flag_report_executed df r flags item :
  table_shaped df →
  columns df !! flag_column_of r = Some (CBool <$> flags) →
  (∀ c, c ∈ example_columns_of r → is_Some (columns df !! c)) →
  _generate_flag_report df (flag_column_of r) (rule_name r) (example_columns_of r)
    = Ok item →
  item_status item = (if decide (series_sum flags = 0) then PASSED else FAILED)
  ∧ item_total_rows item = Some (nrows df)
  ∧ item_failed_count item = Some (series_sum flags).
Proof.
  intros Hshape Hflag Hpresent Hitem. case_decide as H0.
  - rewrite (generate_flag_report_passed _ _ _ _ _ Hflag H0) in Hitem.
    injection Hitem as <-. by rewrite H0.
  - destruct (generate_flag_report_failed _ _ (rule_name r) (example_columns_of r)
                _ Hshape Hflag H0)
      as (pct & _ & _ & Hfailed); [by destruct r|done|].
    rewrite Hfailed in Hitem. by injection Hitem as <-.
Qed.

Lemma names_with_none st vs :
  (∀ name item, (name, item) ∈ vs → item_status item ≠ st) → names_with st vs = [].
Proof.
  intros H. destruct (names_with st vs) as [|n l] eqn:E; [done|]. exfalso.
  assert (n ∈ names_with st vs) as Hn by (rewrite E; apply list_elem_of_here).
  apply elem_of_names_with in Hn as (item & Hin & Hst). by apply (H _ _ Hin).
Qed.

Lemma names_with_lengths vs :
  length (names_with PASSED vs) + length (names_with FAILED vs)
  + length (names_with SKIPPED vs) = length vs.
Proof.
  induction vs as [|[name item] vs IH]; [done|].
  rewrite !names_with_cons. cbn [snd fst length].
  destruct (item_status item); repeat case_decide; try done; cbn [length]; lia.
Qed.

Lemma generate_validation_report_total df :
  flagged_batch df → ∃ report, generate_validation_report df = Ok report.
Proof.
  intros Hfb.
  destruct (generate_flag_report_total df numeric_types Hfb) as [i1 H1].
  destruct (generate_flag_report_total df price_range Hfb) as [i2 H2].
  destruct (generate_flag_report_total df market_cap Hfb) as [i3 H3].
  destruct (generate_flag_report_total df missing_values Hfb) as [i4 H4].
  destruct (generate_flag_report_total df duplicates Hfb) as [i5 H5].
  cbn [flag_column_of rule_name example_columns_of] in *.
  unfold generate_validation_report.
  rewrite H1, result_bind_Ok, H2, result_bind_Ok, H3, result_bind_Ok,
    H4, result_bind_Ok, H5, result_bind_Ok.
  by eexists.
Qed.

Lemma fully_flagged_report (out : DataFrame) :
  table_shaped out →
  (∀ f, f ∈ REQUIRED_FIELDS → is_Some (columns out !! f)) →
  (∀ r, ∃ flags, columns out !! flag_column_of r = Some (CBool <$> flags)) →
  ∃ report, generate_validation_report out = Ok report
          ∧ report_total_rows report = nrows out
          ∧ summary_total (report_summary report) = 5
          ∧ summary_executed (report_summary report) = 5
          ∧ summary_skipped (report_summary report) = []
          ∧ (∀ r, ∃ item flags,
               (rule_name r, item) ∈ report_validations report
               ∧ columns out !! flag_column_of r = Some (CBool <$> flags)
               ∧ item_total_rows item = Some (nrows out)
               ∧ item_failed_count item = Some (series_sum flags))
          ∧ (report_status report = PASSED ↔
               ∀ r i, flag_at out (flag_column_of r) i ≠ Some true).
Proof.
  intros Hso Hreqo Hflags.
  assert (flagged_batch out) as Hfb.
  { split; [done|]. split; [done|]. intros r col Hcol.
    destruct (Hflags r) as (flags & Hf). exists flags. congruence. }
  destruct (generate_validation_report_total out Hfb) as [report Hrep].
  exists report. split; [done|].
  destruct (generate_validation_report_items _ _ Hrep)
    as (items & Hitems & Hvs & Hrows & _ & Hsum & Hstatus).
  set (vs := report_validations report) in *.
  destruct (foldl_update_summary vs
              {| summary_total := 5; summary_executed := 0; summary_passed := [];
                 summary_failed := []; summary_skipped := [] |})
    as (Ht & He & _ & Hf & Hs).
  rewrite <- Hsum in Ht, He, Hf, Hs. cbn [summary_total summary_executed
    summary_failed summary_skipped app] in Ht, He, Hf, Hs.
  assert (∀ r, ∃ flags, columns out !! flag_column_of r = Some (CBool <$> flags)
            ∧ item_status (items r)
              = (if decide (series_sum flags = 0) then PASSED else FAILED)
            ∧ item_total_rows (items r) = Some (nrows out)
            ∧ item_failed_count (items r) = Some (series_sum flags)) as Hexec.
  { intros r. destruct (Hflags r) as (flags & Hcol). exists flags.
    split; [done|].
    apply (generate_flag_report_executed out r flags); try done.
    intros c Hc. by apply Hreqo, (example_columns_required r). }
  assert (∀ name item, (name, item) ∈ vs → ∃ r, name = rule_name r ∧ item = items r)
    as Hvs_inv.
  { intros name item Hin. rewrite Hvs in Hin.
    apply list_elem_of_fmap in Hin as (r & [= -> ->] & _). by exists r. }
  assert (∀ r, (rule_name r, items r) ∈ vs) as Hvs_in.
  { intros r. rewrite Hvs. apply list_elem_of_fmap. exists r. split; [done|].
    destruct r; unfold all_rules; rewrite !elem_of_cons; tauto. }
  assert (names_with SKIPPED vs = []) as Hskip.
  { apply names_with_none. intros name item Hin.
    destruct (Hvs_inv _ _ Hin) as (r & _ & ->).
    destruct (Hexec r) as (flags & _ & -> & _). by case_decide. }
  split; [by rewrite Hrows|]. split; [done|]. split.
  { rewrite He. pose proof (names_with_lengths vs) as Hl.
    rewrite Hskip in Hl. rewrite Hvs in Hl at 3.
    rewrite length_fmap in Hl. cbn [length all_rules] in Hl. lia. }
  split; [by rewrite Hs|]. split.
  { intros r. destruct (Hexec r) as (flags & Hcol & _ & Hrows' & Hcount).
    by exists (items r), flags. }
  rewrite Hstatus, Hf. split.
  - intros Hp r i. destruct (Hexec r) as (flags & Hcol & Hst & _).
    rewrite (flag_at_bools _ _ _ _ Hcol). apply series_sum_zero_iff.
    destruct (decide (series_sum flags = 0)) as [H0|H0]; [done|]. exfalso.
    assert (rule_name r ∈ names_with FAILED vs) as Hin
      by (apply elem_of_names_with; by exists (items r)).
    destruct (names_with FAILED vs); [by apply elem_of_nil in Hin|done].
  - intros Hnone. rewrite names_with_none; [done|].
    intros name item Hin. destruct (Hvs_inv _ _ Hin) as (r & _ & ->).
    destruct (Hexec r) as (flags & Hcol & -> & _).
    rewrite decide_True; [done|].
    apply series_sum_zero_iff. intros i.
    rewrite <- (flag_at_bools _ _ _ _ Hcol). apply Hnone.
Qed.

(** X6: after the five rules have run on a table-shaped batch accepted by
    [validate_schema], [generate_validation_report] returns a report in
    which no validation is skipped (executed = 5), every item counts the
    true flags of its column over all the rows, and the overall status is
    PASSED exactly when no record carries a true flag. *)
Theorem validated_batch_report (parse_number : string → float) (df out : DataFrame) :
  validate_schema (PyDataFrame df) = VALID →
  table_shaped df →
  run_rules parse_number all_rules df = Ok out →
  ∃ report, generate_validation_report out = Ok report
          ∧ report_total_rows report = nrows df
          ∧ summary_total (report_summary report) = 5
          ∧ summary_executed (report_summary report) = 5
          ∧ summary_skipped (report_summary report) = []
          ∧ (∀ r, ∃ item flags,
               (rule_name r, item) ∈ report_validations report
               ∧ columns out !! flag_column_of r = Some (CBool <$> flags)
               ∧ item_total_rows item = Some (nrows df)
               ∧ item_failed_count item = Some (series_sum flags))
          ∧ (report_status report = PASSED ↔
               ∀ r i, flag_at out (flag_column_of r) i ≠ Some true).
Proof.
  intros [Hn Hreq]%validate_schema_VALID_iff Hshape Hrun.
  destruct (run_permuted_rules_flagged parse_number df all_rules Hshape Hreq)
    as (out' & Hout & Hno & Hso & Hframe & Hflags); [done|].
  rewrite Hrun in Hout. injection Hout as <-.
  assert (∀ f, f ∈ REQUIRED_FIELDS → is_Some (columns out !! f)) as Hreqo.
  { intros f Hf. rewrite Hframe; [by apply Hreq|].
    intros r. by apply required_not_flag. }
  rewrite <- Hno. apply fully_flagged_report; [done..|].
  intros r. destruct (Hflags r) as (flags & Hf & _). by exists flags.
Qed.

(** ** add_metadata *)

Lemma generate_flag_report_agree df1 df2 flag name (ex : list string) :
  nrows df1 = nrows df2 →
  columns df1 !! flag = columns df2 !! flag →
  (∀ c, c ∈ ex → columns df1 !! c = columns df2 !! c) →
  _generate_flag_report df1 flag name ex = _generate_flag_report df2 flag name ex.
Proof.
  intros Hn Hflag Hagree. unfold _generate_flag_report. rewrite Hflag, Hn.
  destruct (columns df2 !! flag) as [col|]; [|done].
  destruct (as_mask col) as [flags|e]; [|done]. rewrite !result_bind_Ok. cbv zeta.
  destruct (series_sum flags =? 0)%nat; [done|].
  destruct (percentage (series_sum flags) (nrows df2)) as [pct|e]; [|done].
  rewrite !result_bind_Ok. destruct ex as [|c ex]; [done|].
  rewrite (select_columns_agree (filter_rows df1 flags) (filter_rows df2 flags));
    [done|].
  intros c' Hc'. unfold filter_rows. cbn [columns].
  by rewrite !lookup_fmap, Hagree.
Qed.

Lemma metadata_not_flag r : VALIDATED_AT ≠ flag_column_of r.
Proof. by destruct r. Qed.

Lemma metadata_not_read r : VALIDATED_AT ∉ reads r.
Proof.
  intros H. apply list_elem_of_In in H.
  destruct r; simpl in H; intuition discriminate.
Qed.

Lemma metadata_not_example r : VALIDATED_AT ∉ example_columns_of r.
Proof.
  intros H. apply list_elem_of_In in H.
  destruct r; simpl in H; intuition discriminate.
Qed.

Lemma add_metadata_frame now df c :
  c ≠ VALIDATED_AT → columns (add_metadata now df) !! c = columns df !! c.
Proof. intros Hc. unfold add_metadata. by apply set_column_lookup_ne. Qed.

Lemma generate_validation_report_add_metadata now df :
  generate_validation_report (add_metadata now df) = generate_validation_report df.
Proof.
  unfold generate_validation_report.
  assert (∀ r, _generate_flag_report (add_metadata now df) (flag_column_of r)
                 (rule_name r) (example_columns_of r)
               = _generate_flag_report df (flag_column_of r) (rule_name r)
                   (example_columns_of r)) as Hitem.
  { intros r. apply generate_flag_report_agree; [done| |].
    - apply add_metadata_frame, not_eq_sym, metadata_not_flag.
    - intros c Hc. apply add_metadata_frame. intros ->.
      by apply (metadata_not_example r). }
  pose proof (Hitem numeric_types) as H1. pose proof (Hitem price_range) as H2.
  pose proof (Hitem market_cap) as H3. pose proof (Hitem missing_values) as H4.
  pose proof (Hitem duplicates) as H5.
  cbn [flag_column_of rule_name example_columns_of] in H1, H2, H3, H4, H5.
  by rewrite H1, H2, H3, H4, H5.
Qed.

(** X7: the metadata stamp does not interfere with validation: it writes
    the same capture time on every row of one column and touches no other
    column, a rule gives the same flags whether it runs before or after
    the stamp, and the validation report of the stamped batch is the
    report of the batch. *)
Theorem add_metadata_transparent (parse_number : string → float) (now : string)
    (df : DataFrame) :
  columns (add_metadata now df) !! VALIDATED_AT = Some (replicate (nrows df) (CStr now))
  ∧ nrows (add_metadata now df) = nrows df
  ∧ (∀ c, c ≠ VALIDATED_AT → columns (add_metadata now df) !! c = columns df !! c)
  ∧ (∀ r, apply_rule parse_number r (add_metadata now df) =
          (d ← apply_rule parse_number r df; Ok (add_metadata now d)))
  ∧ generate_validation_report (add_metadata now df) = generate_validation_report df.
Proof.
  assert (∀ c, c ≠ VALIDATED_AT → columns (add_metadata now df) !! c = columns df !! c)
    as Hframe.
  { intros c Hc. unfold add_metadata. by apply set_column_lookup_ne. }
  split; [apply set_column_lookup_eq|]. split; [done|]. split; [exact Hframe|].
  split.
  - intros r.
    assert (written parse_number r (add_metadata now df) = written parse_number r df)
      as W.
    { apply written_agree; [done|]. intros c Hc. apply Hframe.
      intros ->. by apply (metadata_not_read r). }
    destruct (apply_rule parse_number r df) as [d|e] eqn:E.
    + assert (written parse_number r df = Ok (columns d !! flag_column_of r)) as W2.
      { unfold written. by rewrite E. }
      rewrite W2 in W. rewrite result_bind_Ok.
      apply written_inv in W as (d2 & H2 & Hflag). rewrite H2. f_equal.
      destruct (apply_rule_frame _ _ _ _ E) as [Hn Hfr].
      destruct (apply_rule_frame _ _ _ _ H2) as [Hn2 Hfr2].
      apply DataFrame_eq; [cbn [nrows add_metadata set_column] in *; congruence|].
      apply map_eq. intros c. unfold add_metadata at 1.
      rewrite set_column_lookup. case_decide as Hc.
      * subst c. rewrite Hfr2 by apply metadata_not_flag.
        unfold add_metadata. by rewrite set_column_lookup_eq, Hn.
      * destruct (decide (c = flag_column_of r)) as [->|Hc2]; [done|].
        rewrite Hfr2, Hfr by done. apply Hframe. by intros ->.
    + assert (written parse_number r df = Raise e) as W2.
      { unfold written. by rewrite E. }
      rewrite W2 in W. rewrite result_bind_Raise. unfold written in W.
      destruct (apply_rule parse_number r (add_metadata now df)) as [d2|e2];
        [rewrite result_bind_Ok in W; discriminate|].
      rewrite result_bind_Raise in W. by injection W as ->.
  - apply generate_validation_report_add_metadata.
Qed.

(** ** _generate_flag_report: its only fault, and the bounds of a failed item *)

Lemma filter_rows_absent_filter (df : DataFrame) flags (labels : list string) :
  List.filter (λ c, negb (has_column (filter_rows df flags) c)) labels
  = filter (λ c, columns df !! c = None) labels.
Proof.
  induction labels as [|c labels IH]; [done|]. cbn [List.filter].
  assert (columns (filter_rows df flags) !! c = boolean_index flags <$> columns df !! c)
    as Hlookup.
  { unfold filter_rows. cbn [columns]. apply lookup_fmap. }
  destruct (columns df !! c) as [col|] eqn:Hcol.
  - assert (has_column (filter_rows df flags) c = true) as ->.
    { apply bool_decide_eq_true_2. rewrite Hlookup. by eexists. }
    cbn [negb]. rewrite filter_cons_False by (by rewrite Hcol). exact IH.
  - assert (has_column (filter_rows df flags) c = false) as ->.
    { apply bool_decide_eq_false_2. rewrite Hlookup. by intros [? ?]. }
    cbn [negb]. rewrite filter_cons_True by done. f_equal. exact IH.
Qed.

Lemma absent_filter_nil (df : DataFrame) (labels : list string) :
  filter (λ c, columns df !! c = None) labels = [] →
  ∀ c, c ∈ labels → is_Some (columns df !! c).
Proof.
  intros Hnil c Hc. destruct (columns df !! c) as [col|] eqn:Hcol; [by eexists|].
  assert (c ∈ filter (λ c, columns df !! c = None) labels) as Hin.
  { by apply list_elem_of_filter. }
  rewrite Hnil in Hin. by apply elem_of_nil in Hin.
Qed.

Lemma generate_flag_report_failed_nil df flag name flags :
  table_shaped df →
  columns df !! flag = Some (CBool <$> flags) →
  series_sum flags ≠ 0 →
  ∃ pct,
    percentage (series_sum flags) (nrows df) = Ok pct
    ∧ (0 <= pct <= 100)%Q
    ∧ _generate_flag_report df flag name [] =
      Ok (failed_item (nrows df) (series_sum flags) (py_round2 pct) None).
Proof.
  intros Hshape Hflag Hsum.
  assert (length flags = nrows df) as Hlen.
  { rewrite <- (Hshape _ _ Hflag). by rewrite length_fmap. }
  pose proof (series_sum_le flags) as Hle.
  destruct (percentage_returns (series_sum flags) (nrows df))
    as (y & pct & _ & _ & Hpct & _ & Hbounds); [lia|].
  exists pct. split; [exact Hpct|]. split; [exact Hbounds|].
  unfold _generate_flag_report. rewrite Hflag, as_mask_bools, result_bind_Ok.
  cbv zeta. rewrite (proj2 (Nat.eqb_neq _ _) Hsum).
  by rewrite Hpct, result_bind_Ok.
Qed.

Lemma generate_flag_report_raises df flag name (ex : list string) flags :
  table_shaped df →
  columns df !! flag = Some (CBool <$> flags) →
  series_sum flags ≠ 0 →
  filter (λ c, columns df !! c = None) ex ≠ [] →
  _generate_flag_report df flag name ex =
  Raise (KeyError (filter (λ c, columns df !! c = None) ex)).
Proof.
  intros Hshape Hflag Hsum Habsent.
  assert (length flags = nrows df) as Hlen.
  { rewrite <- (Hshape _ _ Hflag). by rewrite length_fmap. }
  pose proof (series_sum_le flags) as Hle.
  destruct (percentage_returns (series_sum flags) (nrows df))
    as (y & pct & _ & _ & Hpct & _); [lia|].
  unfold _generate_flag_report. rewrite Hflag, as_mask_bools, result_bind_Ok.
  cbv zeta. rewrite (proj2 (Nat.eqb_neq _ _) Hsum).
  rewrite Hpct, result_bind_Ok.
  destruct ex as [|c ex']; [done|]. set (ex := c :: ex') in *.
  unfold select_columns. rewrite filter_rows_absent_filter.
  by destruct (filter (λ c, columns df !! c = None) ex).
Qed.

(** X8: on a well-formed batch with a boolean flag column, building a
    validation's report item faults in exactly one situation: at least one
    record is flagged and an example column is absent from the batch; the
    fault is then a KeyError naming the absent example columns in their
    listed order.  A validation with no flagged record never looks at the
    example columns. *)
Theorem generate_flag_report_fault (df : DataFrame) (flag name : string)
    (ex : list string) (flags : list bool) (e : PyError) :
  table_shaped df →
  columns df !! flag = Some (CBool <$> flags) →
  _generate_flag_report df flag name ex = Raise e
  ↔ series_sum flags ≠ 0%nat
    ∧ (∃ c, c ∈ ex ∧ columns df !! c = None)
    ∧ e = KeyError (filter (λ c, columns df !! c = None) ex).
Proof.
  intros Hshape Hflag. split.
  - intros Hraise.
    destruct (decide (series_sum flags = 0%nat)) as [Hsum|Hsum].
    { by rewrite (generate_flag_report_passed _ _ _ _ _ Hflag Hsum) in Hraise. }
    split; [done|].
    destruct (filter (λ c, columns df !! c = None) ex) as [|c absent] eqn:Hfilter.
    + exfalso. pose proof (absent_filter_nil _ _ Hfilter) as Hpresent.
      destruct ex as [|c ex'].
      * destruct (generate_flag_report_failed_nil _ _ name _ Hshape Hflag Hsum)
          as (pct & _ & _ & Hitem).
        by rewrite Hitem in Hraise.
      * destruct (generate_flag_report_failed _ _ name (c :: ex') _ Hshape Hflag Hsum)
          as (pct & _ & _ & Hitem); [done|done|].
        by rewrite Hitem in Hraise.
    + assert (c ∈ filter (λ c, columns df !! c = None) ex) as Hc.
      { rewrite Hfilter. apply list_elem_of_here. }
      apply list_elem_of_filter in Hc as [Hnone Hc].
      split; [by exists c|].
      rewrite (generate_flag_report_raises _ _ _ _ _ Hshape Hflag Hsum) in Hraise.
      * rewrite Hfilter in Hraise. by injection Hraise as <-.
      * by rewrite Hfilter.
  - intros (Hsum & (c & Hc & Hnone) & ->).
    apply (generate_flag_report_raises _ _ _ _ flags); [done..|].
    intros Hnil. by destruct (absent_filter_nil _ _ Hnil c Hc) as [col Hcol];
      rewrite Hnone in Hcol.
Qed.

Lemma elem_of_boolean_index {A} (x : A) (mask : list bool) : ∀ col : list A,
  x ∈ boolean_index mask col → x ∈ col.
Proof.
  induction mask as [|m mask IH]; intros [|y col] Hx;
    try (by apply elem_of_nil in Hx).
  cbn [boolean_index] in Hx. destruct m.
  - apply elem_of_cons in Hx as [->|Hx]; [apply list_elem_of_here|].
    apply list_elem_of_further. by apply IH.
  - apply list_elem_of_further. by apply IH.
Qed.

Lemma length_project_rows df (ex : list string) :
  length (project_rows df ex) = nrows df.
Proof. unfold project_rows. by rewrite length_fmap, length_seq. Qed.

(** X9: the numbers of a FAILED report item are consistent: the failed
    count is the number of flagged records, at least 1 and at most the
    total number of rows; the failed percentage lies between 0 and 100;
    the item carries examples exactly when example columns were asked for,
    and then min(5, failed count) of them, each a record with exactly the
    example columns as keys, in their listed order. *)
Theorem failed_item_bounds (df : DataFrame) (flag name : string)
    (ex : list string) (flags : list bool) (item : ValidationItemReport) :
  table_shaped df →
  columns df !! flag = Some (CBool <$> flags) →
  _generate_flag_report df flag name ex = Ok item →
  item_status item = FAILED →
  item_total_rows item = Some (nrows df)
  ∧ item_failed_count item = Some (series_sum flags)
  ∧ (1 ≤ series_sum flags ≤ nrows df)%nat
  ∧ (∃ pct, item_failed_percentage item = Some pct ∧ (0 <= pct <= 100)%Q)
  ∧ match item_examples item with
    | None => ex = []
    | Some examples =>
        ex ≠ [] ∧ length examples = min 5 (series_sum flags)
        ∧ ∀ record, record ∈ examples → record.*1 = ex
    end.
Proof.
  intros Hshape Hflag Hitem Hstatus.
  assert (length flags = nrows df) as Hlen.
  { rewrite <- (Hshape _ _ Hflag). by rewrite length_fmap. }
  pose proof (series_sum_le flags) as Hle.
  destruct (decide (series_sum flags = 0%nat)) as [Hsum|Hsum].
  { rewrite (generate_flag_report_passed _ _ _ _ _ Hflag Hsum) in Hitem.
    injection Hitem as <-. discriminate Hstatus. }
  destruct ex as [|c ex'].
  { destruct (generate_flag_report_failed_nil _ _ name _ Hshape Hflag Hsum)
      as (pct & _ & Hpct%py_round2_bounds & Hfailed).
    rewrite Hfailed in Hitem.
    injection Hitem as <-. cbn [failed_item item_total_rows item_failed_count
      item_failed_percentage item_examples].
    split; [done|]. split; [done|]. split; [lia|]. split; [by eexists|done]. }
  set (ex := c :: ex') in *.
  destruct (filter (λ c, columns df !! c = None) ex) as [|a absent] eqn:Hfilter.
  - pose proof (absent_filter_nil _ _ Hfilter) as Hpresent.
    destruct (generate_flag_report_failed _ _ name ex _ Hshape Hflag Hsum)
      as (pct & _ & Hpct%py_round2_bounds & Hfailed); [done|done|].
    rewrite Hfailed in Hitem.
    injection Hitem as <-. cbn [failed_item item_total_rows item_failed_count
      item_failed_percentage item_examples].
    split; [done|]. split; [done|]. split; [lia|]. split; [by eexists|].
    split; [done|]. split.
    + rewrite length_take, length_boolean_index; [done|].
      by rewrite length_project_rows.
    + intros record Hrecord. apply elem_of_take in Hrecord as (i & Hrecord & _).
      apply list_elem_of_lookup_2, elem_of_boolean_index in Hrecord.
      unfold project_rows in Hrecord.
      apply list_elem_of_fmap in Hrecord as (j & -> & _).
      rewrite <- list_fmap_compose. by rewrite list_fmap_id.
  - rewrite (generate_flag_report_raises _ _ _ _ _ Hshape Hflag Hsum) in Hitem;
      [done|by rewrite Hfilter].
Qed.

(** ** flag_duplicates keeps the first record of every id *)

Lemma cell_eqb_refl x : cell_eqb x x = true.
Proof.
  destruct x as [a|s|b|]; cbn [cell_eqb]; [|apply String.eqb_refl|by destruct b|done].
  apply Qeq_bool_iff. reflexivity.
Qed.

Lemma cell_eqb_sym x y : cell_eqb x y = true → cell_eqb y x = true.
Proof.
  destruct x as [a|s|a|], y as [b|t|b|]; cbn [cell_eqb]; try done.
  - rewrite !Qeq_bool_iff. intros H. by symmetry.
  - rewrite !String.eqb_eq. intros H. by symmetry.
  - by destruct a, b.
Qed.

Lemma cell_eqb_trans x y z :
  cell_eqb x y = true → cell_eqb y z = true → cell_eqb x z = true.
Proof.
  destruct x as [a|s|a|], y as [b|t|b|], z as [c|u|c|]; cbn [cell_eqb];
    try discriminate; try done;
    rewrite ?Qeq_bool_iff, ?String.eqb_eq; intros H1 H2;
    try congruence;
    repeat match goal with b : bool |- _ => destruct b end;
    try discriminate; try reflexivity;
    try (cbn [eqb] in *; lra).
Qed.

Lemma flag_duplicates_flag_at df ids i x :
  table_shaped df →
  columns df !! "id" = Some ids →
  ids !! i = Some x →
  ∃ b, flag_at (flag_duplicates df) HAS_DUPLICATE i = Some b
     ∧ (b = true ↔ ∃ j y, j < i ∧ ids !! j = Some y ∧ cell_eqb x y = true).
Proof.
  intros Hshape Hid Hx. rewrite (flag_duplicates_present _ _ Hshape Hid).
  destruct (duplicated_from_lookup ids [] i x Hx) as (b & Hb & Hiff).
  exists b. split.
  - erewrite flag_at_with by reflexivity. exact Hb.
  - rewrite Hiff. split; [|by right].
    intros [(y & [] & _)|H]; done.
Qed.

Lemma first_occurrence (ids : list cell) (dup : nat → option bool) :
  (∀ i x, ids !! i = Some x →
     ∃ b, dup i = Some b
        ∧ (b = true ↔ ∃ j y, j < i ∧ ids !! j = Some y ∧ cell_eqb x y = true)) →
  ∀ (j : nat) y, ids !! j = Some y →
    ∃ (i : nat) x, (i ≤ j)%nat ∧ ids !! i = Some x ∧ cell_eqb y x = true
         ∧ ∀ k z, k < i → ids !! k = Some z → cell_eqb y z = false.
Proof.
  intros Hdup j. induction (lt_wf j) as [j _ IH]. intros y Hy.
  destruct (Hdup j y Hy) as ([] & _ & Hiff).
  - destruct (proj1 Hiff eq_refl) as (k & z & Hk & Hz & Hyz).
    destruct (IH k Hk z Hz) as (i & x & Hi & Hx & Hzx & Hmin).
    exists i, x. split; [lia|]. split; [done|].
    split; [by eapply cell_eqb_trans|].
    intros k' z' Hk' Hz'. destruct (cell_eqb y z') eqn:E; [|done].
    rewrite <- (Hmin k' z' Hk' Hz'). symmetry.
    eapply cell_eqb_trans; [|exact E]. by apply cell_eqb_sym.
  - exists j, y. split; [lia|]. split; [done|]. split; [apply cell_eqb_refl|].
    intros k z Hk Hz. destruct (cell_eqb y z) eqn:E; [|done].
    assert (false = true) as Habs by (apply Hiff; eauto). discriminate Habs.
Qed.

(** X10: flag_duplicates keeps exactly the first record of every id: for
    every record of a well-formed batch with an id column there is exactly
    one unflagged record with an equal id, and it is the earliest record
    bearing that id (so it is at or before the record itself). *)
Theorem flag_duplicates_keeps_first (df : DataFrame) (ids : list cell) :
  table_shaped df →
  columns df !! "id" = Some ids →
  ∀ (j : nat) y, ids !! j = Some y →
    ∃ (i : nat) x, (i ≤ j)%nat ∧ ids !! i = Some x ∧ cell_eqb y x = true
         ∧ flag_at (flag_duplicates df) HAS_DUPLICATE i = Some false
         ∧ (∀ k z, k < i → ids !! k = Some z → cell_eqb y z = false)
         ∧ (∀ (i' : nat) x', ids !! i' = Some x' → cell_eqb y x' = true →
              flag_at (flag_duplicates df) HAS_DUPLICATE i' = Some false →
              i' = i).
Proof.
  intros Hshape Hid j y Hy.
  pose proof (λ i x, flag_duplicates_flag_at df ids i x Hshape Hid) as Hdup.
  destruct (first_occurrence ids _ Hdup j y Hy) as (i & x & Hi & Hx & Hyx & Hmin).
  exists i, x. split; [done|]. split; [done|]. split; [done|].
  assert (∀ (i' : nat) x', ids !! i' = Some x' → cell_eqb y x' = true →
            flag_at (flag_duplicates df) HAS_DUPLICATE i' = Some false → (i' ≤ i)%nat)
    as Hle.
  { intros i' x' Hx' Hyx' Hflag.
    destruct (le_gt_dec i' i) as [|Hgt]; [done|]. exfalso.
    destruct (Hdup i' x' Hx') as (b & Hb & Hiff).
    rewrite Hflag in Hb. injection Hb as <-.
    assert (false = true) as Habs; [|discriminate Habs].
    apply Hiff. exists i, x. split; [lia|]. split; [done|].
    eapply cell_eqb_trans; [|exact Hyx]. by apply cell_eqb_sym. }
  split; [|split; [exact Hmin|]].
  - destruct (Hdup i x Hx) as ([] & Hb & Hiff); [|done]. exfalso.
    destruct (proj1 Hiff eq_refl) as (k & z & Hk & Hz & Hxz).
    pose proof (Hmin k z Hk Hz) as Hne.
    by rewrite (cell_eqb_trans _ _ _ Hyx Hxz) in Hne.
  - intros i' x' Hx' Hyx' Hflag.
    pose proof (Hle i' x' Hx' Hyx' Hflag) as Hle'.
    destruct (decide (i' = i)) as [|Hne]; [done|]. exfalso.
    assert (i' < i) as Hlt by lia.
    pose proof (Hmin i' x' Hlt Hx') as Habs. by rewrite Hyx' in Habs.
Qed.

(** * The pipeline around the validator *)

(** ** run_full_validation: the statistics against the report *)











(** ** check_schema and the schema error report *)

Section PipelineProperties.
Variable path_exists : string → bool.
Variable read_csv : string → ReadCsv.

Lemma check_schema_unavailable raw_file_path :
  default EmptyString raw_file_path = EmptyString ∨ path_exists (default EmptyString raw_file_path) = false →
  check_schema path_exists read_csv raw_file_path =
  ([("schema_result", XStatus EMPTY_DATA);
    ("error_message", XStr ("Raw file not found: " +:+ path_text raw_file_path))],
   Branch "handle_schema_failure").
Proof.
  intros H. unfold check_schema. cbv zeta.
  destruct (String.eqb_spec (default EmptyString raw_file_path) EmptyString) as [E|E]; [done|].
  destruct H as [H|H]; [done|]. by rewrite H.
Qed.

Lemma check_schema_available p :
  p ≠ EmptyString → path_exists p = true →
  check_schema path_exists read_csv (Some p) =
  match read_csv p with
  | EmptyDataError =>
      ([("schema_result", XStatus EMPTY_DATA);
        ("error_message", XStr ("CSV file is completely empty: " +:+ p))],
       Branch "handle_schema_failure")
  | ReadError str_e => ([], AttributeError "INVALID")
  | ReadFrame df =>
      ([("schema_result", XStatus (validate_schema (PyDataFrame df)))],
       if decide (validate_schema (PyDataFrame df) = VALID)
       then Branch "run_full_validation" else Branch "handle_schema_failure")
  end.
Proof.
  intros Hp Hex. unfold check_schema. cbv zeta. cbn [default from_option id].
  destruct (String.eqb_spec p EmptyString) as [E|E]; [done|]. rewrite Hex. cbn [negb orb].
  by destruct (read_csv p).
Qed.

Lemma check_schema_cases raw_file_path :
  (default EmptyString raw_file_path = EmptyString ∨ path_exists (default EmptyString raw_file_path) = false)
  ∨ ∃ p, raw_file_path = Some p ∧ p ≠ EmptyString ∧ path_exists p = true.
Proof.
  destruct raw_file_path as [p|]; [|by left; left].
  destruct (decide (p = EmptyString)) as [->|Hp]; [by left; left|].
  destruct (path_exists p) eqn:E; [|by left; right].
  right. by exists p.
Qed.

(** X12: check_schema branches to run_full_validation exactly when the
    raw file is there, is read as a batch and the batch passes
    validate_schema.  It fails exactly when reading the raw file raises
    an error other than EmptyDataError: the handler names a member
    INVALID that the enumeration does not have, so the task raises
    AttributeError and pushes nothing instead of branching to
    handle_schema_failure.  In every other case it branches to
    handle_schema_failure. *)
Theorem check_schema_outcomes (raw_file_path : option string) :
  let out := check_schema path_exists read_csv raw_file_path in
  (out.2 = Branch "run_full_validation" ↔
     ∃ p df, raw_file_path = Some p ∧ p ≠ EmptyString ∧ path_exists p = true
             ∧ read_csv p = ReadFrame df
             ∧ validate_schema (PyDataFrame df) = VALID)
  ∧ ((∃ name, out.2 = AttributeError name) ↔
       ∃ p str_e, raw_file_path = Some p ∧ p ≠ EmptyString ∧ path_exists p = true
                  ∧ read_csv p = ReadError str_e)
  ∧ (∀ name, out.2 = AttributeError name → name = "INVALID" ∧ out.1 = [])
  ∧ (∀ task_id, out.2 = Branch task_id →
       task_id = "run_full_validation" ∨ task_id = "handle_schema_failure").
Proof.
  cbv zeta. destruct (check_schema_cases raw_file_path) as [H|(p & -> & Hp & Hex)].
  - rewrite (check_schema_unavailable _ H). cbn [fst snd].
    split; [|split; [|split]].
    + split; [discriminate|]. intros (p & df & -> & Hp & Hex & _).
      cbn [default from_option id] in H. destruct H as [H|H]; congruence.
    + split; [by intros [? ?]|]. intros (p & e & -> & Hp & Hex & _).
      cbn [default from_option id] in H. destruct H as [H|H]; congruence.
    + discriminate.
    + intros task_id [= <-]. by right.
  - rewrite (check_schema_available p Hp Hex).
    destruct (read_csv p) as [df| |str_e] eqn:E; cbn [fst snd].
    + destruct (decide (validate_schema (PyDataFrame df) = VALID)) as [Hv|Hv].
      * split; [|split; [|split]].
        -- split; [|done]. intros _. exists p, df. by rewrite E.
        -- split; [by intros [? ?]|]. intros (p' & e & [= <-] & _ & _ & E').
           congruence.
        -- discriminate.
        -- intros task_id [= <-]. by left.
      * split; [|split; [|split]].
        -- split; [discriminate|]. intros (p' & df' & [= <-] & _ & _ & E' & Hv').
           rewrite E in E'. injection E' as <-. done.
        -- split; [by intros [? ?]|]. intros (p' & e & [= <-] & _ & _ & E').
           congruence.
        -- discriminate.
        -- intros task_id [= <-]. by right.
    + split; [|split; [|split]].
      * split; [discriminate|]. intros (p' & df' & [= <-] & _ & _ & E' & _).
        congruence.
      * split; [by intros [? ?]|]. intros (p' & e & [= <-] & _ & _ & E').
        congruence.
      * discriminate.
      * intros task_id [= <-]. by right.
    + split; [|split; [|split]].
      * split; [discriminate|]. intros (p' & df' & [= <-] & _ & _ & E' & _).
        congruence.
      * split; [|by intros _; exists "INVALID"]. intros _. by exists p, str_e.
      * by intros name [= <-].
      * discriminate.
Qed.

(** X13: whenever check_schema branches to handle_schema_failure it has
    pushed a schema_result that is a member of the enumeration other than
    VALID, and the error report generated from it carries that status: its
    error is the status value, its message is the one of that status and
    never the default, and the lookup of the status by value gives the
    same report whether XCom hands back the member or its text. *)
Theorem schema_failure_report (raw_file_path : option string) (pushed : XCom) :
  check_schema path_exists read_csv raw_file_path
    = (pushed, Branch "handle_schema_failure") →
  ∃ status, xcom_pull pushed "schema_result" = XStatus status
          ∧ status ≠ VALID
          ∧ generate_error_report pushed = generate_schema_error_report status
          ∧ generate_error_report [("schema_result", XStr (schema_status_value status))]
            = generate_schema_error_report status
          ∧ schema_report_error (generate_error_report pushed)
            = schema_status_value status
          ∧ schema_report_error_message (generate_error_report pushed)
            ≠ "Unknown schema error".
Proof.
  assert (∀ status, status ≠ VALID →
            generate_error_report [("schema_result", XStatus status)]
              = generate_schema_error_report status
            ∧ generate_error_report [("schema_result", XStr (schema_status_value status))]
              = generate_schema_error_report status
            ∧ schema_report_error (generate_schema_error_report status)
              = schema_status_value status
            ∧ schema_report_error_message (generate_schema_error_report status)
              ≠ "Unknown schema error") as Hreport.
  { intros [] Hs; try done; repeat split; discriminate. }
  assert (∀ status v, generate_error_report
                        [("schema_result", XStatus status); ("error_message", XStr v)]
                      = generate_error_report [("schema_result", XStatus status)])
    as Hmsg.
  { by intros [] v. }
  destruct (check_schema_cases raw_file_path) as [H|(p & -> & Hp & Hex)].
  - rewrite (check_schema_unavailable _ H). intros [= <-].
    exists EMPTY_DATA. destruct (Hreport EMPTY_DATA) as (H1 & H2 & H3 & H4); [done|].
    rewrite Hmsg, H1. by repeat split.
  - rewrite (check_schema_available p Hp Hex).
    destruct (read_csv p) as [df| |str_e] eqn:E.
    + generalize (validate_schema (PyDataFrame df)). intros status.
      destruct (decide (status = VALID)) as [Hv|Hv]; [discriminate|].
      intros [= <-]. exists status.
      destruct (Hreport _ Hv) as (H1 & H2 & H3 & H4).
      rewrite H1. split; [|by repeat split].
      cbn [xcom_pull]. by rewrite String.eqb_refl.
    + intros [= <-]. exists EMPTY_DATA.
      destruct (Hreport EMPTY_DATA) as (H1 & H2 & H3 & H4); [done|].
      rewrite Hmsg, H1. by repeat split.
    + discriminate.
Qed.

End PipelineProperties.

(** ** notify_validation_complete *)

(** X18: notify_validation_complete never logs a warning: it compares
    the report status with the text FAILED, while the status of a failed
    report is the enumeration member whose value is the lower-case text
    failed, so the comparison is false for every report and a report with
    status FAILED is announced at info level like a passed one. *)
Theorem notify_validation_complete_never_warns (report : ValidationReport) :
  notify_validation_complete report = INFO
  ∧ (report_status report = FAILED →
       validation_status_value (report_status report) = "failed").
Proof.
  unfold notify_validation_complete.
  destruct (report_status report); split; try reflexivity; discriminate.
Qed.

(** ** get_markets_data *)

Section ClientProperties.
Variable CryptoDataSchema : Type.
Variable requests_get : Request → outcome Response.
Variable load_records : Response → outcome (list CryptoDataSchema).
Variable py_int : string → option Z.
Variable int_error : string → string.

Lemma except_requests_returns {A} (body : outcome A) (a : A) :
  except_requests body = Returns a ↔ body = Returns a.
Proof. by destruct body as [?|[]]. Qed.

Lemma except_requests_wraps {A} (body : outcome A) :
  except_requests body ≠ Raises RequestsTimeout
  ∧ ∀ str_e, except_requests body ≠ Raises (RequestException str_e).
Proof. by destruct body as [?|[]]. Qed.

Lemma get_markets_data_invalid_per_page timeout vs_currency per_page page pcp :
  ¬ (1 ≤ per_page ≤ 250)%Z →
  get_markets_data CryptoDataSchema requests_get load_records py_int int_error
    timeout vs_currency per_page page pcp =
  ([], Raises (ValueError "per_page must be between 1-250")).
Proof.
  intros H. unfold get_markets_data.
  destruct (Z.leb_spec 1 per_page), (Z.leb_spec per_page 250); cbn [andb negb];
    try done.
  lia.
Qed.

Lemma get_markets_data_invalid_page timeout vs_currency per_page page pcp :
  (1 ≤ per_page ≤ 250)%Z → (page < 1)%Z →
  get_markets_data CryptoDataSchema requests_get load_records py_int int_error
    timeout vs_currency per_page page pcp =
  ([], Raises (ValueError "page must be greater than 0")).
Proof.
  intros H Hpage. unfold get_markets_data.
  destruct (Z.leb_spec 1 per_page), (Z.leb_spec per_page 250); cbn [andb negb];
    try lia.
  destruct (Z.ltb_spec page 1); [done|lia].
Qed.

Lemma get_markets_data_valid timeout vs_currency per_page page pcp :
  (1 ≤ per_page ≤ 250)%Z → (1 ≤ page)%Z →
  get_markets_data CryptoDataSchema requests_get load_records py_int int_error
    timeout vs_currency per_page page pcp =
  let request := markets_request timeout vs_currency per_page page pcp in
  ([request],
   except_requests
     match requests_get request with
     | Raises e => Raises e
     | Returns response =>
         if (status_code response =? 429)%Z then
           match retry_after_of py_int int_error response with
           | Returns retry_after =>
               Raises (CoinGeckoAPIError
                         ("API rate limit (429), Retry-After: "
                          +:+ pretty retry_after +:+ " seconds"))
           | Raises e => Raises e
           end
         else if negb (status_code response =? 200)%Z then
           Raises (CoinGeckoAPIError
                     ("API error: HTTP " +:+ pretty (status_code response)
                      +:+ " - " +:+ text response))
         else load_records response
     end).
Proof.
  intros H Hpage. unfold get_markets_data.
  destruct (Z.leb_spec 1 per_page), (Z.leb_spec per_page 250); cbn [andb negb];
    try lia.
  destruct (Z.ltb_spec page 1); [lia|done].
Qed.

(** X14: get_markets_data validates its parameters before it touches the
    network: with per_page outside 1..250 or page below 1 no request is
    sent and ValueError is raised (the per_page check first); with valid
    parameters exactly one request is sent, to /coins/markets, carrying
    per_page and page as given.  No request is sent only for invalid
    parameters. *)
Theorem get_markets_data_parameter_check (timeout : Z) (vs_currency : string)
    (per_page page : Z) (pcp : string) :
  let out := get_markets_data CryptoDataSchema requests_get load_records py_int int_error
               timeout vs_currency per_page page pcp in
  (out.1 = [] ↔ ¬ ((1 ≤ per_page ≤ 250)%Z ∧ (1 ≤ page)%Z))
  ∧ (¬ (1 ≤ per_page ≤ 250)%Z →
       out.2 = Raises (ValueError "per_page must be between 1-250"))
  ∧ ((1 ≤ per_page ≤ 250)%Z → (page < 1)%Z →
       out.2 = Raises (ValueError "page must be greater than 0"))
  ∧ ((1 ≤ per_page ≤ 250)%Z → (1 ≤ page)%Z →
       ∃ request, out.1 = [request]
                  ∧ request_url request
                    = "https://api.coingecko.com/api/v3/coins/markets"
                  ∧ request_timeout request = timeout
                  ∧ ("per_page", ParamInt per_page) ∈ request_params request
                  ∧ ("page", ParamInt page) ∈ request_params request).
Proof.
  cbv zeta. split; [|split; [|split]].
  - destruct (decide (1 ≤ per_page ≤ 250)%Z) as [H|H].
    + destruct (decide (1 ≤ page)%Z) as [Hp|Hp].
      * rewrite get_markets_data_valid by done. cbv zeta. cbn [fst].
        split; [discriminate|]. intros Hn. exfalso. by apply Hn.
      * rewrite get_markets_data_invalid_page by (done || lia). cbn [fst].
        split; [|done]. intros _ [_ ?]. done.
    + rewrite get_markets_data_invalid_per_page by done. cbn [fst].
      split; [|done]. intros _ [? _]. done.
  - intros H. by rewrite get_markets_data_invalid_per_page.
  - intros H Hp. by rewrite get_markets_data_invalid_page.
  - intros H Hp. rewrite get_markets_data_valid by done. cbv zeta. cbn [fst].
    eexists. split; [reflexivity|]. split; [reflexivity|]. split; [reflexivity|].
    cbn [request_params markets_request]. rewrite !elem_of_cons. tauto.
Qed.

(** X15: get_markets_data returns records exactly when the parameters are
    valid, the request it sent was answered with status 200, and the body
    of that response was loaded into records; those are the records it
    returns. *)
Theorem get_markets_data_returns_records (timeout : Z) (vs_currency : string)
    (per_page page : Z) (pcp : string) (records : list CryptoDataSchema) :
  (get_markets_data CryptoDataSchema requests_get load_records py_int int_error
     timeout vs_currency per_page page pcp).2 = Returns records
  ↔ (1 ≤ per_page ≤ 250)%Z ∧ (1 ≤ page)%Z
    ∧ ∃ response,
        requests_get (markets_request timeout vs_currency per_page page pcp)
          = Returns response
        ∧ status_code response = 200%Z
        ∧ load_records response = Returns records.
Proof.
  destruct (decide (1 ≤ per_page ≤ 250)%Z) as [H|H].
  2:{ rewrite get_markets_data_invalid_per_page by done. cbn [snd].
      split; [discriminate|]. by intros [? _]. }
  destruct (decide (1 ≤ page)%Z) as [Hp|Hp].
  2:{ rewrite get_markets_data_invalid_page by (done || lia). cbn [snd].
      split; [discriminate|]. by intros (_ & ? & _). }
  rewrite get_markets_data_valid by done. cbv zeta. cbn [snd].
  rewrite except_requests_returns.
  destruct (requests_get _) as [response|e].
  - destruct (Z.eqb_spec (status_code response) 429) as [E|E].
    + split.
      * by destruct (retry_after_of py_int int_error response).
      * intros (_ & _ & r & [= <-] & E200 & _). congruence.
    + destruct (Z.eqb_spec (status_code response) 200) as [E2|E2]; cbn [negb].
      * split.
        -- intros Hl. split; [exact H|]. split; [exact Hp|]. by exists response.
        -- by intros (_ & _ & r & [= <-] & _ & Hl).
      * split; [discriminate|]. intros (_ & _ & r & [= <-] & E200 & _). done.
  - split; [discriminate|]. by intros (_ & _ & r & ? & _).
Qed.

(** X16: when a valid request is answered with a status other than 200,
    get_markets_data raises CoinGeckoAPIError, with one exception: a 429
    response whose Retry-After header is present and not an integer
    literal makes the conversion of the header fail, and that ValueError
    escapes.  A 429 without the header reports the default wait of 60
    seconds; any other status is reported with the status code and the
    response text. *)
Theorem get_markets_data_bad_status (timeout : Z) (vs_currency : string)
    (per_page page : Z) (pcp : string) (response : Response) :
  (1 ≤ per_page ≤ 250)%Z → (1 ≤ page)%Z →
  requests_get (markets_request timeout vs_currency per_page page pcp)
    = Returns response →
  status_code response ≠ 200%Z →
  let out := get_markets_data CryptoDataSchema requests_get load_records py_int int_error
               timeout vs_currency per_page page pcp in
  ((∃ msg, out.2 = Raises (CoinGeckoAPIError msg)) ↔
     ¬ (status_code response = 429%Z
        ∧ ∃ s, retry_after_header response = Some s ∧ py_int s = None))
  ∧ (status_code response = 429%Z →
       ∀ s, retry_after_header response = Some s → py_int s = None →
         out.2 = Raises (ValueError (int_error s)))
  ∧ (status_code response = 429%Z → retry_after_header response = None →
       out.2 = Raises (CoinGeckoAPIError
                         "API rate limit (429), Retry-After: 60 seconds"))
  ∧ (status_code response ≠ 429%Z →
       out.2 = Raises (CoinGeckoAPIError
                         ("API error: HTTP " +:+ pretty (status_code response)
                          +:+ " - " +:+ text response))).
Proof.
  intros H Hp Hget Hstatus. cbv zeta.
  rewrite get_markets_data_valid by done. cbv zeta. cbn [snd]. rewrite Hget.
  destruct (Z.eqb_spec (status_code response) 429) as [E|E].
  - unfold retry_after_of.
    destruct (retry_after_header response) as [s|] eqn:Hh.
    + destruct (py_int s) as [n|] eqn:Hint; cbn [except_requests].
      * split; [|split; [|split]]; try done.
        -- split; [|by eexists]. intros _ (_ & s' & [= <-] & ?). congruence.
        -- intros _ s' [= <-] ?. congruence.
      * split; [|split; [|split]]; try done.
        -- split; [by intros [? ?]|]. intros Hn. exfalso. apply Hn.
           split; [done|]. by exists s.
        -- by intros _ s' [= <-] _.
    + cbn [except_requests]. split; [|split; [|split]]; try done.
      split; [|by eexists]. by intros _ (_ & s' & ? & _).
  - destruct (Z.eqb_spec (status_code response) 200) as [E2|E2]; [done|].
    cbn [negb except_requests]. split; [|split; [|split]]; try done.
    split; [|by eexists]. by intros _ [? _].
Qed.

(** X17: get_markets_data never lets a requests exception out: a timeout
    of the transport, and any other requests exception raised by the
    transport or while the body of a 200 response is loaded, reaches the
    caller as CoinGeckoAPIError. *)
Theorem get_markets_data_wraps_requests_errors (timeout : Z) (vs_currency : string)
    (per_page page : Z) (pcp : string) :
  let out := get_markets_data CryptoDataSchema requests_get load_records py_int int_error
               timeout vs_currency per_page page pcp in
  let request := markets_request timeout vs_currency per_page page pcp in
  out.2 ≠ Raises RequestsTimeout
  ∧ (∀ str_e, out.2 ≠ Raises (RequestException str_e))
  ∧ ((1 ≤ per_page ≤ 250)%Z → (1 ≤ page)%Z →
       (requests_get request = Raises RequestsTimeout →
          out.2 = Raises (CoinGeckoAPIError "Request timeout"))
       ∧ (∀ str_e, requests_get request = Raises (RequestException str_e) →
            out.2 = Raises (CoinGeckoAPIError ("Request error: " +:+ str_e)))
       ∧ (∀ response str_e,
            requests_get request = Returns response →
            status_code response = 200%Z →
            load_records response = Raises (RequestException str_e) →
            out.2 = Raises (CoinGeckoAPIError ("Request error: " +:+ str_e)))).
Proof.
  cbv zeta.
  assert ((get_markets_data CryptoDataSchema requests_get load_records py_int int_error
     timeout vs_currency per_page page pcp).2 ≠ Raises RequestsTimeout
          ∧ ∀ str_e, (get_markets_data CryptoDataSchema requests_get load_records py_int int_error
     timeout vs_currency per_page page pcp).2
                     ≠ Raises (RequestException str_e)) as [H1 H2].
  { destruct (decide (1 ≤ per_page ≤ 250)%Z) as [H|H].
    2:{ rewrite get_markets_data_invalid_per_page by done. by cbn [snd]. }
    destruct (decide (1 ≤ page)%Z) as [Hp|Hp].
    2:{ rewrite get_markets_data_invalid_page by (done || lia). by cbn [snd]. }
    rewrite get_markets_data_valid by done. cbv zeta. cbn [snd].
    apply except_requests_wraps. }
  split; [exact H1|]. split; [exact H2|].
  intros H Hp. rewrite get_markets_data_valid by done. cbv zeta. cbn [snd].
  split; [|split].
  - by intros ->.
  - by intros str_e ->.
  - intros response str_e -> E ->.
    rewrite E. by cbn [Z.eqb Pos.eqb negb except_requests].
Qed.

End ClientProperties.

(** * The further properties at sample batches *)

Lemma flag_invalid_numeric_types_spec_witness :
  table_shaped dirty_data ∧ (1 < nrows dirty_data)%nat
  ∧ flag_at (flag_invalid_numeric_types sample_parse_number dirty_data)
      HAS_NON_NUMERIC_VALUE 1 = Some true.
Proof.
  assert (table_shaped dirty_data) as Hshape
    by (apply frame_table_shaped; repeat constructor).
  assert (1 < nrows dirty_data)%nat as Hi
    by (unfold dirty_data, frame; cbn [nrows]; lia).
  split; [exact Hshape|]. split; [exact Hi|].
  destruct (flag_invalid_numeric_types_spec sample_parse_number dirty_data 1 Hshape Hi)
    as (b & Hb & Hiff).
  rewrite Hb. f_equal. apply Hiff.
  exists "current_price", [CNum 45000; CStr "invalid"; CNum (-100); CNum (1 # 2)],
    (CStr "invalid").
  split; [apply list_elem_of_here|]. split; [reflexivity|]. split; [reflexivity|].
  split; [discriminate|reflexivity].
Defined.

Lemma flag_missing_values_spec_witness :
  table_shaped dirty_data
  ∧ ∃ df', flag_missing_values dirty_data = Ok df'
         ∧ flag_at df' HAS_MISSING_VALUES 3 = Some true.
Proof.
  assert (table_shaped dirty_data) as Hshape
    by (apply frame_table_shaped; repeat constructor).
  assert (∀ f, f ∈ REQUIRED_FIELDS → is_Some (columns dirty_data !! f)) as Hreq.
  { intros f Hf. unfold REQUIRED_FIELDS in Hf.
    repeat (apply elem_of_cons in Hf as [->|Hf]; [eexists; reflexivity|]).
    by apply elem_of_nil in Hf. }
  assert (3 < nrows dirty_data)%nat as Hi
    by (unfold dirty_data, frame; cbn [nrows]; lia).
  split; [exact Hshape|].
  destruct (flag_missing_values_spec dirty_data Hshape Hreq) as (df' & Hok & Hrows).
  exists df'. split; [exact Hok|].
  destruct (Hrows 3 Hi) as (b & Hb & Hiff).
  rewrite Hb. f_equal. apply Hiff.
  exists "id". split; [apply list_elem_of_here|reflexivity].
Defined.

Lemma apply_rule_idempotent_witness :
  apply_rule sample_parse_number duplicates dirty_data = Ok (flag_duplicates dirty_data)
  ∧ apply_rule sample_parse_number duplicates (flag_duplicates dirty_data)
    = Ok (flag_duplicates dirty_data).
Proof.
  split; [reflexivity|].
  apply (apply_rule_idempotent sample_parse_number duplicates dirty_data).
  reflexivity.
Defined.


Lemma validated_batch_report_witness :
  validate_schema (PyDataFrame dirty_data) = VALID
  ∧ table_shaped dirty_data
  ∧ ∃ out report,
      run_rules sample_parse_number all_rules dirty_data = Ok out
      ∧ generate_validation_report out = Ok report
      ∧ summary_executed (report_summary report) = 5%nat.
Proof.
  assert (validate_schema (PyDataFrame dirty_data) = VALID) as Hvalid
    by (vm_compute; reflexivity).
  assert (table_shaped dirty_data) as Hshape
    by (apply frame_table_shaped; repeat constructor).
  split; [exact Hvalid|]. split; [exact Hshape|].
  destruct (run_rules sample_parse_number all_rules dirty_data) as [out|e] eqn:E.
  - destruct (validated_batch_report sample_parse_number dirty_data out
                Hvalid Hshape E) as (report & Hrep & _ & _ & Hexec & _).
    exists out, report. split; [reflexivity|]. exact (conj Hrep Hexec).
  - vm_compute in E. discriminate E.
Defined.

Lemma generate_flag_report_fault_witness :
  table_shaped revalidated_batch
  ∧ _generate_flag_report revalidated_batch HAS_DUPLICATE "duplicates"
      ["id"; "symbol"; "name"]
    = Raise (KeyError ["symbol"; "name"]).
Proof.
  assert (table_shaped revalidated_batch) as Hshape
    by (apply frame_table_shaped; repeat constructor).
  split; [exact Hshape|].
  apply (generate_flag_report_fault revalidated_batch HAS_DUPLICATE "duplicates"
           ["id"; "symbol"; "name"] [false; true] _ Hshape eq_refl).
  split; [discriminate|]. split.
  - exists "symbol". split; [apply list_elem_of_further, list_elem_of_here|reflexivity].
  - vm_compute. reflexivity.
Defined.

Lemma failed_item_bounds_witness :
  table_shaped flagged_duplicates_batch
  ∧ ∃ item,
      _generate_flag_report flagged_duplicates_batch HAS_DUPLICATE "duplicates"
        ["id"; "symbol"; "name"] = Ok item
      ∧ item_failed_count item = Some 1%nat
      ∧ ∃ pct, item_failed_percentage item = Some pct ∧ (0 <= pct <= 100)%Q.
Proof.
  assert (table_shaped flagged_duplicates_batch) as Hshape
    by (apply frame_table_shaped; repeat constructor).
  split; [exact Hshape|].
  destruct (_generate_flag_report flagged_duplicates_batch HAS_DUPLICATE "duplicates"
              ["id"; "symbol"; "name"]) as [item|e] eqn:E.
  - assert (item_status item = FAILED) as Hstatus.
    { vm_compute in E. injection E as <-. reflexivity. }
    destruct (failed_item_bounds flagged_duplicates_batch HAS_DUPLICATE "duplicates"
                ["id"; "symbol"; "name"] [false; true; false] item
                Hshape eq_refl E Hstatus) as (_ & Hcount & _ & Hpct & _).
    exists item. split; [reflexivity|]. exact (conj Hcount Hpct).
  - vm_compute in E. discriminate E.
Defined.

Lemma flag_duplicates_keeps_first_witness :
  table_shaped dirty_data
  ∧ ∃ i : nat, (i ≤ 1)%nat
             ∧ flag_at (flag_duplicates dirty_data) HAS_DUPLICATE i = Some false.
Proof.
  assert (table_shaped dirty_data) as Hshape
    by (apply frame_table_shaped; repeat constructor).
  split; [exact Hshape|].
  destruct (flag_duplicates_keeps_first dirty_data _ Hshape eq_refl 1 _ eq_refl)
    as (i & x & Hi & _ & _ & Hflag & _).
  exists i. exact (conj Hi Hflag).
Defined.


Lemma schema_failure_report_witness :
  ∃ pushed,
    check_schema no_file no_csv None = (pushed, Branch "handle_schema_failure")
    ∧ schema_report_error (generate_error_report pushed) = "empty_data".
Proof.
  eexists. split; [reflexivity|].
  destruct (schema_failure_report no_file no_csv None _ eq_refl)
    as (status & Hpull & _ & _ & _ & Herror & _).
  rewrite Herror. injection Hpull as <-. reflexivity.
Defined.

Lemma get_markets_data_bad_status_witness :
  (1 ≤ 250 ≤ 250)%Z ∧ (1 ≤ 1)%Z
  ∧ (get_markets_data string rate_limited sample_load_records sample_py_int
       sample_int_error DEFAULT_TIMEOUT "usd" 250 1 "24h,7d,30d").2
    = Raises (ValueError
                "invalid literal for int() with base 10: 'Wed, 21 Oct 2026 07:28:00 GMT'").
Proof.
  assert (1 ≤ 250 ≤ 250)%Z as Hper_page by lia.
  assert (1 ≤ 1)%Z as Hpage by lia.
  split; [exact Hper_page|]. split; [exact Hpage|].
  destruct (get_markets_data_bad_status string rate_limited sample_load_records
              sample_py_int sample_int_error DEFAULT_TIMEOUT "usd" 250 1 "24h,7d,30d"
              rate_limited_response Hper_page Hpage eq_refl)
    as (_ & Hescape & _); [discriminate|].
  exact (Hescape eq_refl _ eq_refl eq_refl).
Defined.
